(** * home-dash: the calendar, action-store and weather-cache core of the
    Bun server, embedded from [server.ts] and [server-backup.ts].

    The two files hold two variants of the same server.  The parts they share
    word for word (the action handler, the calendar aggregation, the weather
    handler, [formatICSDate]) are embedded once; the parts that differ
    ([parseICSData], [formatICSTime], [calculateDuration]) are embedded twice,
    in [Module Server] and [Module ServerBackup].

    Conventions
    - a JavaScript string is a [string]: a sequence of code units below 256;
    - a value that may be [undefined] is an [option]; a field of a JSON body
      is a scalar [JS.value];
    - an instant is a [Z], in milliseconds since the epoch; [None] stands for
      NaN (an Invalid Date);
    - arithmetic on instants is exact; the program's IEEE-754 arithmetic agrees
      with it on differences of instants of four-digit years;
    - the JavaScript runtime (wall clock, [Date] parsing, [toISOString]) and the
      network are oracles passed in as arguments;
    - the module-level variables are a [Store] passed in and out; a handler
      runs from its first statement to its last with no other handler in
      between, and the store given to the calendar handler is the one its
      filter reads. *)

From Stdlib Require Import ZArith String Ascii List Bool Lia.
From Stdlib Require Import Permutation Sorted DecimalString DecimalPos.
From Stdlib Require QArith.
Import ListNotations.
Open Scope string_scope.

(* ================================================================== *)
(** ** The string primitives of JavaScript that the server uses        *)
(* ================================================================== *)

Module JS.

(** White space removed by [String.prototype.trim], among the code units
    below 256: TAB, LF, VT, FF, CR, SPACE and NBSP. *)
Definition is_ws (c : ascii) : bool :=
  let n := nat_of_ascii c in
  ((9 <=? n) && (n <=? 13) || (n =? 32) || (n =? 160))%nat.

Fixpoint trimStart (s : string) : string :=
  match s with
  | String c s' => if is_ws c then trimStart s' else s
  | EmptyString => EmptyString
  end.

Fixpoint trimEnd (s : string) : string :=
  match s with
  | EmptyString => EmptyString
  | String c s' =>
      match trimEnd s' with
      | EmptyString => if is_ws c then EmptyString else String c EmptyString
      | r => String c r
      end
  end.

(** [s.trim()] *)
Definition trim (s : string) : string := trimEnd (trimStart s).

(** [s.includes(sub)] *)
Fixpoint includes (sub s : string) : bool :=
  prefix sub s ||
  match s with
  | EmptyString => false
  | String _ s' => includes sub s'
  end.

(** [s.split(sep)] for a separator of one code unit: never the empty list. *)
Fixpoint split (sep : ascii) (s : string) : list string :=
  match s with
  | EmptyString => [EmptyString]
  | String c s' =>
      if Ascii.eqb c sep then EmptyString :: split sep s'
      else match split sep s' with
           | h :: t => String c h :: t
           | [] => [String c EmptyString]
           end
  end.

(** [parts.join(sep)] *)
Definition join (sep : string) (parts : list string) : string :=
  String.concat sep parts.

(** [s.substring(a, b)]: the indices are clamped to the length and swapped
    when [a > b]. *)
Definition substring (a b : nat) (s : string) : string :=
  let a' := Nat.min a (String.length s) in
  let b' := Nat.min b (String.length s) in
  String.substring (Nat.min a' b') (Nat.max a' b' - Nat.min a' b') s.

Fixpoint drop (n : nat) (s : string) : string :=
  match n, s with
  | O, _ => s
  | S n', String _ s' => drop n' s'
  | S _, EmptyString => EmptyString
  end.

(** [s.replace(pat, rep)] with a string pattern: the first occurrence only. *)
Fixpoint replace (pat rep s : string) : string :=
  if prefix pat s then rep ++ drop (String.length pat) s
  else match s with
       | EmptyString => EmptyString
       | String c s' => String c (replace pat rep s')
       end.

(** [\d] without the unicode flag: the ten ASCII digits. *)
Definition is_digit (c : ascii) : bool :=
  let n := nat_of_ascii c in ((48 <=? n) && (n <=? 57))%nat.

Fixpoint all_digits (s : string) : bool :=
  match s with
  | EmptyString => true
  | String c s' => is_digit c && all_digits s'
  end.

(** A match of [/(\d{4})(\d{2})(\d{2})/] at the head of [s]: the text that
    ["$1-$2-$3"] puts in its place, and what follows the match. *)
Definition match_date (s : string) : option (string * string) :=
  let d := String.substring 0 8 s in
  if (String.length d =? 8)%nat && all_digits d then
    Some (String.substring 0 4 d ++ "-" ++ String.substring 4 2 d ++ "-"
            ++ String.substring 6 2 d, drop 8 s)
  else None.

(** A match of [/(\d{4})(\d{2})(\d{2})T(\d{2})(\d{2})(\d{2})/] at the head of
    [s], replaced by ["$1-$2-$3T$4:$5:$6"]. *)
Definition match_datetime (s : string) : option (string * string) :=
  match match_date s with
  | Some (d, String "T" r) =>
      let t := String.substring 0 6 r in
      if (String.length t =? 6)%nat && all_digits t then
        Some (d ++ "T" ++ String.substring 0 2 t ++ ":"
                ++ String.substring 2 2 t ++ ":" ++ String.substring 4 2 t,
              drop 6 r)
      else None
  | _ => None
  end.

(** [s.replace(re, template)] for a regular expression without the [g] flag:
    the leftmost match is replaced, the rest of the string is kept. *)
Fixpoint replace_re (m : string -> option (string * string)) (s : string)
  : string :=
  match m s with
  | Some (r, rest) => r ++ rest
  | None =>
      match s with
      | EmptyString => EmptyString
      | String c s' => String c (replace_re m s')
      end
  end.

(** The decimal digits of an integer. *)
Definition digits (n : Z) : string := NilEmpty.string_of_int (Z.to_int n).

(** The double nearest to a non-negative integer, a tie going to the even
    significand of 53 bits. *)
Definition to_double (y : Z) : Z :=
  if (y <? 9007199254740992)%Z then y
  else
    let sh := (Z.log2 y - 52)%Z in
    let q := Z.shiftr y sh in
    let r := (y - Z.shiftl q sh)%Z in
    let half := Z.shiftl 1 (sh - 1) in
    let q' :=
      if (half <? r)%Z || ((r =? half)%Z && Z.odd q) then (q + 1)%Z else q in
    Z.shiftl q' sh.

(** The decimal of [k] significant digits nearest to [x] that reads back as
    the double [x], if there is one. *)
Definition rounded (x : Z) (k : nat) : option Z :=
  let p := (10 ^ (Z.of_nat (String.length (digits x)) - Z.of_nat k))%Z in
  let lo := (x / p * p)%Z in
  let hi := (lo + p)%Z in
  let ok_lo := (to_double lo =? x)%Z in
  let ok_hi := (to_double hi =? x)%Z in
  if ok_lo && ok_hi then Some (if (x - lo <=? hi - x)%Z then lo else hi)
  else if ok_lo then Some lo
  else if ok_hi then Some hi
  else None.

Fixpoint shortest_from (x : Z) (k fuel : nat) : Z :=
  match fuel with
  | O => x
  | S fuel' =>
      match rounded x k with
      | Some y => y
      | None => shortest_from x (S k) fuel'
      end
  end.

(** The shortest decimal that reads back as the double [x]: seventeen
    significant digits always do. *)
Definition shortest (x : Z) : Z := shortest_from x 1 17.

Fixpoint strip_zeros (s : string) : string :=
  match s with
  | EmptyString => EmptyString
  | String c s' =>
      match strip_zeros s' with
      | EmptyString =>
          if Ascii.eqb c "0" then EmptyString else String c EmptyString
      | r => String c r
      end
  end.

(** [d.ddde+n], the form of a decimal of more than 21 digits. *)
Definition exponential (d : string) : string :=
  match d with
  | EmptyString => EmptyString
  | String c rest =>
      String c
        ((match strip_zeros rest with
          | EmptyString => EmptyString
          | r => String "." r
          end)
         ++ "e+" ++ digits (Z.of_nat (String.length rest)))
  end.

Definition large (x : Z) : string :=
  let d := digits (shortest x) in
  if (String.length d <=? 21)%nat then d else exponential d.

(** [n.toString()] and [`${n}`] for an integer-valued number: all its digits
    below 2^53; from there on the digits of the shortest decimal that reads
    back as the number, filled up with zeros, and in exponent form when that
    decimal has more than 21 digits. *)
Definition toString (n : Z) : string :=
  if (Z.abs n <? 9007199254740992)%Z then digits n
  else if (n <? 0)%Z then String "-" (large (- n)) else large n.

(** Truthiness of a string that may be [undefined]. *)
Definition truthy (s : option string) : bool :=
  match s with
  | Some (String _ _) => true
  | _ => false
  end.

(** [s || ""] *)
Definition or_empty (s : option string) : string :=
  match s with
  | Some v => v
  | None => EmptyString
  end.

(** [Math.round] of the quotient [n / d] of two integers, [d > 0]: the nearest
    integer, a tie going up. *)
Definition round_div (n d : Z) : Z := (2 * n + d) / (2 * d).

(** The scalar values a JSON document can put in a field, and [undefined] for
    a field that is absent.  Numbers are the integer-valued ones, as the
    double holds them. *)
Inductive value : Type :=
| Undefined
| Null
| Bool (b : bool)
| Num (n : Z)
| Str (s : string).

Definition value_truthy (v : value) : bool :=
  match v with
  | Undefined | Null => false
  | Bool b => b
  | Num n => negb (n =? 0)%Z
  | Str s => negb (s =? "")
  end.

(** [===], which on these values is also the SameValueZero of [Set]. *)
Definition value_eqb (a b : value) : bool :=
  match a, b with
  | Undefined, Undefined | Null, Null => true
  | Bool x, Bool y => Bool.eqb x y
  | Num x, Num y => (x =? y)%Z
  | Str x, Str y => (x =? y)
  | _, _ => false
  end.

(** String interpolation of a scalar, [`${v}`]. *)
Definition show (v : value) : string :=
  match v with
  | Undefined => "undefined"
  | Null => "null"
  | Bool true => "true"
  | Bool false => "false"
  | Num n => toString n
  | Str s => s
  end.

(** What a field of a parsed body holds: a scalar, a number that is not an
    integer, or a reference to an array or an object.  A number that is not
    an integer is given by the string that [Number::toString] makes of it,
    which determines it.  A reference is the identity of the object:
    [req.json()] builds its objects anew at every call, so that the objects
    of two requests lie at different addresses.  [shown] is the string that
    a template literal makes of the object, and [None] when the conversion
    throws a TypeError (an object whose property [toString] is not a
    function). *)
Inductive field : Type :=
| Scalar (v : value)
| Fraction (decimal : string)
| Ref (address : nat) (shown : option string).

(** A number that is not an integer is neither 0 nor NaN. *)
Definition field_truthy (f : field) : bool :=
  match f with
  | Scalar v => value_truthy v
  | Fraction _ | Ref _ _ => true
  end.

Definition shown_eqb (a b : option string) : bool :=
  match a, b with
  | Some x, Some y => x =? y
  | None, None => true
  | _, _ => false
  end.

(** [===] and the SameValueZero of [Set]: scalars and numbers by value,
    objects by identity. *)
Definition field_eqb (a b : field) : bool :=
  match a, b with
  | Scalar x, Scalar y => value_eqb x y
  | Fraction x, Fraction y => x =? y
  | Ref x s, Ref y t => (x =? y)%nat && shown_eqb s t
  | _, _ => false
  end.

(** [`${f}`]; [None] when it throws. *)
Definition template (f : field) : option string :=
  match f with
  | Scalar v => Some (show v)
  | Fraction decimal => Some decimal
  | Ref _ shown => shown
  end.

(** A [Set]: its elements in insertion order, without repetition. *)
Definition set := list field.

Definition has (s : set) (v : field) : bool := existsb (field_eqb v) s.

Definition add (s : set) (v : field) : set :=
  if has s v then s else (s ++ [v])%list.

Definition size (s : set) : nat := List.length s.

End JS.

(** A scalar where a field is expected is the field that holds it. *)
Coercion JS.Scalar : JS.value >-> JS.field.

(* ================================================================== *)
(** ** The runtime: wall clock and [Date]                              *)
(* ================================================================== *)

(** What the server asks of the JavaScript runtime.  [Date_now k] is the
    [k]-th reading of the wall clock since the process started, whether by
    [Date.now()] or by [new Date()]. *)
Record Runtime : Type := {
  Date_now : nat -> Z;
  (** [new Date(s).getTime()]; [None] is NaN. *)
  Date_parse : string -> option Z;
  (** [new Date(t).toISOString()], for a time value [t] that a [Date] can
      hold, at most 8.64e15 ms from the epoch.  The handlers apply it to
      readings of the clock; [groupForecastByDay], which applies it to the
      time stamps of a document, tests the range first. *)
  toISOString : Z -> string
}.

(** A computation that reads the clock: it is given the number of readings
    made so far and returns the number made once it is done. *)
Definition Clocked (A : Type) : Type := nat -> A * nat.

Definition ret {A} (a : A) : Clocked A := fun k => (a, k).

Definition bind {A B} (c : Clocked A) (f : A -> Clocked B) : Clocked B :=
  fun k => let (a, k') := c k in f a k'.

Notation "x <- c ;; f" := (bind c (fun x => f))
  (at level 61, c at next level, right associativity).

(** [Date.now()] *)
Definition now (rt : Runtime) : Clocked Z := fun k => (Date_now rt k, S k).

(** [new Date().toISOString().split("T")[0]] *)
Definition today (rt : Runtime) : Clocked string :=
  t <- now rt ;; ret (hd "" (JS.split "T" (toISOString rt t))).

(** A [for ... of] loop whose body reads the clock. *)
Fixpoint for_of {A S} (body : S -> A -> Clocked S) (l : list A) (s : S)
  : Clocked S :=
  match l with
  | [] => ret s
  | a :: l' => s' <- body s a ;; for_of body l' s'
  end.

(* ================================================================== *)
(** ** Data model                                                      *)
(* ================================================================== *)

Inductive DateType : Type := DATE | DATETIME.

(** The accumulator [currentEvent]: the object that collects the properties
    of one VEVENT block.  [dtstartType] and [dtendType] are written by
    [server-backup.ts] only. *)
Record RawEvent : Type := {
  summary : option string;
  dtstart : option string;
  dtend : option string;
  description : option string;
  location : option string;
  uid : option string;
  dtstartType : option DateType;
  dtendType : option DateType
}.

(** [{}] *)
Definition emptyRaw : RawEvent :=
  {| summary := None; dtstart := None; dtend := None; description := None;
     location := None; uid := None; dtstartType := None; dtendType := None |}.

(** An event as pushed by [parseICSData].  [priority] is always ["medium"].
    [isAllDay] is a field of the events of [server-backup.ts] only.
    [ev_description] and [ev_location] are the fields [description] and
    [location]. *)
Record Event : Type := {
  id : string;
  title : string;
  date : string;
  time : string;
  duration : string;
  ev_description : string;
  ev_location : string;
  priority : string;
  source : string;
  isAllDay : option bool
}.

(** State of the loop of [parseICSData]. *)
Record ParseState : Type := {
  events : list Event;
  currentEvent : option RawEvent
}.

Definition LF : ascii := ascii_of_nat 10.

(** [const [key, ...valueParts] = trimmedLine.split(":")] and
    [valueParts.join(":")] *)
Definition key_of (trimmedLine : string) : string :=
  hd "" (JS.split ":" trimmedLine).

Definition value_of (trimmedLine : string) : string :=
  JS.join ":" (tl (JS.split ":" trimmedLine)).

(* ================================================================== *)
(** ** Code shared by the two files                                    *)
(* ================================================================== *)

(** [formatICSDate], the same in both files. *)
Definition formatICSDate (rt : Runtime) (icsDate : option string)
  : Clocked string :=
  if negb (JS.truthy icsDate) then today rt
  else
    let s := JS.or_empty icsDate in
    if (String.length s =? 8)%nat then
      let year := JS.substring 0 4 s in
      let month := JS.substring 4 6 s in
      let day := JS.substring 6 8 s in
      ret (year ++ "-" ++ month ++ "-" ++ day)
    else if JS.includes "T" s then
      let datePart := hd "" (JS.split "T" s) in
      let year := JS.substring 0 4 datePart in
      let month := JS.substring 4 6 datePart in
      let day := JS.substring 6 8 datePart in
      ret (year ++ "-" ++ month ++ "-" ++ day)
    else today rt.

(** [endTime.getTime() - startTime.getTime()]; NaN when either is. *)
Definition diff_ms (startTime endTime : option Z) : option Z :=
  match startTime, endTime with
  | Some a, Some b => Some (b - a)%Z
  | _, _ => None
  end.

(** [`${n} unit${n !== 1 ? "s" : ""}`] *)
Definition plural (n : Z) (unit : string) : string :=
  JS.toString n ++ " " ++ unit ++ (if (n =? 1)%Z then "" else "s").

(* ================================================================== *)
(** ** [server.ts]                                                     *)
(* ================================================================== *)

Module Server.

Definition formatICSTime (icsDate : option string) : string :=
  if negb (JS.truthy icsDate) || negb (JS.includes "T" (JS.or_empty icsDate))
  then "00:00"
  else
    let timePart := nth_error (JS.split "T" (JS.or_empty icsDate)) 1 in
    if JS.truthy timePart && (4 <=? String.length (JS.or_empty timePart))%nat
    then
      let hours := JS.substring 0 2 (JS.or_empty timePart) in
      let minutes := JS.substring 2 4 (JS.or_empty timePart) in
      hours ++ ":" ++ minutes
    else "00:00".

Definition calculateDuration (rt : Runtime) (start end_ : option string)
  : string :=
  if negb (JS.truthy start) || negb (JS.truthy end_) then "1 hour"
  else
    let startTime :=
      Date_parse rt (JS.replace_re JS.match_datetime (JS.or_empty start)) in
    let endTime :=
      Date_parse rt (JS.replace_re JS.match_datetime (JS.or_empty end_)) in
    match diff_ms startTime endTime with
    | None => "1 hour"
    | Some diffMs =>
        let diffHours := JS.round_div diffMs (1000 * 60 * 60) in
        if (0 <? diffHours)%Z then plural diffHours "hour" else "1 hour"
    end.

(** The object literal pushed at [END:VEVENT]. *)
Definition makeEvent (rt : Runtime) (sourceName : string) (cur : RawEvent)
  : Clocked Event :=
  i <- (if JS.truthy (uid cur) then ret (JS.or_empty (uid cur))
        else t <- now rt ;; ret (JS.toString t)) ;;
  d <- formatICSDate rt (dtstart cur) ;;
  ret {| id := i;
         title := JS.or_empty (summary cur);
         date := d;
         time := formatICSTime (dtstart cur);
         duration := calculateDuration rt (dtstart cur) (dtend cur);
         ev_description := JS.or_empty (description cur);
         ev_location := JS.or_empty (location cur);
         priority := "medium";
         source := sourceName;
         isAllDay := None |}.

(** The [switch (key)] of the parser. *)
Definition setProperty (cur : RawEvent) (key value : string) : RawEvent :=
  if key =? "SUMMARY" then
    {| summary := Some value; dtstart := dtstart cur; dtend := dtend cur;
       description := description cur; location := location cur;
       uid := uid cur; dtstartType := dtstartType cur;
       dtendType := dtendType cur |}
  else if (key =? "DTSTART") || (key =? "DTSTART;VALUE=DATE") then
    {| summary := summary cur; dtstart := Some value; dtend := dtend cur;
       description := description cur; location := location cur;
       uid := uid cur; dtstartType := dtstartType cur;
       dtendType := dtendType cur |}
  else if (key =? "DTEND") || (key =? "DTEND;VALUE=DATE") then
    {| summary := summary cur; dtstart := dtstart cur; dtend := Some value;
       description := description cur; location := location cur;
       uid := uid cur; dtstartType := dtstartType cur;
       dtendType := dtendType cur |}
  else if key =? "DESCRIPTION" then
    {| summary := summary cur; dtstart := dtstart cur; dtend := dtend cur;
       description := Some value; location := location cur;
       uid := uid cur; dtstartType := dtstartType cur;
       dtendType := dtendType cur |}
  else if key =? "LOCATION" then
    {| summary := summary cur; dtstart := dtstart cur; dtend := dtend cur;
       description := description cur; location := Some value;
       uid := uid cur; dtstartType := dtstartType cur;
       dtendType := dtendType cur |}
  else if key =? "UID" then
    {| summary := summary cur; dtstart := dtstart cur; dtend := dtend cur;
       description := description cur; location := location cur;
       uid := Some value; dtstartType := dtstartType cur;
       dtendType := dtendType cur |}
  else cur.

(** One turn of the loop over the lines.  The second and the third branch of
    the source both test [currentEvent], which is matched once here. *)
Definition parseLine (rt : Runtime) (sourceName : string) (st : ParseState)
  (line : string) : Clocked ParseState :=
  let trimmedLine := JS.trim line in
  if trimmedLine =? "BEGIN:VEVENT" then
    ret {| events := events st; currentEvent := Some emptyRaw |}
  else
    match currentEvent st with
    | Some cur =>
        if trimmedLine =? "END:VEVENT" then
          if JS.truthy (summary cur) && JS.truthy (dtstart cur) then
            e <- makeEvent rt sourceName cur ;;
            ret {| events := events st ++ [e]; currentEvent := None |}
          else ret {| events := events st; currentEvent := None |}
        else if JS.includes ":" trimmedLine then
          ret {| events := events st;
                 currentEvent :=
                   Some (setProperty cur (key_of trimmedLine)
                           (value_of trimmedLine)) |}
        else ret st
    | None => ret st
    end.

Definition parseICSData (rt : Runtime) (icsData sourceName : string)
  : Clocked (list Event) :=
  let lines := JS.split LF icsData in
  st <- for_of (parseLine rt sourceName) lines
          {| events := []; currentEvent := None |} ;;
  ret (events st).

End Server.

(* ================================================================== *)
(** ** [server-backup.ts]                                              *)
(* ================================================================== *)

Module ServerBackup.

Definition formatICSTime (icsDate : option string) : string :=
  if negb (JS.truthy icsDate) then "00:00"
  else
    let cleanDate := JS.replace "Z" "" (JS.or_empty icsDate) in
    if negb (JS.includes "T" cleanDate) then "00:00"
    else
      let timePart := nth_error (JS.split "T" cleanDate) 1 in
      if JS.truthy timePart
         && (4 <=? String.length (JS.or_empty timePart))%nat
      then
        let hours := JS.substring 0 2 (JS.or_empty timePart) in
        let minutes := JS.substring 2 4 (JS.or_empty timePart) in
        hours ++ ":" ++ minutes
      else "00:00".

(** [new Date(...)] of a token: the date-time pattern is rewritten when the
    token holds a ["T"], the date pattern when it does not. *)
Definition instant (rt : Runtime) (token : string) : option Z :=
  if JS.includes "T" token
  then Date_parse rt (JS.replace_re JS.match_datetime token)
  else Date_parse rt (JS.replace_re JS.match_date token).

Definition calculateDuration (rt : Runtime) (start end_ : option string)
  (isAllDay : bool) : string :=
  if negb (JS.truthy start) then (if isAllDay then "All day" else "1 hour")
  else if negb (JS.truthy end_) then (if isAllDay then "All day" else "1 hour")
  else if isAllDay then "All day"
  else
    let startTime := instant rt (JS.or_empty start) in
    let endTime := instant rt (JS.or_empty end_) in
    match diff_ms startTime endTime with
    | None => "1 hour"
    | Some diffMs =>
        if (diffMs <=? 0)%Z then "1 hour"
        else
          let diffDays := (diffMs / (1000 * 60 * 60 * 24))%Z in
          if (0 <? diffDays)%Z then plural diffDays "day"
          else
            let diffHours := JS.round_div diffMs (1000 * 60 * 60) in
            let diffMinutes := JS.round_div diffMs (1000 * 60) in
            if (0 <? diffHours)%Z then plural diffHours "hour"
            else if (0 <? diffMinutes)%Z then plural diffMinutes "minute"
            else "1 hour"
    end.

(** [currentEvent.dtstartType === "DATE" ||
     (!currentEvent.dtstart.includes("T") &&
      currentEvent.dtstart.length === 8)] *)
Definition allDay (cur : RawEvent) : bool :=
  match dtstartType cur with
  | Some DATE => true
  | _ =>
      negb (JS.includes "T" (JS.or_empty (dtstart cur)))
      && (String.length (JS.or_empty (dtstart cur)) =? 8)%nat
  end.

(** The object literal pushed at [END:VEVENT]. *)
Definition makeEvent (rt : Runtime) (sourceName : string) (cur : RawEvent)
  : Clocked Event :=
  let isAllDay := allDay cur in
  i <- (if JS.truthy (uid cur) then ret (JS.or_empty (uid cur))
        else t <- now rt ;; ret (JS.toString t)) ;;
  d <- formatICSDate rt (dtstart cur) ;;
  ret {| id := i;
         title := JS.or_empty (summary cur);
         date := d;
         time := if isAllDay then "All day" else formatICSTime (dtstart cur);
         duration :=
           calculateDuration rt (dtstart cur) (dtend cur) isAllDay;
         ev_description := JS.or_empty (description cur);
         ev_location := JS.or_empty (location cur);
         priority := "medium";
         source := sourceName;
         isAllDay := Some isAllDay |}.

(** The [switch (key)] of the parser. *)
Definition setProperty (cur : RawEvent) (key value : string) : RawEvent :=
  if key =? "SUMMARY" then
    {| summary := Some value; dtstart := dtstart cur; dtend := dtend cur;
       description := description cur; location := location cur;
       uid := uid cur; dtstartType := dtstartType cur;
       dtendType := dtendType cur |}
  else if key =? "DTSTART" then
    {| summary := summary cur; dtstart := Some value; dtend := dtend cur;
       description := description cur; location := location cur;
       uid := uid cur; dtstartType := Some DATETIME;
       dtendType := dtendType cur |}
  else if key =? "DTSTART;VALUE=DATE" then
    {| summary := summary cur; dtstart := Some value; dtend := dtend cur;
       description := description cur; location := location cur;
       uid := uid cur; dtstartType := Some DATE;
       dtendType := dtendType cur |}
  else if key =? "DTEND" then
    {| summary := summary cur; dtstart := dtstart cur; dtend := Some value;
       description := description cur; location := location cur;
       uid := uid cur; dtstartType := dtstartType cur;
       dtendType := Some DATETIME |}
  else if key =? "DTEND;VALUE=DATE" then
    {| summary := summary cur; dtstart := dtstart cur; dtend := Some value;
       description := description cur; location := location cur;
       uid := uid cur; dtstartType := dtstartType cur;
       dtendType := Some DATE |}
  else if key =? "DESCRIPTION" then
    {| summary := summary cur; dtstart := dtstart cur; dtend := dtend cur;
       description := Some value; location := location cur;
       uid := uid cur; dtstartType := dtstartType cur;
       dtendType := dtendType cur |}
  else if key =? "LOCATION" then
    {| summary := summary cur; dtstart := dtstart cur; dtend := dtend cur;
       description := description cur; location := Some value;
       uid := uid cur; dtstartType := dtstartType cur;
       dtendType := dtendType cur |}
  else if key =? "UID" then
    {| summary := summary cur; dtstart := dtstart cur; dtend := dtend cur;
       description := description cur; location := location cur;
       uid := Some value; dtstartType := dtstartType cur;
       dtendType := dtendType cur |}
  else cur.

(** One turn of the loop over the lines.  The second and the third branch of
    the source both test [currentEvent], which is matched once here. *)
Definition parseLine (rt : Runtime) (sourceName : string) (st : ParseState)
  (line : string) : Clocked ParseState :=
  let trimmedLine := JS.trim line in
  if trimmedLine =? "BEGIN:VEVENT" then
    ret {| events := events st; currentEvent := Some emptyRaw |}
  else
    match currentEvent st with
    | Some cur =>
        if trimmedLine =? "END:VEVENT" then
          if JS.truthy (summary cur) && JS.truthy (dtstart cur) then
            e <- makeEvent rt sourceName cur ;;
            ret {| events := events st ++ [e]; currentEvent := None |}
          else ret {| events := events st; currentEvent := None |}
        else if JS.includes ":" trimmedLine then
          ret {| events := events st;
                 currentEvent :=
                   Some (setProperty cur (key_of trimmedLine)
                           (value_of trimmedLine)) |}
        else ret st
    | None => ret st
    end.

Definition parseICSData (rt : Runtime) (icsData sourceName : string)
  : Clocked (list Event) :=
  let lines := JS.split LF icsData in
  st <- for_of (parseLine rt sourceName) lines
          {| events := []; currentEvent := None |} ;;
  ret (events st).

End ServerBackup.

(* ================================================================== *)
(** ** Process state, configuration and network                        *)
(* ================================================================== *)

(** The [env] object, after its defaults: the fields the handlers read. *)
Record Env : Type := {
  TODOIST_CALENDAR_URL : string;
  APPLE_CALENDAR_URL : string;
  UK_HOLIDAYS_CALENDAR_URL : string;
  OPENWEATHER_API_KEY : string
}.

(** Payload of the weather provider: the two fields the handler looks at, and
    the rest of the document. *)
Record WeatherData : Type := {
  message : JS.value;
  (** truthiness of [data.current] *)
  current : bool;
  fields : string
}.

(** [interface WeatherCache]; [data] is [None] for a JSON [null]. *)
Record WeatherCache : Type := {
  data : option WeatherData;
  timestamp : Z
}.

(** The module-level variables. *)
Record Store : Type := {
  weatherCache : option WeatherCache;
  completedEvents : JS.set;
  dismissedEvents : JS.set
}.

Definition initialStore : Store :=
  {| weatherCache := None; completedEvents := []; dismissedEvents := [] |}.

(** [30 * 60 * 1000] *)
Definition WEATHER_CACHE_DURATION : Z := 30 * 60 * 1000.

(** Outcome of [fetch(url)] followed by [response.text()]. *)
Inductive FetchResult : Type :=
| NetworkError
| Response (ok : bool) (text : option string).

(** The network as the calendar handler sees it: the outcome of its [n]-th
    request (counted from 0 within one call of the handler) to a URL. *)
Definition Network : Type := nat -> string -> FetchResult.

(* ================================================================== *)
(** ** [handleEventAction] (the same in both files)                    *)
(* ================================================================== *)

(** The object that [await req.json()] returns, seen through
    [const { eventId, action, source } = body]: a field that the body does
    not have is [JS.Scalar JS.Undefined].  [body_source] is the field
    [source]. *)
Record ActionBody : Type := {
  eventId : JS.field;
  action : JS.field;
  body_source : JS.field
}.

(** [body] is [None] when [req.json()] throws, or returns [null] so that
    the destructuring throws: both end in the [catch]. *)
Record ActionRequest : Type := {
  method : string;
  body : option ActionBody
}.

Inductive ActionResponse : Type :=
| ActionError (status : nat) (error : string)
| ActionSuccess (eventId action : JS.field) (message : string).

Definition action_status (r : ActionResponse) : nat :=
  match r with
  | ActionError s _ => s
  | ActionSuccess _ _ _ => 200
  end.

(** The log line [`${action} event: ${eventId} from ${source}`]: [None]
    when converting one of the three fields throws. *)
Definition logLine (b : ActionBody) : option string :=
  match JS.template (action b), JS.template (eventId b),
        JS.template (body_source b) with
  | Some a, Some i, Some s => Some (a ++ " event: " ++ i ++ " from " ++ s)
  | _, _, _ => None
  end.

(** Every exception of the [try] block ends in the [catch] and its 500. *)
Definition handleEventAction (st : Store) (req : ActionRequest)
  : ActionResponse * Store :=
  if negb (method req =? "POST") then (ActionError 405 "Method not allowed", st)
  else
    match body req with
    | None => (ActionError 500 "Failed to process event action", st)
    | Some b =>
        if negb (JS.field_truthy (eventId b))
           || negb (JS.field_truthy (action b))
        then (ActionError 400 "Event ID and action required", st)
        else
          match logLine b with
          | None => (ActionError 500 "Failed to process event action", st)
          | Some _ =>
              if JS.field_eqb (action b) (JS.Scalar (JS.Str "complete")) then
                (ActionSuccess (eventId b) (action b)
                   ("Event " ++ JS.or_empty (JS.template (action b))
                      ++ "d successfully"),
                 {| weatherCache := weatherCache st;
                    completedEvents := JS.add (completedEvents st) (eventId b);
                    dismissedEvents := dismissedEvents st |})
              else if JS.field_eqb (action b) (JS.Scalar (JS.Str "dismiss"))
              then
                (ActionSuccess (eventId b) (action b)
                   ("Event " ++ JS.or_empty (JS.template (action b))
                      ++ "d successfully"),
                 {| weatherCache := weatherCache st;
                    completedEvents := completedEvents st;
                    dismissedEvents :=
                      JS.add (dismissedEvents st) (eventId b) |})
              else (ActionError 400 "Invalid action", st)
          end
    end.

(* ================================================================== *)
(** ** [handleAppleCalendar] (the same in both files)                  *)
(* ================================================================== *)

Record CalendarSource : Type := {
  name : string;
  url : string
}.

Definition calendarSources (env : Env) : list CalendarSource :=
  [ {| name := "Todoist"; url := TODOIST_CALENDAR_URL env |};
    {| name := "Apple Calendar"; url := APPLE_CALENDAR_URL env |};
    {| name := "UK Holidays"; url := UK_HOLIDAYS_CALENDAR_URL env |} ].

(** [!s.url || s.url.includes("your_") || s.url.includes("_here")] *)
Definition notConfigured (u : string) : bool :=
  (u =? "") || JS.includes "your_" u || JS.includes "_here" u.

(** The signature of [parseICSData]. *)
Definition Parser : Type := Runtime -> string -> string -> Clocked (list Event).

(** State of the loop over the sources: the array [allEvents] and the number
    of requests sent so far. *)
Record FetchState : Type := {
  allEvents : list Event;
  requests : nat
}.

(** One turn of the loop over the sources.  Every way the [try] block can
    throw ends in the same [catch], which logs and goes on. *)
Definition fetchSource (parse : Parser) (rt : Runtime) (net : Network)
  (st : FetchState) (src : CalendarSource) : Clocked FetchState :=
  if notConfigured (url src) then ret st
  else
    let calendarUrl := JS.replace "webcal://" "https://" (url src) in
    let caught :=
      {| allEvents := allEvents st; requests := S (requests st) |} in
    match net (requests st) calendarUrl with
    | NetworkError => ret caught
    | Response false _ => ret caught
    | Response true None => ret caught
    | Response true (Some icsData) =>
        evs <- parse rt icsData (name src) ;;
        ret {| allEvents := allEvents st ++ evs;
               requests := S (requests st) |}
    end.

(** The loop [for (const source of calendarSources)]. *)
Definition fetchAll (parse : Parser) (rt : Runtime) (env : Env)
  (net : Network) : Clocked FetchState :=
  for_of (fetchSource parse rt net) (calendarSources env)
    {| allEvents := []; requests := 0 |}.

(** The predicate of [allEvents.filter]. *)
Definition notActioned (st : Store) (e : Event) : bool :=
  negb (JS.has (completedEvents st) (JS.Scalar (JS.Str (id e))))
  && negb (JS.has (dismissedEvents st) (JS.Scalar (JS.Str (id e)))).

(** The comparator [new Date(a.date).getTime() - new Date(b.date).getTime()];
    [None] is NaN. *)
Definition compareDates (rt : Runtime) (a b : Event) : option Z :=
  diff_ms (Date_parse rt (date b)) (Date_parse rt (date a)).

(** [Array.prototype.sort]: a stable sort; a comparator result of NaN counts
    as 0.  The language fixes the order of the result for a consistent
    comparator, which the comparator of the aggregation is on events whose
    dates are valid; there, and when no comparison is positive so that no
    element is moved, the result is that of the stable insertion sort below.
    With valid and invalid dates mixed the order is the engine's own, and
    the model gives the elements of the result only. *)
Definition before {A} (cmp : A -> A -> option Z) (a b : A) : bool :=
  match cmp a b with
  | Some v => (v <=? 0)%Z
  | None => true
  end.

Fixpoint insert {A} (cmp : A -> A -> option Z) (x : A) (l : list A) : list A :=
  match l with
  | [] => [x]
  | y :: l' => if before cmp x y then x :: l else y :: insert cmp x l'
  end.

Fixpoint sort {A} (cmp : A -> A -> option Z) (l : list A) : list A :=
  match l with
  | [] => []
  | x :: l' => insert cmp x (sort cmp l')
  end.

(** The body of the 200 response; [resp_events] is its field [events]. *)
Record CalendarResponse : Type := {
  resp_events : list Event;
  total_events : nat;
  filtered_events : nat;
  completed_count : nat;
  dismissed_count : nat;
  sources : list (string * bool)
}.

(** Nothing outside the inner [try] can throw, so the outer [catch] and its
    500 response are never reached. *)
Definition handleAppleCalendar (parse : Parser) (rt : Runtime) (env : Env)
  (net : Network) (st : Store) : Clocked CalendarResponse :=
  fs <- fetchAll parse rt env net ;;
  let filteredEvents := filter (notActioned st) (allEvents fs) in
  let sorted := sort (compareDates rt) filteredEvents in
  ret {| resp_events := sorted;
         total_events := List.length (allEvents fs);
         filtered_events := List.length sorted;
         completed_count := JS.size (completedEvents st);
         dismissed_count := JS.size (dismissedEvents st);
         sources :=
           map (fun s => (name s, negb (notConfigured (url s))))
             (calendarSources env) |}.

(* ================================================================== *)
(** ** [handleWeather] (the same in both files)                        *)
(* ================================================================== *)

Inductive Endpoint : Type := OneCall30 | Weather25.

(** [await response.json()] *)
Inductive Json : Type :=
| JsonThrows
| JsonNull
| JsonObject (d : WeatherData).

(** Outcome of [fetch] on a weather endpoint. *)
Inductive Upstream : Type :=
| FetchFails
| Reply (ok : bool) (statusText : string) (json : Json).

Inductive WeatherResponse : Type :=
| WeatherNotConfigured
| WeatherCached (d : option WeatherData) (cache_age_minutes : Z)
| WeatherFresh (d : WeatherData) (fetch_time : string) (api_version : string)
| WeatherFailed.

Definition weather_status (r : WeatherResponse) : nat :=
  match r with
  | WeatherNotConfigured => 400
  | WeatherCached _ _ | WeatherFresh _ _ _ => 200
  | WeatherFailed => 500
  end.

(** [cached] field of a 200 response. *)
Definition cached (r : WeatherResponse) : option bool :=
  match r with
  | WeatherCached _ _ => Some true
  | WeatherFresh _ _ _ => Some false
  | _ => None
  end.

(** [!response.ok && data.message && (data.message.includes("One Call 3.0")
     || data.message.includes("One Call by Call"))]; [None] when evaluating
    it throws a TypeError. *)
Definition wantsFallback (ok : bool) (d : option WeatherData) : option bool :=
  if ok then Some false
  else
    match d with
    | None => None
    | Some w =>
        match message w with
        | JS.Str s =>
            if s =? "" then Some false
            else Some (JS.includes "One Call 3.0" s
                       || JS.includes "One Call by Call" s)
        | v => if JS.value_truthy v then None else Some false
        end
    end.

(** The statements after the fallback: test [response.ok], write the cache,
    build the response. *)
Definition finishWeather (rt : Runtime) (st : Store) (now_ : Z) (ok : bool)
  (d : option WeatherData) : Clocked (WeatherResponse * Store) :=
  if negb ok then ret (WeatherFailed, st)
  else
    let st' := {| weatherCache := Some {| data := d; timestamp := now_ |};
                  completedEvents := completedEvents st;
                  dismissedEvents := dismissedEvents st |} in
    t <- now rt ;;
    match d with
    | None => ret (WeatherFailed, st')
    | Some w =>
        ret (WeatherFresh w (toISOString rt t)
               (if current w then "3.0" else "2.5"), st')
    end.

Definition json_data (j : Json) : option (option WeatherData) :=
  match j with
  | JsonThrows => None
  | JsonNull => Some None
  | JsonObject d => Some (Some d)
  end.

(** The [try] block of [handleWeather]; the list is the endpoints contacted,
    in order. *)
Definition fetchWeather (rt : Runtime) (upstream : Endpoint -> Upstream)
  (st : Store) (now_ : Z) : Clocked (WeatherResponse * Store * list Endpoint) :=
  match upstream OneCall30 with
  | FetchFails => ret (WeatherFailed, st, [OneCall30])
  | Reply ok _ j =>
      match json_data j with
      | None => ret (WeatherFailed, st, [OneCall30])
      | Some d =>
          match wantsFallback ok d with
          | None => ret (WeatherFailed, st, [OneCall30])
          | Some false =>
              r <- finishWeather rt st now_ ok d ;;
              ret (r, [OneCall30])
          | Some true =>
              match upstream Weather25 with
              | FetchFails => ret (WeatherFailed, st, [OneCall30; Weather25])
              | Reply ok2 _ j2 =>
                  match json_data j2 with
                  | None => ret (WeatherFailed, st, [OneCall30; Weather25])
                  | Some d2 =>
                      r <- finishWeather rt st now_ ok2 d2 ;;
                      ret (r, [OneCall30; Weather25])
                  end
              end
          end
      end
  end.

Definition handleWeather (rt : Runtime) (env : Env)
  (upstream : Endpoint -> Upstream) (st : Store)
  : Clocked (WeatherResponse * Store * list Endpoint) :=
  if (OPENWEATHER_API_KEY env =? "")
     || (OPENWEATHER_API_KEY env =? "your_openweather_api_key_here")
  then ret (WeatherNotConfigured, st, [])
  else
    now_ <- now rt ;;
    match weatherCache st with
    | Some c =>
        if (now_ - timestamp c <? WEATHER_CACHE_DURATION)%Z then
          ret (WeatherCached (data c)
                 (JS.round_div (now_ - timestamp c) 60000), st, [])
        else fetchWeather rt upstream st now_
    | None => fetchWeather rt upstream st now_
    end.

(* ================================================================== *)
(** ** A reference runtime: the ISO 8601 subset of ECMAScript [Date]   *)
(* ================================================================== *)

Module Ref.

Open Scope Z_scope.

Definition msPerDay : Z := 86400000.

(** Days from 1970-01-01 to the civil date [y]-[m]-[d] (proleptic
    Gregorian calendar). *)
Definition days_from_civil (y m d : Z) : Z :=
  let y' := if m <=? 2 then y - 1 else y in
  let era := y' / 400 in
  let yoe := y' - era * 400 in
  let doy := (153 * (if 2 <? m then m - 3 else m + 9) + 2) / 5 + d - 1 in
  let doe := yoe * 365 + yoe / 4 - yoe / 100 + doy in
  era * 146097 + doe - 719468.

(** The civil date of a day number. *)
Definition civil_from_days (z : Z) : Z * Z * Z :=
  let z := z + 719468 in
  let era := z / 146097 in
  let doe := z - era * 146097 in
  let yoe := (doe - doe / 1460 + doe / 36524 - doe / 146096) / 365 in
  let doy := doe - (365 * yoe + yoe / 4 - yoe / 100) in
  let mp := (5 * doy + 2) / 153 in
  let d := doy - (153 * mp + 2) / 5 + 1 in
  let m := if mp <? 10 then mp + 3 else mp - 9 in
  (yoe + era * 400 + (if m <=? 2 then 1 else 0), m, d).

Definition leap (y : Z) : bool :=
  ((y mod 4 =? 0) && negb (y mod 100 =? 0)) || (y mod 400 =? 0).

Definition days_in_month (y m : Z) : Z :=
  if m =? 2 then (if leap y then 29 else 28)
  else if (m =? 4) || (m =? 6) || (m =? 9) || (m =? 11) then 30
  else 31.

(** Value of a string of decimal digits; [None] if another character
    occurs. *)
Fixpoint digits (acc : Z) (s : string) : option Z :=
  match s with
  | EmptyString => Some acc
  | String c s' =>
      if JS.is_digit c
      then digits (10 * acc + Z.of_nat (nat_of_ascii c) - 48) s'
      else None
  end.

Definition number (s : string) : option Z :=
  match s with
  | EmptyString => None
  | _ => digits 0 s
  end.

(** ["YYYY-MM-DD"] to a day number. *)
Definition parse_day (s : string) : option Z :=
  match number (String.substring 0 4 s), number (String.substring 5 2 s),
        number (String.substring 8 2 s) with
  | Some y, Some m, Some d =>
      if (String.length s =? 10)%nat
         && (String.substring 4 1 s =? "-")%string
         && (String.substring 7 1 s =? "-")%string
         && (1 <=? m) && (m <=? 12) && (1 <=? d) && (d <=? days_in_month y m)
      then Some (days_from_civil y m d)
      else None
  | _, _, _ => None
  end.

(** ["HH:MM:SS"] to milliseconds within the day. *)
Definition parse_clock (s : string) : option Z :=
  match number (String.substring 0 2 s), number (String.substring 3 2 s),
        number (String.substring 6 2 s) with
  | Some h, Some mi, Some se =>
      if (String.length s =? 8)%nat
         && (String.substring 2 1 s =? ":")%string
         && (String.substring 5 1 s =? ":")%string
         && (h <=? 23) && (mi <=? 59) && (se <=? 59)
      then Some (((h * 60 + mi) * 60 + se) * 1000)
      else None
  | _, _, _ => None
  end.

(** The instant of an ISO 8601 string, for the three shapes
    ["YYYY-MM-DD"] (UTC), ["YYYY-MM-DDTHH:MM:SS"] (local time) and
    ["YYYY-MM-DDTHH:MM:SSZ"] (UTC).  [tza] gives the offset of local time
    from UTC, in milliseconds, at a local time. *)
Definition iso_instant (tza : Z -> Z) (s : string) : option Z :=
  match parse_day (String.substring 0 10 s) with
  | None => None
  | Some day =>
      if (String.length s =? 10)%nat then Some (day * msPerDay)
      else if (String.substring 10 1 s =? "T")%string then
        match parse_clock (String.substring 11 8 s) with
        | None => None
        | Some ms =>
            let t := day * msPerDay + ms in
            if (String.length s =? 19)%nat then Some (t - tza t)
            else if (JS.drop 19 s =? "Z")%string then Some t
            else None
        end
      else None
  end.

(** A runtime follows ECMAScript on the ISO shapes above. *)
Definition conforms (tza : Z -> Z) (rt : Runtime) : Prop :=
  forall s t, iso_instant tza s = Some t -> Date_parse rt s = Some t.

Fixpoint zeros (n : nat) : string :=
  match n with
  | O => EmptyString
  | S n' => String "0" (zeros n')
  end.

(** [s.padStart(width, "0")] *)
Definition pad (width : nat) (s : string) : string :=
  (zeros (width - String.length s) ++ s)%string.

(** [toISOString] for the years 0 to 9999. *)
Definition iso_string (t : Z) : string :=
  let '(y, m, d) := civil_from_days (t / msPerDay) in
  let ms := t mod msPerDay in
  (pad 4 (JS.toString y) ++ "-" ++ pad 2 (JS.toString m) ++ "-"
   ++ pad 2 (JS.toString d) ++ "T"
   ++ pad 2 (JS.toString (ms / 3600000)) ++ ":"
   ++ pad 2 (JS.toString (ms / 60000 mod 60)) ++ ":"
   ++ pad 2 (JS.toString (ms / 1000 mod 60)) ++ "."
   ++ pad 3 (JS.toString (ms mod 1000)) ++ "Z")%string.

(** The reference runtime, in the UTC time zone, on a given sequence of clock
    readings. *)
Definition runtime (clock : nat -> Z) : Runtime :=
  {| Date_now := clock;
     Date_parse := iso_instant (fun _ => 0);
     toISOString := iso_string |}.

End Ref.

(* ================================================================== *)
(** ** Vocabulary of the statements                                    *)
(* ================================================================== *)

(** The two variants of the server. *)
Inductive Version : Type := Current | Backup.

Definition parseICSData_of (v : Version) : Parser :=
  match v with
  | Current => Server.parseICSData
  | Backup => ServerBackup.parseICSData
  end.

Definition parseLine_of (v : Version)
  : Runtime -> string -> ParseState -> string -> Clocked ParseState :=
  match v with
  | Current => Server.parseLine
  | Backup => ServerBackup.parseLine
  end.

(** The loop body of both parsers, over the two functions in which they
    differ. *)
Definition parseLineWith
  (make : Runtime -> string -> RawEvent -> Clocked Event)
  (setp : RawEvent -> string -> string -> RawEvent)
  (rt : Runtime) (sourceName : string) (st : ParseState) (line : string)
  : Clocked ParseState :=
  let trimmedLine := JS.trim line in
  if trimmedLine =? "BEGIN:VEVENT" then
    ret {| events := events st; currentEvent := Some emptyRaw |}
  else
    match currentEvent st with
    | Some cur =>
        if trimmedLine =? "END:VEVENT" then
          if JS.truthy (summary cur) && JS.truthy (dtstart cur) then
            e <- make rt sourceName cur ;;
            ret {| events := events st ++ [e]; currentEvent := None |}
          else ret {| events := events st; currentEvent := None |}
        else if JS.includes ":" trimmedLine then
          ret {| events := events st;
                 currentEvent :=
                   Some (setp cur (key_of trimmedLine)
                           (value_of trimmedLine)) |}
        else ret st
    | None => ret st
    end.

Definition makeEvent_of (v : Version) :=
  match v with
  | Current => Server.makeEvent
  | Backup => ServerBackup.makeEvent
  end.

Definition setProperty_of (v : Version) :=
  match v with
  | Current => Server.setProperty
  | Backup => ServerBackup.setProperty
  end.

(** A line that opens, or closes, a VEVENT block. *)
Definition opens (line : string) : bool := JS.trim line =? "BEGIN:VEVENT".
Definition closes (line : string) : bool := JS.trim line =? "END:VEVENT".

(** The lines between the opening and the closing line of a block. *)
Definition inner (body : list string) : Prop :=
  Forall (fun l => opens l = false /\ closes l = false) body.

(** The value that the lines of a block give to a property: the value of the
    last line whose name, the text before its first colon, is one of
    [names]. *)
Fixpoint supplied (names : list string) (body : list string) : option string :=
  match body with
  | [] => None
  | l :: rest =>
      match supplied names rest with
      | Some v => Some v
      | None =>
          if JS.includes ":" (JS.trim l)
             && existsb (String.eqb (key_of (JS.trim l))) names
          then Some (value_of (JS.trim l))
          else None
      end
  end.

Definition SUMMARY : list string := ["SUMMARY"].
Definition DTSTART : list string := ["DTSTART"; "DTSTART;VALUE=DATE"].
Definition DTEND : list string := ["DTEND"; "DTEND;VALUE=DATE"].
Definition UID : list string := ["UID"].

(** The name of the last line of a block that gives the start. *)
Fixpoint startName (body : list string) : option string :=
  match body with
  | [] => None
  | l :: rest =>
      match startName rest with
      | Some n => Some n
      | None =>
          if JS.includes ":" (JS.trim l)
             && existsb (String.eqb (key_of (JS.trim l))) DTSTART
          then Some (key_of (JS.trim l))
          else None
      end
  end.

(** The start of the block is given as a date: its last start line is
    named [DTSTART;VALUE=DATE]. *)
Definition startsAsDate (body : list string) : bool :=
  match startName body with
  | Some n => n =? "DTSTART;VALUE=DATE"
  | None => false
  end.

(** What a line does to the accumulator inside a block. *)
Definition setLine (setp : RawEvent -> string -> string -> RawEvent)
  (cur : RawEvent) (line : string) : RawEvent :=
  if JS.includes ":" (JS.trim line)
  then setp cur (key_of (JS.trim line)) (value_of (JS.trim line))
  else cur.

(** The accumulator at the closing line of a block. *)
Definition collected (v : Version) (body : list string) : RawEvent :=
  fold_left (setLine (setProperty_of v)) body emptyRaw.

(** [setp] writes the field [g] on the names [names], and on no other. *)
Definition writes (setp : RawEvent -> string -> string -> RawEvent)
  (g : RawEvent -> option string) (names : list string) : Prop :=
  forall cur key value,
    g (setp cur key value)
    = if existsb (String.eqb key) names then Some value else g cur.

(** No line feed in a string. *)
Fixpoint one_line (s : string) : bool :=
  match s with
  | EmptyString => true
  | String c s' => negb (Ascii.eqb c LF) && one_line s'
  end.

(** The time that a block gives to its event: [server-backup.ts] looks at
    the name of the start line and at the shape of the token first. *)
Definition timeOfBlock (v : Version) (body : list string) : string :=
  match v with
  | Current => Server.formatICSTime (supplied DTSTART body)
  | Backup =>
      if startsAsDate body
         || (negb (JS.includes "T" (JS.or_empty (supplied DTSTART body)))
             && (String.length (JS.or_empty (supplied DTSTART body)) =? 8)%nat)
      then "All day"
      else ServerBackup.formatICSTime (supplied DTSTART body)
  end.

(** The text whose lines are [lines]. *)
Definition unlines (lines : list string) : string :=
  JS.join (String LF EmptyString) lines.

(** No white space at the end of a string. *)
Definition no_trailing_space (s : string) : Prop := JS.trimEnd s = s.

(** The instant by which the aggregation orders an event. *)
Definition instantOf (rt : Runtime) (e : Event) : Z :=
  match Date_parse rt (date e) with
  | Some t => t
  | None => 0
  end.

(** The date of an event is a valid one for the runtime. *)
Definition dated (rt : Runtime) (e : Event) : Prop :=
  Date_parse rt (date e) <> None.

(** The comparator cannot tell two events apart: its result is NaN or 0. *)
Definition tied (rt : Runtime) (a b : Event) : Prop :=
  compareDates rt a b = None \/ compareDates rt a b = Some 0%Z.

(** The id of an event is in one of the two action sets. *)
Definition actioned (st : Store) (e : Event) : bool :=
  JS.has (completedEvents st) (JS.Scalar (JS.Str (id e)))
  || JS.has (dismissedEvents st) (JS.Scalar (JS.Str (id e))).

Definition value_eq_dec (a b : JS.value) : {a = b} + {a <> b}.
Proof.
  decide equality;
    [apply Bool.bool_dec | apply Z.eq_dec | apply string_dec].
Defined.

Definition field_eq_dec (a b : JS.field) : {a = b} + {a <> b}.
Proof.
  decide equality;
    first [apply value_eq_dec | apply string_dec | apply Nat.eq_dec
          | decide equality; apply string_dec].
Defined.

(** The union of the two action sets, without repetition. *)
Definition actionIds (st : Store) : list JS.field :=
  nodup field_eq_dec (completedEvents st ++ dismissedEvents st).

(** The request that [recordAction(i, a)] stands for. *)
Definition recordAction (i a : string) (src : JS.value) : ActionRequest :=
  {| method := "POST";
     body := Some {| eventId := JS.Scalar (JS.Str i);
                     action := JS.Scalar (JS.Str a);
                     body_source := JS.Scalar src |} |}.


(** The server handles the requests one at a time. *)
Definition handleActions (st : Store) (reqs : list ActionRequest) : Store :=
  fold_left (fun s r => snd (handleEventAction s r)) reqs st.

(** The number of configured sources among the first [i]: the index of the
    request that the aggregation sends for source [i]. *)
Definition requestIndex (env : Env) (i : nat) : nat :=
  List.length
    (filter (fun s => negb (notConfigured (url s)))
       (firstn i (calendarSources env))).

Definition calendarUrl (s : CalendarSource) : string :=
  JS.replace "webcal://" "https://" (url s).

Definition configured_key (env : Env) : Prop :=
  OPENWEATHER_API_KEY env <> ""
  /\ OPENWEATHER_API_KEY env <> "your_openweather_api_key_here".

Definition apiVersion (d : WeatherData) : string :=
  if current d then "3.0" else "2.5".

(** The tick at which [formatICSDate] runs: [Date.now()] is read before it
    only when the block has no usable UID. *)
Definition dateTick (cur : RawEvent) (k : nat) : nat :=
  if JS.truthy (uid cur) then k else S k.

(** On the elements of [l] the comparator [cmp] orders by [key]. *)
Definition keyed {A : Type} (cmp : A -> A -> option Z) (key : A -> Z)
  (l : list A) : Prop :=
  forall a b, In a l -> In b l -> before cmp a b = (key a <=? key b)%Z.

Definition ascending {A : Type} (key : A -> Z) : list A -> Prop :=
  StronglySorted (fun a b => (key a <= key b)%Z).

(** The store after a successful fetch of [d] at the instant [t]. *)
Definition refreshed (st : Store) (d : WeatherData) (t : Z) : Store :=
  {| weatherCache := Some {| data := Some d; timestamp := t |};
     completedEvents := completedEvents st;
     dismissedEvents := dismissedEvents st |}.

(** The bucketing of [server-backup.ts], for a difference [d] in
    milliseconds: days first, then rounded hours, then rounded minutes. *)
Definition bucketed (d : Z) (out : string) : Prop :=
  ((d <= 0)%Z -> out = "1 hour")
  /\ ((86400000 <= d)%Z -> out = plural (d / 86400000) "day")
  /\ ((1800000 <= d < 86400000)%Z ->
      out = plural (JS.round_div d 3600000) "hour")
  /\ ((30000 <= d < 1800000)%Z -> out = plural (JS.round_div d 60000) "minute")
  /\ ((0 < d < 30000)%Z -> out = "1 hour").

(** The bucketing of [server.ts]: rounded hours, or the default. *)
Definition hoursOnly (d : Z) (out : string) : Prop :=
  ((1800000 <= d)%Z -> out = plural (JS.round_div d 3600000) "hour")
  /\ ((d < 1800000)%Z -> out = "1 hour").

(** [new Date(token.replace(...))] in [server.ts]. *)
Definition instantCurrent (rt : Runtime) (token : string) : option Z :=
  Date_parse rt (JS.replace_re JS.match_datetime token).

(** The text of one block. *)
Definition block (lines : list string) : string :=
  unlines ("BEGIN:VEVENT" :: lines ++ ["END:VEVENT"]).

(** The text of two blocks. *)
Definition twoBlocks (lines1 lines2 : list string) : string :=
  unlines ("BEGIN:VEVENT" :: lines1
           ++ "END:VEVENT" :: "BEGIN:VEVENT" :: lines2 ++ ["END:VEVENT"]).

(** A block that yields an event and supplies no usable UID. *)
Definition anonymous (lines : list string) : Prop :=
  inner lines
  /\ Forall (fun l => one_line l = true) lines
  /\ JS.truthy (supplied SUMMARY lines) = true
  /\ JS.truthy (supplied DTSTART lines) = true
  /\ JS.truthy (supplied UID lines) = false.

(* ================================================================== *)
(** ** A household configuration, for the examples                     *)
(* ================================================================== *)

Definition demoClock : nat -> Z := fun _ => 1750000000000%Z.
Definition demoRuntime : Runtime := Ref.runtime demoClock.
Definition holidayFeed : string :=
  unlines ["BEGIN:VCALENDAR"; "BEGIN:VEVENT"; "SUMMARY:Summer bank holiday";
           "DTSTART;VALUE=DATE:20250615"; "END:VEVENT"; "END:VCALENDAR"].

Definition appleUrl : string :=
  "webcal://p01-caldav.icloud.com/published/2/home".
Definition appleHttps : string :=
  "https://p01-caldav.icloud.com/published/2/home".
Definition ukUrl : string :=
  "https://www.gov.uk/bank-holidays/england-and-wales.ics".

Definition demoEnv : Env :=
  {| TODOIST_CALENDAR_URL := "";
     APPLE_CALENDAR_URL := appleUrl;
     UK_HOLIDAYS_CALENDAR_URL := ukUrl;
     OPENWEATHER_API_KEY := "0123456789abcdef" |}.

(** A network that answers the two configured feeds. *)
Definition serve (apple uk : FetchResult) : Network :=
  fun _ u =>
    if u =? appleHttps then apple
    else if u =? ukUrl then uk
    else NetworkError.

Definition homeFeed : string :=
  unlines ["BEGIN:VCALENDAR";
           "BEGIN:VEVENT"; "UID:school-run"; "SUMMARY:School run";
           "DTSTART:20250616T083000"; "DTEND:20250616T090000"; "END:VEVENT";
           "BEGIN:VEVENT"; "UID:dentist"; "SUMMARY:Dentist";
           "DTSTART:20250615T140000"; "DTEND:20250615T150000"; "END:VEVENT";
           "BEGIN:VEVENT"; "UID:breakfast"; "SUMMARY:Breakfast";
           "DTSTART:20250615T080000"; "END:VEVENT";
           "END:VCALENDAR"].


(** A feed without UIDs. *)
Definition uidlessFeed : string :=
  unlines ["BEGIN:VCALENDAR";
           "BEGIN:VEVENT"; "SUMMARY:Dentist";
           "DTSTART:20250615T140000"; "END:VEVENT";
           "BEGIN:VEVENT"; "SUMMARY:Plumber";
           "DTSTART:20250616T090000"; "END:VEVENT";
           "END:VCALENDAR"].

(** Two feeds with the same two events in either order; the start of the
    plumber's visit is not an iCalendar date. *)
Definition dentistBlock : list string :=
  ["BEGIN:VEVENT"; "UID:dentist"; "SUMMARY:Dentist";
   "DTSTART:20250615T140000"; "END:VEVENT"].
Definition plumberBlock : list string :=
  ["BEGIN:VEVENT"; "UID:plumber"; "SUMMARY:Plumber";
   "DTSTART:TBD"; "END:VEVENT"].
Definition feedOf (blocks : list string) : string :=
  unlines (["BEGIN:VCALENDAR"] ++ blocks ++ ["END:VCALENDAR"])%list.

(** The events of the aggregation when the Apple calendar answers [text]
    and the bank holidays are not reachable, as title and date. *)
Definition listed (text : string) : list (string * string) :=
  map (fun e => (title e, date e))
    (resp_events
       (fst (handleAppleCalendar Server.parseICSData demoRuntime demoEnv
               (serve (Response true (Some text)) NetworkError)
               initialStore 0))).

(** A clock that reads one value during a first aggregation of two events
    and another value afterwards. *)
Definition laterClock : nat -> Z :=
  fun k => if (k <? 2)%nat then 1750000000000%Z else 1750000060000%Z.

Definition sunny : WeatherData :=
  {| message := JS.Undefined; current := true;
     fields := "temp: 21.5, humidity: 40" |}.

Definition cachedStore : Store :=
  {| weatherCache :=
       Some {| data := Some sunny; timestamp := 1749999400000%Z |};
     completedEvents := [];
     dismissedEvents := [] |}.

(* ================================================================== *)
(** ** Vocabulary of the further properties                            *)
(* ================================================================== *)

(** The initial state of the loop of [parseICSData]. *)
Definition parseStart : ParseState :=
  {| events := []; currentEvent := None |}.

(** The number of lines that close a block. *)
Definition closings (lines : list string) : nat :=
  List.length (filter closes lines).

Definition CR : ascii := ascii_of_nat 13.

(** A line as a CRLF-delimited feed gives it to [split("\n")]. *)
Definition withCR (line : string) : string := line ++ String CR EmptyString.

(** A clock-time string: two characters, a colon, two characters. *)
Definition clockShaped (s : string) : Prop :=
  String.length s = 5%nat /\ String.get 2 s = Some ":"%char.

(** What every event that a parser pushes satisfies. *)
Definition wellFormedEvent (v : Version) (src : string) (e : Event) : Prop :=
  title e <> ""
  /\ id e <> ""
  /\ priority e = "medium"
  /\ source e = src
  /\ match v with
     | Current => clockShaped (time e) /\ isAllDay e = None
     | Backup =>
         (isAllDay e = Some true /\ time e = "All day"
          /\ duration e = "All day")
         \/ (isAllDay e = Some false /\ clockShaped (time e))
     end.

Definition DESCRIPTION : list string := ["DESCRIPTION"].
Definition LOCATION : list string := ["LOCATION"].

(** No white space in a string. *)
Fixpoint solid (s : string) : bool :=
  match s with
  | EmptyString => true
  | String c s' => negb (JS.is_ws c) && solid s'
  end.

(** A text [`${n} unit(s)`] with a positive count. *)
Definition countOf (units : list string) (out : string) : Prop :=
  exists n unit, (1 <= n)%Z /\ In unit units /\ out = plural n unit.

(** The request is a POST whose body asks for the action [a] on the truthy
    id [v], and whose log line can be written. *)
Definition records (a : string) (v : JS.field) (req : ActionRequest) : Prop :=
  method req = "POST"
  /\ exists b, body req = Some b /\ eventId b = v
               /\ action b = JS.Scalar (JS.Str a)
               /\ JS.field_truthy v = true /\ logLine b <> None.


(** A POST asking for the action [a] on an event id that is an array or an
    object printed as [shown]; [req.json()] has put it at [address]. *)
Definition actionOnObject (a : string) (address : nat) (shown : string)
  : ActionRequest :=
  {| method := "POST";
     body := Some {| eventId := JS.Ref address (Some shown);
                     action := JS.Scalar (JS.Str a);
                     body_source := JS.Scalar JS.Undefined |} |}.

(** [!notConfigured]: the aggregation sends a request for the source. *)
Definition isConfigured (s : CalendarSource) : bool :=
  negb (notConfigured (url s)).

(** The event was read from the feed of a configured source. *)
Definition fromFeed (parse : Parser) (rt : Runtime) (env : Env)
  (net : Network) (e : Event) : Prop :=
  exists i src text k_i,
    nth_error (calendarSources env) i = Some src
    /\ notConfigured (url src) = false
    /\ net (requestIndex env i) (calendarUrl src) = Response true (Some text)
    /\ In e (fst (parse rt text (name src) k_i)).

(** Two networks answer alike the requests that the aggregation sends. *)
Definition sameFeeds (env : Env) (net net' : Network) : Prop :=
  forall i src,
    nth_error (calendarSources env) i = Some src ->
    notConfigured (url src) = false ->
    net' (requestIndex env i) (calendarUrl src)
    = net (requestIndex env i) (calendarUrl src).

(** A network that answers every request with the same text. *)
Definition everywhere (text : string) : Network :=
  fun _ _ => Response true (Some text).

Definition offlineEnv : Env :=
  {| TODOIST_CALENDAR_URL := "";
     APPLE_CALENDAR_URL := "your_apple_calendar_url_here";
     UK_HOLIDAYS_CALENDAR_URL := "your_holidays_calendar_url_here";
     OPENWEATHER_API_KEY := "" |}.

(** The store after an answer whose body was the JSON [null]. *)
Definition nulled (st : Store) (t : Z) : Store :=
  {| weatherCache := Some {| data := None; timestamp := t |};
     completedEvents := completedEvents st;
     dismissedEvents := dismissedEvents st |}.

(** The primary endpoint refused with a message about the subscription. *)
Definition askedForFallback (upstream : Endpoint -> Upstream) : Prop :=
  exists s d msg,
    upstream OneCall30 = Reply false s (JsonObject d)
    /\ message d = JS.Str msg
    /\ JS.includes "One Call 3.0" msg || JS.includes "One Call by Call" msg
       = true.

(** The parts of what [handleWeather] returns. *)
Definition answer {A B C D : Type} (x : A * B * C * D) : A := fst (fst (fst x)).
Definition storeAfter {A B C D : Type} (x : A * B * C * D) : B :=
  snd (fst (fst x)).
Definition contacted {A B C D : Type} (x : A * B * C * D) : C := snd (fst x).
Definition tickAfter {A B C D : Type} (x : A * B * C * D) : D := snd x.

(** The primary endpoint answers 200 with the body [null]. *)
Definition nullUpstream : Endpoint -> Upstream :=
  fun e => match e with
           | OneCall30 => Reply true "OK" JsonNull
           | Weather25 => FetchFails
           end.

Definition sunnyUpstream : Endpoint -> Upstream :=
  fun e => match e with
           | OneCall30 => Reply true "OK" (JsonObject sunny)
           | Weather25 => FetchFails
           end.

(** A clock that advances by one minute with every reading. *)
Definition minuteClock : nat -> Z :=
  fun k => (1750000000000 + 60000 * Z.of_nat k)%Z.

(* ================================================================== *)
(** ** The Todoist and the time handlers (the same in both files)      *)
(* ================================================================== *)

(** The fields of [env], after their defaults, that these handlers read. *)
Record Services : Type := {
  TODOIST_API_KEY : string;
  TODOIST_BASE_URL : string;
  TIME_API_URL : string
}.

(** Outcome of [fetch] followed, where the handler reads the body, by
    [response.json()]: [json] is [None] when the body does not parse.  [Doc]
    is the type of the parsed documents. *)
Inductive JsonReply (Doc : Type) : Type :=
| Unreachable
| Answered (ok : bool) (json : option Doc).

Arguments Unreachable {Doc}.
Arguments Answered {Doc} ok json.

(** [!env.TODOIST_API_KEY ||
     env.TODOIST_API_KEY === "your_todoist_api_key_here"] *)
Definition todoistKeyMissing (sv : Services) : bool :=
  (TODOIST_API_KEY sv =? "")
  || (TODOIST_API_KEY sv =? "your_todoist_api_key_here").

(** A request to [/api/tasks/complete]: [taskId] is the field of that name
    of the body ([JS.Scalar JS.Undefined] when the body has none), and [None]
    when [req.json()] throws or returns [null], so that the destructuring
    throws. *)
Record TaskRequest : Type := {
  task_method : string;
  taskId : option JS.field
}.

Inductive TaskResponse : Type :=
| TaskError (status : nat) (error : string)
| TaskCompleted (taskId : JS.field).

Definition task_status (r : TaskResponse) : nat :=
  match r with
  | TaskError s _ => s
  | TaskCompleted _ => 200
  end.

(** [`${env.TODOIST_BASE_URL}/tasks/${taskId}/close`], for the string that
    the template makes of the task id. *)
Definition closeUrl (sv : Services) (shown : string) : string :=
  TODOIST_BASE_URL sv ++ "/tasks/" ++ shown ++ "/close".

(** The response and the URLs requested, in order.  Every exception of the
    [try] block ends in the [catch] and its 500. *)
Definition handleTaskCompletion {Doc : Type} (sv : Services)
  (net : string -> JsonReply Doc) (req : TaskRequest)
  : TaskResponse * list string :=
  if negb (task_method req =? "POST")
  then (TaskError 405 "Method not allowed", [])
  else if todoistKeyMissing sv
  then (TaskError 400 "Todoist API key not configured", [])
  else
    match taskId req with
    | None => (TaskError 500 "Failed to complete task", [])
    | Some i =>
        if negb (JS.field_truthy i) then (TaskError 400 "Task ID required", [])
        else
          (* [console.log(`Completing Todoist task: ${taskId}`)] *)
          match JS.template i with
          | None => (TaskError 500 "Failed to complete task", [])
          | Some shown =>
              match net (closeUrl sv shown) with
              | Answered true _ => (TaskCompleted i, [closeUrl sv shown])
              | _ =>
                  (TaskError 500 "Failed to complete task",
                   [closeUrl sv shown])
              end
          end
    end.

Inductive TasksResponse (Doc : Type) : Type :=
| TasksNotConfigured
| TasksList (data : Doc)
| TasksFailed.

Arguments TasksNotConfigured {Doc}.
Arguments TasksList {Doc} data.
Arguments TasksFailed {Doc}.

Definition tasks_status {Doc : Type} (r : TasksResponse Doc) : nat :=
  match r with
  | TasksNotConfigured => 400
  | TasksList _ => 200
  | TasksFailed => 500
  end.

(** [handleTodoistTasks] does not look at the request. *)
Definition handleTodoistTasks {Doc : Type} (sv : Services)
  (net : string -> JsonReply Doc) : TasksResponse Doc * list string :=
  if todoistKeyMissing sv then (TasksNotConfigured, [])
  else
    let tasksUrl := TODOIST_BASE_URL sv ++ "/tasks" in
    match net tasksUrl with
    | Answered true (Some data) => (TasksList data, [tasksUrl])
    | _ => (TasksFailed, [tasksUrl])
    end.

(** What the fallback of [handleTime] reads besides the clock. *)
Record Locale : Type := {
  (** [Intl.DateTimeFormat().resolvedOptions().timeZone] *)
  timeZone : string;
  (** [new Date(t).getTimezoneOffset()] *)
  getTimezoneOffset : Z -> Z;
  (** [new Date(t).getHours()] *)
  getHours : Z -> Z
}.

Record FallbackData : Type := {
  datetime : string;
  timezone : string;
  utc_offset : Z;
  fallback : bool;
  fallback_error : string
}.

Inductive TimeResponse (Doc : Type) : Type :=
| TimeProxied (data : Doc)
| TimeFallback (f : FallbackData).

Arguments TimeProxied {Doc} data.
Arguments TimeFallback {Doc} f.

Definition timeEndpoints (sv : Services) : list string :=
  ["https://worldtimeapi.org/api/timezone/Europe/London"; TIME_API_URL sv].

(** The loop over the endpoints, from the [i]-th request on: the document of
    the first endpoint that answers with one, and the endpoints tried.  An
    endpoint that cannot be reached, answers without [ok] or with a body
    that does not parse ends in the [catch], and the loop goes on. *)
Fixpoint tryEndpoints {Doc : Type} (net : nat -> string -> JsonReply Doc)
  (i : nat) (endpoints : list string) : option Doc * list string :=
  match endpoints with
  | [] => (None, [])
  | u :: rest =>
      match net i u with
      | Answered true (Some data) => (Some data, [u])
      | _ =>
          let r := tryEndpoints net (S i) rest in (fst r, u :: snd r)
      end
  end.

Definition handleTime {Doc : Type} (rt : Runtime) (loc : Locale)
  (sv : Services) (net : nat -> string -> JsonReply Doc)
  : Clocked (TimeResponse Doc * list string) :=
  match tryEndpoints net 0 (timeEndpoints sv) with
  | (Some data, tried) => ret (TimeProxied data, tried)
  | (None, tried) =>
      t <- now rt ;;
      ret (TimeFallback
             {| datetime := toISOString rt t;
                timezone := timeZone loc;
                utc_offset := (getTimezoneOffset loc t * -60)%Z;
                fallback := true;
                fallback_error :=
                  "Using local time due to API unavailability" |},
           tried)
  end.

(* ================================================================== *)
(** ** The router: the [fetch] of [Bun.serve]                          *)
(* ================================================================== *)

(** What a request is answered by. *)
Inductive Handler : Type :=
| Preflight
| ToTodoistTasks
| ToTaskCompletion
| ToEventAction
| ToAppleCalendar
| ToWeather
| ToWeatherForecast
| ToTime
| ServeIndex
| ServeFile (filePath : string) (contentType : option string)
| NotFound.

Fixpoint all_slashes (s : string) : bool :=
  match s with
  | EmptyString => true
  | String c s' => Ascii.eqb c "/" && all_slashes s'
  end.

(** [s.replace(/\/+$/, "")]: the match starts at the leftmost position from
    which slashes, and at least one, run to the end of the string. *)
Fixpoint stripTrailingSlashes (s : string) : string :=
  match s with
  | EmptyString => EmptyString
  | String c s' =>
      if all_slashes s then EmptyString
      else String c (stripTrailingSlashes s')
  end.

(** [url.pathname.replace(/\/+$/, "") || "/"] *)
Definition normalisePath (pathname : string) : string :=
  if stripTrailingSlashes pathname =? "" then "/"
  else stripTrailingSlashes pathname.

(** [s.lastIndexOf(c)]; [None] is -1. *)
Fixpoint lastIndexOf (c : ascii) (s : string) : option nat :=
  match s with
  | EmptyString => None
  | String a s' =>
      match lastIndexOf c s' with
      | Some i => Some (S i)
      | None => if Ascii.eqb a c then Some 0%nat else None
      end
  end.

Definition contentTypes : list (string * string) :=
  [ (".html", "text/html; charset=utf-8");
    (".css", "text/css; charset=utf-8");
    (".js", "text/javascript; charset=utf-8");
    (".json", "application/json");
    (".png", "image/png");
    (".jpg", "image/jpeg");
    (".jpeg", "image/jpeg");
    (".svg", "image/svg+xml");
    (".ico", "image/x-icon");
    (".txt", "text/plain; charset=utf-8") ].

Fixpoint lookup (key : string) (table : list (string * string))
  : option string :=
  match table with
  | [] => None
  | (k, v) :: rest => if k =? key then Some v else lookup key rest
  end.

(** [filePath.substring(filePath.lastIndexOf("."))], or [""] *)
Definition extension (filePath : string) : string :=
  match lastIndexOf "." filePath with
  | Some i => JS.drop i filePath
  | None => ""
  end.

(** [contentTypes[ext] || "application/octet-stream"]; [ext] is empty or
    starts with a dot, so that no inherited property answers. *)
Definition contentTypeOf (filePath : string) : string :=
  match lookup (extension filePath) contentTypes with
  | Some t => t
  | None => "application/octet-stream"
  end.

(** A promise that has not been awaited: an object, whatever it resolves
    to. *)
Inductive Promise (A : Type) : Type := Pending (resolution : A).
Arguments Pending {A} resolution.

Definition promise_truthy {A : Type} (p : Promise A) : bool := true.

(** The router of [server.ts].  [Bun.file(filePath).exists()] returns a
    promise, and the router tests the promise itself. *)
Definition serverFetch (fileExists : string -> bool)
  (method pathname : string) : Handler :=
  if method =? "OPTIONS" then Preflight
  else if pathname =? "/api/tasks" then ToTodoistTasks
  else if pathname =? "/api/tasks/complete" then ToTaskCompletion
  else if pathname =? "/api/events/action" then ToEventAction
  else if pathname =? "/api/calendar" then ToAppleCalendar
  else if pathname =? "/api/weather" then ToWeather
  else if pathname =? "/api/time" then ToTime
  else if (pathname =? "/") || (pathname =? "/index.html") then ServeIndex
  else
    let filePath := "." ++ pathname in
    let fileExists := Pending (fileExists filePath) in
    if promise_truthy fileExists then ServeFile filePath None
    else NotFound.

(** The router of [server-backup.ts], which awaits the promise. *)
Definition serverBackupFetch (fileExists : string -> bool)
  (method pathname : string) : Handler :=
  let path := normalisePath pathname in
  if method =? "OPTIONS" then Preflight
  else if path =? "/api/tasks" then ToTodoistTasks
  else if path =? "/api/tasks/complete" then ToTaskCompletion
  else if path =? "/api/events/action" then ToEventAction
  else if path =? "/api/calendar" then ToAppleCalendar
  else if path =? "/api/weather" then ToWeather
  else if path =? "/api/weather/forecast" then ToWeatherForecast
  else if path =? "/api/time" then ToTime
  else if (path =? "/") || (path =? "/index.html") then ServeIndex
  else
    let filePath := "." ++ pathname in
    if fileExists filePath
    then ServeFile filePath (Some (contentTypeOf filePath))
    else NotFound.

(** The handlers behind the API endpoints. *)
Definition isEndpoint (h : Handler) : bool :=
  match h with
  | ServeFile _ _ | NotFound => false
  | _ => true
  end.

(** [n] slashes. *)
Fixpoint slashes (n : nat) : string :=
  match n with
  | O => EmptyString
  | S n' => String "/" (slashes n')
  end.

(** An endpoint answers with a document. *)
Definition answers {Doc : Type} (r : JsonReply Doc) : Prop :=
  exists d, r = Answered true (Some d).

Definition demoServices : Services :=
  {| TODOIST_API_KEY := "0123456789abcdef0123456789abcdef01234567";
     TODOIST_BASE_URL := "https://api.todoist.com/rest/v2";
     TIME_API_URL := "http://worldtimeapi.org/api/timezone/Europe/London" |}.

Definition london : Locale :=
  {| timeZone := "Europe/London";
     getTimezoneOffset := fun _ => (-60)%Z;
     getHours := fun t => ((t / 3600000 + 1) mod 24)%Z |}.

(* ================================================================== *)
(** ** [groupForecastByDay] ([server-backup.ts])                       *)
(* ================================================================== *)

(** A number of a JSON document that is only compared: a rational. *)
Definition number : Type := QArith_base.Q.

(** An item of the list of the five-day forecast that has the fields that
    [groupForecastByDay] reads: an integer [dt], in seconds, and the
    numbers of [main].  [wind_speed] is [item.wind?.speed], [None] when the
    item has no wind or the wind no speed. *)
Record ForecastItem : Type := {
  dt : Z;
  main_temp : number;
  main_temp_min : number;
  main_temp_max : number;
  main_humidity : number;
  item_weather : string;
  wind_speed : option number
}.

(** [Math.min(...l)] and [Math.max(...l)]; [None] is the infinity that an
    empty list gives. *)
Fixpoint Math_min (l : list number) : option number :=
  match l with
  | [] => None
  | x :: l' =>
      match Math_min l' with
      | None => Some x
      | Some m => Some (if QArith_base.Qle_bool x m then x else m)
      end
  end.

Fixpoint Math_max (l : list number) : option number :=
  match l with
  | [] => None
  | x :: l' =>
      match Math_max l' with
      | None => Some x
      | Some m => Some (if QArith_base.Qle_bool m x then x else m)
      end
  end.

Record DailyEntry : Type := {
  day_dt : Z;
  temp_day : number;
  temp_min : option number;
  temp_max : option number;
  day_weather : string;
  day_humidity : number;
  day_wind_speed : number
}.

(** [new Date(item.dt * 1000).toISOString().split("T")[0]] *)
Definition dateOf (rt : Runtime) (item : ForecastItem) : string :=
  hd "" (JS.split "T" (toISOString rt (dt item * 1000))).

(** [dailyData[date].push(item)], after [dailyData[date] = []] when the
    object has no such key.  The keys are dates, so that the object keeps
    them in the order in which they were added. *)
Fixpoint pushItem (date : string) (item : ForecastItem)
  (dailyData : list (string * list ForecastItem))
  : list (string * list ForecastItem) :=
  match dailyData with
  | [] => [(date, [item])]
  | (d, items) :: rest =>
      if d =? date then (d, (items ++ [item])%list) :: rest
      else (d, items) :: pushItem date item rest
  end.

(** A time value that a [Date] can hold: further than 8.64e15 ms from the
    epoch the date is invalid, and its [toISOString] throws a RangeError. *)
Definition validTime (t : Z) : bool := (Z.abs t <=? 8640000000000000)%Z.

Definition inRange (item : ForecastItem) : bool := validTime (dt item * 1000).

(** One turn of the [forEach]; [None] once [toISOString] has thrown. *)
Definition groupItem (rt : Runtime)
  (acc : option (list (string * list ForecastItem))) (item : ForecastItem)
  : option (list (string * list ForecastItem)) :=
  match acc with
  | None => None
  | Some dailyData =>
      if inRange item then Some (pushItem (dateOf rt item) item dailyData)
      else None
  end.

(** The object [dailyData] after the [forEach]; [None] when it has thrown. *)
Definition dailyDataOf (rt : Runtime) (forecastList : list ForecastItem)
  : option (list (string * list ForecastItem)) :=
  fold_left (groupItem rt) forecastList (Some []).

(** [hour >= 11 && hour <= 15] of [new Date(item.dt * 1000).getHours()] *)
Definition midDay (loc : Locale) (item : ForecastItem) : bool :=
  ((11 <=? getHours loc (dt item * 1000))
   && (getHours loc (dt item * 1000) <=? 15))%Z.

(** [items.find(...) || items[0]]; [None] is [undefined]. *)
Definition midDayItem (loc : Locale) (items : list ForecastItem)
  : option ForecastItem :=
  match find (midDay loc) items with
  | Some item => Some item
  | None => hd_error items
  end.

(** [speed || 0] *)
Definition or_zero (speed : option number) : number :=
  match speed with
  | Some s =>
      if QArith_base.Qeq_bool s (QArith_base.Qmake 0 1)
      then QArith_base.Qmake 0 1 else s
  | None => QArith_base.Qmake 0 1
  end.

(** The callback of the [map]; [None] when reading a field of [undefined]
    throws. *)
Definition summarise (loc : Locale) (items : list ForecastItem)
  : option DailyEntry :=
  match midDayItem loc items with
  | None => None
  | Some m =>
      Some {| day_dt := dt m;
              temp_day := main_temp m;
              temp_min := Math_min (map main_temp_min items);
              temp_max := Math_max (map main_temp_max items);
              day_weather := item_weather m;
              day_humidity := main_humidity m;
              day_wind_speed := or_zero (wind_speed m) |}
  end.

(** [l.map(f)] for a callback that may throw. *)
Fixpoint mapM {A B : Type} (f : A -> option B) (l : list A)
  : option (list B) :=
  match l with
  | [] => Some []
  | a :: l' =>
      match f a with
      | None => None
      | Some b =>
          match mapM f l' with
          | None => None
          | Some bs => Some (b :: bs)
          end
      end
  end.

(** [None] when the function throws. *)
Definition groupForecastByDay (rt : Runtime) (loc : Locale)
  (forecastList : list ForecastItem) : option (list DailyEntry) :=
  match dailyDataOf rt forecastList with
  | None => None
  | Some dailyData =>
      mapM (fun entry => summarise loc (snd entry)) (firstn 5 dailyData)
  end.

(** The distinct strings of a list, in the order of their first
    appearance. *)
Fixpoint firstSeen (l : list string) : list string :=
  match l with
  | [] => []
  | d :: rest => d :: filter (fun d' => negb (d' =? d)) (firstSeen rest)
  end.

(** The items of a date. *)
Definition itemsOf (rt : Runtime) (forecastList : list ForecastItem)
  (date : string) : list ForecastItem :=
  filter (fun item => dateOf rt item =? date) forecastList.

(** The days of a forecast. *)
Definition daysOf (rt : Runtime) (forecastList : list ForecastItem)
  : list string :=
  firstSeen (map (dateOf rt) forecastList).

(** The days of a forecast, each with its items. *)
Definition grouped (rt : Runtime) (forecastList : list ForecastItem)
  : list (string * list ForecastItem) :=
  map (fun d => (d, itemsOf rt forecastList d)) (daysOf rt forecastList).

(** The item is not one of the middle of the day. *)
Definition offPeak (loc : Locale) (item : ForecastItem) : Prop :=
  midDay loc item = false.

(** Two items of 15 June 2025, at 07:00 and at 13:00 British time. *)
Definition morning : ForecastItem :=
  {| dt := 1749967200;
     main_temp := QArith_base.Qmake 141 10;
     main_temp_min := QArith_base.Qmake 128 10;
     main_temp_max := QArith_base.Qmake 141 10;
     main_humidity := QArith_base.Qmake 81 1;
     item_weather := "light rain";
     wind_speed := Some (QArith_base.Qmake 36 10) |}.

Definition lunchtime : ForecastItem :=
  {| dt := 1749988800;
     main_temp := QArith_base.Qmake 203 10;
     main_temp_min := QArith_base.Qmake 197 10;
     main_temp_max := QArith_base.Qmake 211 10;
     main_humidity := QArith_base.Qmake 56 1;
     item_weather := "few clouds";
     wind_speed := None |}.

(* ================================================================== *)
(** ** [handleWeatherForecast] ([server-backup.ts])                    *)
(* ================================================================== *)

(** The parsed body of a One Call answer: the fields that the handler looks
    at, as the scalar they hold or the truthiness of what they hold, and
    the rest of the document. *)
Record OneCallDoc : Type := {
  doc_message : JS.value;
  doc_api_version : JS.value;
  doc_hourly : bool;
  doc_daily : bool;
  doc_fields : string
}.

(** The parsed body of a five-day answer: its field [list], [None] when the
    body has none. *)
Record FiveDayDoc : Type := {
  list_ : option (list ForecastItem)
}.

(** The variable [data]: the body of a One Call answer, or the object that
    the handler builds from a five-day answer. *)
Inductive ForecastData : Type :=
| OneCallData (d : OneCallDoc)
| FiveDayData (current_ : option ForecastItem) (hourly : list ForecastItem)
    (daily : list DailyEntry).

(** [forecastCache]; [fc_data] is [None] for a JSON [null]. *)
Record ForecastCache : Type := {
  fc_data : option ForecastData;
  fc_timestamp : Z
}.

Inductive ForecastEndpoint : Type := Forecast30 | Forecast25 | FiveDay.

(** The answers of the three endpoints; the body of an answer is [None] for
    a JSON [null]. *)
Record ForecastUpstream : Type := {
  oneCall30 : JsonReply (option OneCallDoc);
  oneCall25 : JsonReply (option OneCallDoc);
  fiveDay : JsonReply (option FiveDayDoc)
}.

Inductive ForecastResponse : Type :=
| ForecastNotConfigured
| ForecastCached (d : option ForecastData) (cache_age_minutes : Z)
| ForecastFresh (d : ForecastData) (fetch_time : string)
    (api_version : JS.value)
| ForecastFailed.

Definition forecast_status (r : ForecastResponse) : nat :=
  match r with
  | ForecastNotConfigured => 400
  | ForecastCached _ _ | ForecastFresh _ _ _ => 200
  | ForecastFailed => 500
  end.

(** [!response.ok && data.message && (data.message.includes("One Call 3.0")
     || data.message.includes("subscription"))]; [None] when evaluating it
    throws a TypeError. *)
Definition wantsOneCall25 (ok : bool) (d : option OneCallDoc) : option bool :=
  if ok then Some false
  else
    match d with
    | None => None
    | Some w =>
        match doc_message w with
        | JS.Str s =>
            if s =? "" then Some false
            else Some (JS.includes "One Call 3.0" s
                       || JS.includes "subscription" s)
        | v => if JS.value_truthy v then None else Some false
        end
    end.

(** [data.api_version || (data.hourly && data.daily ? "one-call" :
    "standard")] *)
Definition forecastVersion (d : ForecastData) : JS.value :=
  match d with
  | FiveDayData _ _ _ => JS.Str "2.5-forecast"
  | OneCallData w =>
      if JS.value_truthy (doc_api_version w) then doc_api_version w
      else if doc_hourly w && doc_daily w then JS.Str "one-call"
           else JS.Str "standard"
  end.

(** The object built from a five-day answer; [None] when building it
    throws. *)
Definition fromFiveDay (rt : Runtime) (loc : Locale)
  (forecastData : option FiveDayDoc) : option ForecastData :=
  match forecastData with
  | None => None
  | Some doc =>
      match list_ doc with
      | None => None
      | Some l =>
          match groupForecastByDay rt loc l with
          | None => None
          | Some days => Some (FiveDayData (hd_error l) (firstn 24 l) days)
          end
      end
  end.

(** The statements after the fallbacks: test [response.ok], write the
    cache, build the response. *)
Definition finishForecast (rt : Runtime) (cache : option ForecastCache)
  (now_ : Z) (ok : bool) (d : option ForecastData)
  : Clocked (ForecastResponse * option ForecastCache) :=
  if negb ok then ret (ForecastFailed, cache)
  else
    let cache' := Some {| fc_data := d; fc_timestamp := now_ |} in
    t <- now rt ;;
    match d with
    | None => ret (ForecastFailed, cache')
    | Some w =>
        ret (ForecastFresh w (toISOString rt t) (forecastVersion w), cache')
    end.

(** The third step: when the last One Call answer was not [ok], the
    five-day endpoint is asked. *)
Definition thirdStep (rt : Runtime) (loc : Locale) (up : ForecastUpstream)
  (cache : option ForecastCache) (now_ : Z) (ok : bool)
  (d : option OneCallDoc) (asked : list ForecastEndpoint)
  : Clocked (ForecastResponse * option ForecastCache * list ForecastEndpoint) :=
  if ok then
    r <- finishForecast rt cache now_ true (option_map OneCallData d) ;;
    ret (r, asked)
  else
    let asked' := (asked ++ [FiveDay])%list in
    match fiveDay up with
    | Unreachable => ret (ForecastFailed, cache, asked')
    | Answered _ None => ret (ForecastFailed, cache, asked')
    | Answered false (Some _) => ret (ForecastFailed, cache, asked')
    | Answered true (Some forecastData) =>
        match fromFiveDay rt loc forecastData with
        | None => ret (ForecastFailed, cache, asked')
        | Some data =>
            r <- finishForecast rt cache now_ true (Some data) ;;
            ret (r, asked')
        end
    end.

(** The [try] block. *)
Definition fetchForecast (rt : Runtime) (loc : Locale) (up : ForecastUpstream)
  (cache : option ForecastCache) (now_ : Z)
  : Clocked (ForecastResponse * option ForecastCache * list ForecastEndpoint) :=
  match oneCall30 up with
  | Unreachable => ret (ForecastFailed, cache, [Forecast30])
  | Answered _ None => ret (ForecastFailed, cache, [Forecast30])
  | Answered ok (Some d) =>
      match wantsOneCall25 ok d with
      | None => ret (ForecastFailed, cache, [Forecast30])
      | Some false => thirdStep rt loc up cache now_ ok d [Forecast30]
      | Some true =>
          match oneCall25 up with
          | Unreachable =>
              ret (ForecastFailed, cache, [Forecast30; Forecast25])
          | Answered _ None =>
              ret (ForecastFailed, cache, [Forecast30; Forecast25])
          | Answered ok2 (Some d2) =>
              thirdStep rt loc up cache now_ ok2 d2 [Forecast30; Forecast25]
          end
      end
  end.

Definition handleWeatherForecast (rt : Runtime) (loc : Locale) (env : Env)
  (up : ForecastUpstream) (cache : option ForecastCache)
  : Clocked (ForecastResponse * option ForecastCache * list ForecastEndpoint) :=
  if (OPENWEATHER_API_KEY env =? "")
     || (OPENWEATHER_API_KEY env =? "your_openweather_api_key_here")
  then ret (ForecastNotConfigured, cache, [])
  else
    now_ <- now rt ;;
    match cache with
    | Some c =>
        if (now_ - fc_timestamp c <? WEATHER_CACHE_DURATION)%Z then
          ret (ForecastCached (fc_data c)
                 (JS.round_div (now_ - fc_timestamp c) 60000), cache, [])
        else fetchForecast rt loc up cache now_
    | None => fetchForecast rt loc up cache now_
    end.

(** The primary forecast endpoint refused with a message about the
    subscription. *)
Definition askedForOneCall25 (up : ForecastUpstream) : Prop :=
  exists d msg,
    oneCall30 up = Answered false (Some (Some d))
    /\ doc_message d = JS.Str msg
    /\ JS.includes "One Call 3.0" msg || JS.includes "subscription" msg = true.

(** The last One Call answer was not [ok]: the 3.0 one, when it did not ask
    for the 2.5 endpoint, and else the 2.5 one. *)
Definition lastOneCallRefused (up : ForecastUpstream) : Prop :=
  (exists d,
      oneCall30 up = Answered false (Some d)
      /\ wantsOneCall25 false d = Some false)
  \/ (askedForOneCall25 up
      /\ exists d, oneCall25 up = Answered false (Some d)).

(** Where the payload of a fresh answer comes from. *)
Definition producedBy (rt : Runtime) (loc : Locale) (up : ForecastUpstream)
  (asked : list ForecastEndpoint) (d : ForecastData) : Prop :=
  match d with
  | OneCallData w =>
      (asked = [Forecast30] /\ oneCall30 up = Answered true (Some (Some w)))
      \/ (asked = [Forecast30; Forecast25]
          /\ oneCall25 up = Answered true (Some (Some w)))
  | FiveDayData first hourly daily =>
      In FiveDay asked
      /\ exists doc l,
           fiveDay up = Answered true (Some (Some doc))
           /\ list_ doc = Some l
           /\ first = hd_error l /\ hourly = firstn 24 l
           /\ groupForecastByDay rt loc l = Some daily
           /\ (List.length daily <= 5)%nat
  end.

(** The One Call 3.0 endpoint refuses the key; the five-day endpoint answers
    with the two items of a day. *)
Definition fiveDayOnly : ForecastUpstream :=
  {| oneCall30 := Answered false (Some (Some
       {| doc_message := JS.Str "Invalid API key";
          doc_api_version := JS.Undefined;
          doc_hourly := false; doc_daily := false;
          doc_fields := "cod: 401" |}));
     oneCall25 := Unreachable;
     fiveDay := Answered true (Some (Some
       {| list_ := Some [morning; lunchtime] |})) |}.

(** Whether the loop of the parser is inside a block. *)
Definition inBlock (st : ParseState) : bool :=
  match currentEvent st with
  | Some _ => true
  | None => false
  end.

(** Whether it is inside a block after some lines. *)
Fixpoint openAfter (inside : bool) (lines : list string) : bool :=
  match lines with
  | [] => inside
  | line :: rest =>
      openAfter (if opens line then true
                 else if closes line then false else inside) rest
  end.

(** The lines of a feed of two events, cut between the blocks. *)
Definition firstLines : list string :=
  ["BEGIN:VCALENDAR"; "BEGIN:VEVENT"; "UID:school-run";
   "SUMMARY:School run"; "DTSTART:20250616T083000"; "END:VEVENT"].

Definition lastLines : list string :=
  ["BEGIN:VEVENT"; "UID:dentist"; "SUMMARY:Dentist";
   "DTSTART:20250615T140000"; "END:VEVENT"; "END:VCALENDAR"].

(** A start token that [formatICSDate] cuts up without reading the clock. *)
Definition datedToken (s : option string) : Prop :=
  exists tok,
    s = Some tok /\ tok <> ""
    /\ (String.length tok = 8%nat \/ JS.includes "T" tok = true).

(** Two runtimes whose [Date] reads every string alike; their clocks may
    differ. *)
Definition sameDates (rt rt' : Runtime) : Prop :=
  forall s, Date_parse rt' s = Date_parse rt s.

(* ================================================================== *)
(** ** Loops that read the clock                                       *)
(* ================================================================== *)

Section Loops.

Context {A S : Type} (body : S -> A -> Clocked S).

Lemma for_of_cons (a : A) (l : list A) (s : S) (k : nat) :
  for_of body (a :: l) s k
  = for_of body l (fst (body s a k)) (snd (body s a k)).
Proof.
  simpl. unfold bind. destruct (body s a k); reflexivity.
Qed.

Lemma for_of_app (l1 l2 : list A) (s : S) (k : nat) :
  for_of body (l1 ++ l2) s k
  = for_of body l2 (fst (for_of body l1 s k)) (snd (for_of body l1 s k)).
Proof.
  revert s k. induction l1 as [|a l1 IH]; intros s k.
  - reflexivity.
  - rewrite <- app_comm_cons, !for_of_cons. apply IH.
Qed.

End Loops.

(* ================================================================== *)
(** ** The parser, block by block                                      *)
(* ================================================================== *)

Lemma parseLine_of_eq (v : Version) :
  parseLine_of v = parseLineWith (makeEvent_of v) (setProperty_of v).
Proof. destruct v; reflexivity. Qed.

Section Blocks.

Variable make : Runtime -> string -> RawEvent -> Clocked Event.
Variable setp : RawEvent -> string -> string -> RawEvent.
Variable rt : Runtime.
Variable src : string.

Let step := parseLineWith make setp rt src.

Lemma step_opens (st : ParseState) (line : string) (k : nat) :
  opens line = true ->
  step st line k
  = ({| events := events st; currentEvent := Some emptyRaw |}, k).
Proof.
  unfold opens, step, parseLineWith. intros ->. reflexivity.
Qed.

Lemma step_inner (evs : list Event) (cur : RawEvent) (line : string)
  (k : nat) :
  opens line = false -> closes line = false ->
  step {| events := evs; currentEvent := Some cur |} line k
  = ({| events := evs; currentEvent := Some (setLine setp cur line) |}, k).
Proof.
  unfold opens, closes, step, parseLineWith, setLine. intros -> ->. simpl.
  destruct (JS.includes ":" (JS.trim line)); reflexivity.
Qed.

Lemma closes_not_opens (line : string) :
  closes line = true -> opens line = false.
Proof.
  unfold opens, closes. intros H. apply String.eqb_eq in H. rewrite H.
  reflexivity.
Qed.

Lemma step_closes (evs : list Event) (cur : RawEvent) (line : string)
  (k : nat) :
  closes line = true ->
  step {| events := evs; currentEvent := Some cur |} line k
  = if JS.truthy (summary cur) && JS.truthy (dtstart cur)
    then ({| events := evs ++ [fst (make rt src cur k)];
             currentEvent := None |}, snd (make rt src cur k))
    else ({| events := evs; currentEvent := None |}, k).
Proof.
  intros H. pose proof (closes_not_opens _ H) as H'.
  unfold opens, closes, step, parseLineWith in *. rewrite H', H. simpl.
  destruct (JS.truthy (summary cur) && JS.truthy (dtstart cur)).
  - unfold bind. destruct (make rt src cur k); reflexivity.
  - reflexivity.
Qed.

Lemma loop_inner (body : list string) :
  inner body ->
  forall evs cur k,
    for_of step body {| events := evs; currentEvent := Some cur |} k
    = ({| events := evs;
          currentEvent := Some (fold_left (setLine setp) body cur) |}, k).
Proof.
  unfold inner. induction 1 as [|l body [Ho Hc] _ IH]; intros evs cur k.
  - reflexivity.
  - rewrite for_of_cons, step_inner by assumption. apply IH.
Qed.

(** A whole block, from its opening line to its closing line. *)
Lemma loop_block (opening closing : string) (body rest : list string)
  (st : ParseState) (k : nat) :
  opens opening = true -> closes closing = true -> inner body ->
  let cur := fold_left (setLine setp) body emptyRaw in
  for_of step (opening :: body ++ closing :: rest) st k
  = if JS.truthy (summary cur) && JS.truthy (dtstart cur)
    then for_of step rest
           {| events := events st ++ [fst (make rt src cur k)];
              currentEvent := None |} (snd (make rt src cur k))
    else for_of step rest {| events := events st; currentEvent := None |} k.
Proof.
  intros Ho Hc Hb cur.
  rewrite for_of_cons, step_opens by assumption. simpl fst; simpl snd.
  rewrite for_of_app, loop_inner by assumption. simpl fst; simpl snd.
  rewrite for_of_cons, step_closes by assumption. fold cur.
  destruct (JS.truthy (summary cur) && JS.truthy (dtstart cur)); reflexivity.
Qed.

(** The field [g] of the accumulator holds what the block supplies. *)
Lemma collected_field (g : RawEvent -> option string) (names : list string) :
  writes setp g names ->
  forall body cur,
    g (fold_left (setLine setp) body cur)
    = match supplied names body with
      | Some v => Some v
      | None => g cur
      end.
Proof.
  intros W lines. induction lines as [|l lines IH]; intros cur.
  - reflexivity.
  - simpl. rewrite IH. destruct (supplied names lines); [reflexivity|].
    unfold setLine. destruct (JS.includes ":" (JS.trim l)); simpl.
    + rewrite W. destruct (existsb _ names); reflexivity.
    + reflexivity.
Qed.

End Blocks.

(** *** What the [switch] writes *)

Ltac by_key key :=
  repeat match goal with
    | |- context [String.eqb key ?c] =>
        destruct (String.eqb_spec key c); [subst key; reflexivity|]
    end;
  reflexivity.

Lemma writes_summary (v : Version) : writes (setProperty_of v) summary SUMMARY.
Proof.
  intros cur key value.
  destruct v; unfold setProperty_of, Server.setProperty,
    ServerBackup.setProperty, SUMMARY; simpl existsb; by_key key.
Qed.

Lemma writes_dtstart (v : Version) : writes (setProperty_of v) dtstart DTSTART.
Proof.
  intros cur key value.
  destruct v; unfold setProperty_of, Server.setProperty,
    ServerBackup.setProperty, DTSTART; simpl existsb; by_key key.
Qed.

Lemma writes_dtend (v : Version) : writes (setProperty_of v) dtend DTEND.
Proof.
  intros cur key value.
  destruct v; unfold setProperty_of, Server.setProperty,
    ServerBackup.setProperty, DTEND; simpl existsb; by_key key.
Qed.

Lemma writes_uid (v : Version) : writes (setProperty_of v) uid UID.
Proof.
  intros cur key value.
  destruct v; unfold setProperty_of, Server.setProperty,
    ServerBackup.setProperty, UID; simpl existsb; by_key key.
Qed.

Lemma collected_summary (v : Version) (lines : list string) :
  summary (collected v lines) = supplied SUMMARY lines.
Proof.
  unfold collected.
  rewrite (collected_field _ summary SUMMARY (writes_summary v)).
  destruct (supplied SUMMARY lines); reflexivity.
Qed.

Lemma collected_dtstart (v : Version) (lines : list string) :
  dtstart (collected v lines) = supplied DTSTART lines.
Proof.
  unfold collected.
  rewrite (collected_field _ dtstart DTSTART (writes_dtstart v)).
  destruct (supplied DTSTART lines); reflexivity.
Qed.

Lemma collected_dtend (v : Version) (lines : list string) :
  dtend (collected v lines) = supplied DTEND lines.
Proof.
  unfold collected.
  rewrite (collected_field _ dtend DTEND (writes_dtend v)).
  destruct (supplied DTEND lines); reflexivity.
Qed.

Lemma collected_uid (v : Version) (lines : list string) :
  uid (collected v lines) = supplied UID lines.
Proof.
  unfold collected.
  rewrite (collected_field _ uid UID (writes_uid v)).
  destruct (supplied UID lines); reflexivity.
Qed.

(** The block rule for either variant of the parser. *)
Lemma parse_block (v : Version) (rt : Runtime) (src opening closing : string)
  (lines rest : list string) (st : ParseState) (k : nat) :
  opens opening = true -> closes closing = true -> inner lines ->
  for_of (parseLine_of v rt src) (opening :: lines ++ closing :: rest) st k
  = if JS.truthy (supplied SUMMARY lines) && JS.truthy (supplied DTSTART lines)
    then for_of (parseLine_of v rt src) rest
           {| events := events st
                        ++ [fst (makeEvent_of v rt src (collected v lines) k)];
              currentEvent := None |}
           (snd (makeEvent_of v rt src (collected v lines) k))
    else for_of (parseLine_of v rt src) rest
           {| events := events st; currentEvent := None |} k.
Proof.
  intros Ho Hc Hb. rewrite parseLine_of_eq.
  rewrite (loop_block _ _ rt src opening closing lines rest st k Ho Hc Hb).
  fold (collected v lines).
  rewrite collected_summary, collected_dtstart. reflexivity.
Qed.

(* ================================================================== *)
(** ** Strings                                                         *)
(* ================================================================== *)

Lemma prefix_empty (s : string) : prefix "" s = true.
Proof. destruct s; reflexivity. Qed.

Lemma split_nonempty (sep : ascii) (s : string) :
  JS.split sep s = hd "" (JS.split sep s) :: tl (JS.split sep s).
Proof.
  destruct s as [|c s]; simpl.
  - reflexivity.
  - destruct (Ascii.eqb c sep); [reflexivity|].
    destruct (JS.split sep s); reflexivity.
Qed.

Lemma split_other (sep c : ascii) (s : string) :
  Ascii.eqb c sep = false ->
  JS.split sep (String c s)
  = String c (hd "" (JS.split sep s)) :: tl (JS.split sep s).
Proof.
  intros H. simpl. rewrite H, (split_nonempty sep s). reflexivity.
Qed.

Lemma join_cons (sep h : string) (t : list string) :
  t <> [] -> JS.join sep (h :: t) = h ++ sep ++ JS.join sep t.
Proof. destruct t; [congruence | reflexivity]. Qed.

Lemma join_split (sep : ascii) (s : string) :
  JS.join (String sep "") (JS.split sep s) = s.
Proof.
  induction s as [|c s IH].
  - reflexivity.
  - simpl JS.split. destruct (Ascii.eqb_spec c sep) as [->|Hne].
    + rewrite join_cons by (rewrite split_nonempty; discriminate).
      simpl. now rewrite IH.
    + destruct (JS.split sep s) as [|h t] eqn:E.
      * rewrite split_nonempty in E. discriminate E.
      * destruct t as [|x t]; simpl in *; now rewrite IH.
Qed.

(** Splitting a text gives back the lines it was made of. *)
Lemma split_line (l : string) (r : string) :
  one_line l = true ->
  JS.split LF (l ++ String LF r) = l :: JS.split LF r.
Proof.
  induction l as [|c l IH]; intros H.
  - reflexivity.
  - simpl in H. apply andb_prop in H as [Hc Hl].
    apply negb_true_iff in Hc.
    change ((String c l ++ String LF r)) with (String c (l ++ String LF r)).
    rewrite split_other, IH by assumption. reflexivity.
Qed.

Lemma split_last_line (l : string) :
  one_line l = true -> JS.split LF l = [l].
Proof.
  induction l as [|c l IH]; intros H.
  - reflexivity.
  - simpl in H. apply andb_prop in H as [Hc Hl].
    apply negb_true_iff in Hc.
    rewrite split_other, IH by assumption. reflexivity.
Qed.

Lemma split_unlines (lines : list string) :
  lines <> [] -> Forall (fun l => one_line l = true) lines ->
  JS.split LF (unlines lines) = lines.
Proof.
  intros Hne H. induction H as [|l lines Hl _ IH]; [congruence|].
  destruct lines as [|l' lines'].
  - apply split_last_line, Hl.
  - unfold unlines in *. rewrite join_cons by discriminate.
    change (String LF "" ++ ?x) with (String LF x).
    rewrite split_line by assumption. f_equal. apply IH. discriminate.
Qed.

Lemma trimEnd_cons (c : ascii) (s : string) :
  JS.is_ws c = false -> JS.trimEnd (String c s) = String c (JS.trimEnd s).
Proof.
  intros H. simpl. rewrite H. destruct (JS.trimEnd s); reflexivity.
Qed.

(** The name and the value of a property line. *)
Lemma key_value (name value : string) :
  JS.includes ":" name = false ->
  key_of (name ++ ":" ++ value) = name
  /\ value_of (name ++ ":" ++ value) = value.
Proof.
  unfold key_of, value_of. induction name as [|c name IH]; intros H.
  - simpl. split; [reflexivity | apply (join_split ":")].
  - assert (Hc : Ascii.eqb c ":" = false).
    { destruct (Ascii.eqb_spec c ":") as [->|]; [|reflexivity].
      cbn in H. rewrite prefix_empty in H. discriminate H. }
    assert (Hn : JS.includes ":" name = false).
    { simpl in H. apply orb_false_iff in H as [_ H]. exact H. }
    destruct (IH Hn) as [IHk IHv].
    change (String c name ++ ":" ++ value)
      with (String c (name ++ ":" ++ value)).
    rewrite split_other by assumption. cbn [hd tl]. rewrite IHk. split; auto.
Qed.

(* ================================================================== *)
(** ** The event pushed at the end of a block                          *)
(* ================================================================== *)

Lemma makeEvent_common (v : Version) (rt : Runtime) (src : string)
  (cur : RawEvent) (k : nat) :
  let e := fst (makeEvent_of v rt src cur k) in
  id e = (if JS.truthy (uid cur) then JS.or_empty (uid cur)
          else JS.toString (Date_now rt k))
  /\ title e = JS.or_empty (summary cur)
  /\ date e = fst (formatICSDate rt (dtstart cur) (dateTick cur k))
  /\ source e = src
  /\ priority e = "medium".
Proof.
  unfold dateTick.
  destruct v; unfold makeEvent_of, Server.makeEvent, ServerBackup.makeEvent,
    bind, ret, now;
    destruct (JS.truthy (uid cur));
    match goal with
    | |- context [formatICSDate ?r ?d ?t] => destruct (formatICSDate r d t)
    end; simpl; auto.
Qed.

Lemma makeEvent_current (rt : Runtime) (src : string) (cur : RawEvent)
  (k : nat) :
  let e := fst (Server.makeEvent rt src cur k) in
  time e = Server.formatICSTime (dtstart cur)
  /\ duration e = Server.calculateDuration rt (dtstart cur) (dtend cur)
  /\ isAllDay e = None.
Proof.
  unfold Server.makeEvent, bind, ret, now.
  destruct (JS.truthy (uid cur));
    match goal with
    | |- context [formatICSDate ?r ?d ?t] => destruct (formatICSDate r d t)
    end; simpl; auto.
Qed.

Lemma makeEvent_backup (rt : Runtime) (src : string) (cur : RawEvent)
  (k : nat) :
  let e := fst (ServerBackup.makeEvent rt src cur k) in
  time e = (if ServerBackup.allDay cur then "All day"
            else ServerBackup.formatICSTime (dtstart cur))
  /\ duration e = ServerBackup.calculateDuration rt (dtstart cur) (dtend cur)
                    (ServerBackup.allDay cur)
  /\ isAllDay e = Some (ServerBackup.allDay cur).
Proof.
  unfold ServerBackup.makeEvent, bind, ret, now.
  destruct (JS.truthy (uid cur));
    match goal with
    | |- context [formatICSDate ?r ?d ?t] => destruct (formatICSDate r d t)
    end; simpl; auto.
Qed.

(** The parser on a text that is one block. *)
Lemma parse_one_block (v : Version) (rt : Runtime) (src : string)
  (opening closing : string) (lines : list string) (k : nat) :
  opens opening = true -> closes closing = true -> inner lines ->
  Forall (fun l => one_line l = true) (opening :: lines ++ [closing]) ->
  parseICSData_of v rt (unlines (opening :: lines ++ [closing])) src k
  = if JS.truthy (supplied SUMMARY lines) && JS.truthy (supplied DTSTART lines)
    then ([fst (makeEvent_of v rt src (collected v lines) k)],
          snd (makeEvent_of v rt src (collected v lines) k))
    else ([], k).
Proof.
  intros Ho Hc Hb Hl.
  set (text := unlines (opening :: lines ++ [closing])).
  assert (E : parseICSData_of v rt text src k
              = (events (fst (for_of (parseLine_of v rt src)
                                (opening :: lines ++ [closing])
                                {| events := []; currentEvent := None |} k)),
                 snd (for_of (parseLine_of v rt src)
                        (opening :: lines ++ [closing])
                        {| events := []; currentEvent := None |} k))).
  { unfold text.
    destruct v; unfold parseICSData_of, Server.parseICSData,
      ServerBackup.parseICSData, bind, ret;
      rewrite split_unlines by (assumption || discriminate);
      unfold parseLine_of;
      match goal with
      | |- context [for_of ?b ?l ?s ?t] => destruct (for_of b l s t)
      end; reflexivity. }
  rewrite E, parse_block by assumption.
  destruct (JS.truthy (supplied SUMMARY lines)
            && JS.truthy (supplied DTSTART lines)); reflexivity.
Qed.

(* ================================================================== *)
(** ** Well-formed blocks                                              *)
(* ================================================================== *)

Lemma supplied_cons (names : list string) (l : string) (rest : list string) :
  supplied names (l :: rest)
  = match supplied names rest with
    | Some v => Some v
    | None =>
        if JS.includes ":" (JS.trim l)
           && existsb (String.eqb (key_of (JS.trim l))) names
        then Some (value_of (JS.trim l))
        else None
    end.
Proof. reflexivity. Qed.



(** *** The time of the event of a block *)

Lemma backup_dtstartType (cur : RawEvent) (key value : string) :
  dtstartType (ServerBackup.setProperty cur key value)
  = if key =? "DTSTART" then Some DATETIME
    else if key =? "DTSTART;VALUE=DATE" then Some DATE
         else dtstartType cur.
Proof. unfold ServerBackup.setProperty. by_key key. Qed.

Lemma folded_dtstartType (body : list string) (cur : RawEvent) :
  dtstartType (fold_left (setLine ServerBackup.setProperty) body cur)
  = match startName body with
    | Some n => Some (if n =? "DTSTART;VALUE=DATE" then DATE else DATETIME)
    | None => dtstartType cur
    end.
Proof.
  revert cur. induction body as [|l body IH]; intros cur; [reflexivity|].
  cbn [fold_left startName]. rewrite IH.
  destruct (startName body); [reflexivity|].
  unfold setLine. destruct (JS.includes ":" (JS.trim l)); cbn [andb];
    [|reflexivity].
  rewrite backup_dtstartType. unfold DTSTART. cbn [existsb].
  destruct (String.eqb_spec (key_of (JS.trim l)) "DTSTART") as [-> | _];
    [reflexivity|].
  cbn [orb]. rewrite orb_false_r.
  destruct (key_of (JS.trim l) =? "DTSTART;VALUE=DATE") eqn:E;
    [now rewrite E | reflexivity].
Qed.

Lemma backup_allDay (lines : list string) :
  ServerBackup.allDay (collected Backup lines)
  = startsAsDate lines
    || (negb (JS.includes "T" (JS.or_empty (supplied DTSTART lines)))
        && (String.length (JS.or_empty (supplied DTSTART lines)) =? 8)%nat).
Proof.
  unfold ServerBackup.allDay, startsAsDate.
  rewrite collected_dtstart. unfold collected, setProperty_of.
  rewrite folded_dtstartType. cbn [dtstartType emptyRaw].
  destruct (startName lines) as [n|]; [|reflexivity].
  destruct (n =? "DTSTART;VALUE=DATE"); reflexivity.
Qed.

Lemma block_time (v : Version) (rt : Runtime) (src : string)
  (lines : list string) (k : nat) :
  time (fst (makeEvent_of v rt src (collected v lines) k))
  = timeOfBlock v lines.
Proof.
  destruct v; unfold makeEvent_of, timeOfBlock.
  - destruct (makeEvent_current rt src (collected Current lines) k)
      as (-> & _).
    now rewrite collected_dtstart.
  - destruct (makeEvent_backup rt src (collected Backup lines) k)
      as (-> & _).
    now rewrite backup_allDay, collected_dtstart.
Qed.





(* ================================================================== *)
(** ** The sort                                                        *)
(* ================================================================== *)

Section Sorting.

Context {A : Type} (cmp : A -> A -> option Z) (key : A -> Z).

Lemma keyed_incl (l l' : list A) :
  incl l' l -> keyed cmp key l -> keyed cmp key l'.
Proof. intros Hi Hk a b Ha Hb. apply Hk; apply Hi; assumption. Qed.

Lemma insert_perm (x : A) (l : list A) : Permutation (x :: l) (insert cmp x l).
Proof.
  induction l as [|y l IH]; simpl.
  - reflexivity.
  - destruct (before cmp x y).
    + reflexivity.
    + rewrite perm_swap. now apply perm_skip.
Qed.

Lemma sort_perm (l : list A) : Permutation l (sort cmp l).
Proof.
  induction l as [|x l IH]; simpl.
  - reflexivity.
  - rewrite <- insert_perm. now apply perm_skip.
Qed.

Lemma insert_ascending (x : A) (l : list A) :
  keyed cmp key (x :: l) -> ascending key l -> ascending key (insert cmp x l).
Proof.
  unfold ascending. intros Hk Hs. induction Hs as [|y l Hs IH Hy]; simpl.
  - repeat constructor.
  - rewrite (Hk x y) by (simpl; auto).
    destruct (Z.leb_spec (key x) (key y)) as [Hle|Hgt].
    + constructor; [constructor; assumption|].
      constructor; [exact Hle|].
      rewrite Forall_forall in Hy |- *. intros z Hz.
      specialize (Hy z Hz). lia.
    + constructor.
      * apply IH. eapply keyed_incl; [|exact Hk].
        intros z [->|Hz]; simpl; auto.
      * rewrite Forall_forall in Hy |- *. intros z Hz.
        apply (Permutation_in _ (Permutation_sym (insert_perm x l))) in Hz.
        destruct Hz as [<-|Hz]; [lia | now apply Hy].
Qed.

Lemma sort_ascending (l : list A) :
  keyed cmp key l -> ascending key (sort cmp l).
Proof.
  induction l as [|x l IH]; intros Hk; simpl.
  - constructor.
  - apply insert_ascending.
    + eapply keyed_incl; [|exact Hk].
      intros z [->|Hz]; [now left | right].
      apply (Permutation_in _ (Permutation_sym (sort_perm l))), Hz.
    + apply IH. eapply keyed_incl; [|exact Hk]. intros z Hz; now right.
Qed.

(** Stability: the elements of any one key keep their order. *)
Lemma insert_stable (d : Z) (x : A) (l : list A) :
  keyed cmp key (x :: l) ->
  filter (fun e => (key e =? d)%Z) (insert cmp x l)
  = filter (fun e => (key e =? d)%Z) (x :: l).
Proof.
  intros Hk. induction l as [|y l IH]; simpl.
  - reflexivity.
  - rewrite (Hk x y) by (simpl; auto).
    destruct (Z.leb_spec (key x) (key y)) as [Hle|Hgt]; [reflexivity|].
    simpl. rewrite IH.
    + simpl. destruct (Z.eqb_spec (key y) d), (Z.eqb_spec (key x) d);
        try reflexivity. lia.
    + eapply keyed_incl; [|exact Hk]. intros z [->|Hz]; simpl; auto.
Qed.

Lemma sort_stable (d : Z) (l : list A) :
  keyed cmp key l ->
  filter (fun e => (key e =? d)%Z) (sort cmp l)
  = filter (fun e => (key e =? d)%Z) l.
Proof.
  induction l as [|x l IH]; intros Hk; simpl.
  - reflexivity.
  - rewrite insert_stable.
    + simpl. rewrite IH; [reflexivity|].
      eapply keyed_incl; [|exact Hk]. intros z Hz; now right.
    + eapply keyed_incl; [|exact Hk].
      intros z [->|Hz]; [now left | right].
      apply (Permutation_in _ (Permutation_sym (sort_perm l))), Hz.
Qed.

(** When no comparison is positive, nothing moves. *)
Lemma sort_unmoved (l : list A) :
  (forall a b, In a l -> In b l -> before cmp a b = true) ->
  sort cmp l = l.
Proof.
  induction l as [|x l IH]; intros H; simpl.
  - reflexivity.
  - rewrite IH by (intros a b Ha Hb; apply H; now right).
    destruct l as [|y l]; simpl; [reflexivity|].
    rewrite (H x y) by (simpl; auto). reflexivity.
Qed.

End Sorting.

(** On events with a valid date the comparator orders by their instant. *)
Lemma compareDates_keyed (rt : Runtime) (l : list Event) :
  Forall (dated rt) l -> keyed (compareDates rt) (instantOf rt) l.
Proof.
  intros H a b Ha Hb. rewrite Forall_forall in H.
  pose proof (H a Ha) as Da. pose proof (H b Hb) as Db.
  unfold dated, before, compareDates, instantOf, diff_ms in *.
  destruct (Date_parse rt (date a)) as [ta|]; [|congruence].
  destruct (Date_parse rt (date b)) as [tb|]; [|congruence].
  destruct (Z.leb_spec (ta - tb) 0), (Z.leb_spec ta tb); (reflexivity || lia).
Qed.

Lemma notActioned_actioned (st : Store) (e : Event) :
  notActioned st e = negb (actioned st e).
Proof. unfold notActioned, actioned. now rewrite negb_orb. Qed.

(** The response of the aggregation, in terms of the array [allEvents]. *)
Lemma handleAppleCalendar_eq (parse : Parser) (rt : Runtime) (env : Env)
  (net : Network) (st : Store) (k : nat) :
  let acc := allEvents (fst (fetchAll parse rt env net k)) in
  let kept := sort (compareDates rt) (filter (notActioned st) acc) in
  handleAppleCalendar parse rt env net st k
  = ({| resp_events := kept;
        total_events := List.length acc;
        filtered_events := List.length kept;
        completed_count := JS.size (completedEvents st);
        dismissed_count := JS.size (dismissedEvents st);
        sources :=
          map (fun s => (name s, negb (notConfigured (url s))))
            (calendarSources env) |},
     snd (fetchAll parse rt env net k)).
Proof.
  unfold handleAppleCalendar, bind, ret.
  destruct (fetchAll parse rt env net k); reflexivity.
Qed.

(** C2.  The events returned by the aggregation are the accumulated events
    without those whose id is in the completed or the dismissed set, in some
    order: this part holds for every list of accumulated events.  The order
    is ascending by the instant of the date field, events of one date
    staying in the order in which they were accumulated, when the date of
    every returned event is a valid date; the events that the filter removes
    play no part.  When the comparator cannot tell any two returned events
    apart (its result is 0 or NaN for every pair, as it is when a date is
    not valid), they stay in the order in which they were accumulated,
    whatever their date fields say. *)
Theorem calendar_filters_then_sorts_by_date (parse : Parser) (rt : Runtime)
  (env : Env) (net : Network) (st : Store) (k : nat) :
  let acc := allEvents (fst (fetchAll parse rt env net k)) in
  let kept := filter (fun e => negb (actioned st e)) acc in
  let result := resp_events (fst (handleAppleCalendar parse rt env net st k)) in
  Permutation result kept
  /\ (forall e,
        In e result
        <-> In e acc
            /\ JS.has (completedEvents st) (JS.Scalar (JS.Str (id e))) = false
            /\ JS.has (dismissedEvents st) (JS.Scalar (JS.Str (id e)))
               = false)
  /\ (Forall (dated rt) kept ->
      StronglySorted (fun a b => (instantOf rt a <= instantOf rt b)%Z) result
      /\ forall d,
           filter (fun e => (instantOf rt e =? d)%Z) result
           = filter (fun e => (instantOf rt e =? d)%Z) kept)
  /\ ((forall a b, In a kept -> In b kept -> tied rt a b) -> result = kept).
Proof.
  intros acc kept result.
  assert (Hk : kept = filter (notActioned st) acc).
  { unfold kept. apply filter_ext. intros e.
    now rewrite notActioned_actioned. }
  assert (Hr : result = sort (compareDates rt) kept).
  { unfold result. rewrite handleAppleCalendar_eq, Hk. reflexivity. }
  rewrite Hr. split; [|split; [|split]].
  - symmetry. apply sort_perm.
  - intros e. split.
    + intros He.
      apply (Permutation_in _ (Permutation_sym (sort_perm _ kept))) in He.
      unfold kept in He. apply filter_In in He as [Hin Ha].
      unfold actioned in Ha. apply negb_true_iff, orb_false_iff in Ha.
      tauto.
    + intros (Hin & Hc & Hdm).
      apply (Permutation_in _ (sort_perm _ kept)).
      unfold kept. apply filter_In. split; [exact Hin|].
      unfold actioned. now rewrite Hc, Hdm.
  - intros Hd. pose proof (compareDates_keyed rt kept Hd) as Hkeyed. split.
    + apply sort_ascending, Hkeyed.
    + intros d. apply sort_stable, Hkeyed.
  - intros Ht. apply sort_unmoved. intros a b Ha Hb.
    unfold before. destruct (Ht a b Ha Hb) as [-> | ->]; reflexivity.
Qed.

(* ================================================================== *)
(** ** The loop over the sources                                       *)
(* ================================================================== *)

Section Sources.

Variable parse : Parser.
Variable rt : Runtime.
Variable net : Network.

Let configured (s : CalendarSource) : bool := negb (notConfigured (url s)).

(** A turn of the loop sends one request exactly when the source is
    configured, and never removes an event. *)
Lemma fetchSource_requests (fs : FetchState) (src : CalendarSource) (k : nat) :
  requests (fst (fetchSource parse rt net fs src k))
  = (requests fs + (if configured src then 1 else 0))%nat.
Proof.
  unfold fetchSource, configured, bind, ret.
  destruct (notConfigured (url src)); simpl; [lia|].
  destruct (net (requests fs) _) as [|[|] [t|]]; simpl; try lia.
  destruct (parse rt t (name src) k); simpl; lia.
Qed.

Lemma fetchSource_keeps (fs : FetchState) (src : CalendarSource) (k : nat)
  (e : Event) :
  In e (allEvents fs) ->
  In e (allEvents (fst (fetchSource parse rt net fs src k))).
Proof.
  unfold fetchSource, bind, ret. intros H.
  destruct (notConfigured (url src)); simpl; [exact H|].
  destruct (net (requests fs) _) as [|[|] [t|]]; simpl; try exact H.
  destruct (parse rt t (name src) k); simpl.
  apply in_or_app. now left.
Qed.

Lemma fetch_loop_keeps (l : list CalendarSource) (fs : FetchState) (k : nat)
  (e : Event) :
  In e (allEvents fs) ->
  In e (allEvents (fst (for_of (fetchSource parse rt net) l fs k))).
Proof.
  revert fs k. induction l as [|a l IH]; intros fs k H.
  - exact H.
  - rewrite for_of_cons. apply IH, fetchSource_keeps, H.
Qed.

(** A configured source whose own request succeeds has all its events in
    [allEvents], whatever became of the sources before and after it. *)
Lemma fetch_loop_contains (l : list CalendarSource) :
  forall (fs : FetchState) (k i : nat) (src : CalendarSource) (text : string),
    nth_error l i = Some src ->
    notConfigured (url src) = false ->
    net (requests fs + List.length (filter configured (firstn i l)))
      (calendarUrl src) = Response true (Some text) ->
    exists k_i,
      forall e,
        In e (fst (parse rt text (name src) k_i)) ->
        In e (allEvents (fst (for_of (fetchSource parse rt net) l fs k))).
Proof.
  induction l as [|a l IH]; intros fs k i src text Hn Hc Hnet.
  - destruct i; discriminate Hn.
  - destruct i as [|i].
    + injection Hn as ->. simpl in Hnet. rewrite Nat.add_0_r in Hnet.
      exists k. intros e He. rewrite for_of_cons.
      apply fetch_loop_keeps.
      unfold fetchSource, bind, ret. rewrite Hc.
      fold (calendarUrl src). rewrite Hnet.
      destruct (parse rt text (name src) k); simpl in *.
      apply in_or_app. now right.
    + simpl in Hn.
      destruct (IH (fst (fetchSource parse rt net fs a k))
                  (snd (fetchSource parse rt net fs a k)) i src text Hn Hc)
        as (k_i & Hk).
      * rewrite fetchSource_requests. simpl firstn in Hnet.
        simpl filter in Hnet. destruct (configured a); simpl in Hnet.
        -- now rewrite <- Nat.add_assoc.
        -- now rewrite Nat.add_0_r.
      * exists k_i. intros e He. rewrite for_of_cons. now apply Hk.
Qed.

End Sources.

(** C3.  A failure of one calendar source does not abort the aggregation.
    Whatever the network answers to the other requests, a configured source
    whose own request succeeds has every event of its feed among the
    accumulated events, and in the response unless an action set holds its
    id; and the response lists the three sources with their configuration
    status, which does not depend on the network. *)
Theorem source_failure_is_isolated (parse : Parser) (rt : Runtime) (env : Env)
  (net : Network) (st : Store) (k : nat) :
  let resp := fst (handleAppleCalendar parse rt env net st k) in
  sources resp
  = [("Todoist", negb (notConfigured (TODOIST_CALENDAR_URL env)));
     ("Apple Calendar", negb (notConfigured (APPLE_CALENDAR_URL env)));
     ("UK Holidays", negb (notConfigured (UK_HOLIDAYS_CALENDAR_URL env)))]
  /\ forall i src text,
       nth_error (calendarSources env) i = Some src ->
       notConfigured (url src) = false ->
       net (requestIndex env i) (calendarUrl src)
       = Response true (Some text) ->
       exists k_i,
         forall e,
           In e (fst (parse rt text (name src) k_i)) ->
           In e (allEvents (fst (fetchAll parse rt env net k)))
           /\ (actioned st e = false -> In e (resp_events resp)).
Proof.
  intros resp. unfold resp. rewrite handleAppleCalendar_eq. simpl fst.
  split; [reflexivity|].
  intros i src text Hn Hc Hnet.
  destruct (fetch_loop_contains parse rt net (calendarSources env)
              {| allEvents := []; requests := 0 |} k i src text Hn Hc Hnet)
    as (k_i & Hk).
  exists k_i. intros e He. specialize (Hk e He). split; [exact Hk|].
  intros Ha. cbn [resp_events].
  apply (Permutation_in _ (sort_perm _ _)), filter_In.
  split; [exact Hk|]. now rewrite notActioned_actioned, Ha.
Qed.

(* ================================================================== *)
(** ** The weather cache                                               *)
(* ================================================================== *)

(** [Math.round] of a quotient is within half a unit of it, a tie going
    up. *)
Lemma round_div_bounds (n d : Z) :
  (0 < d)%Z ->
  (2 * d * JS.round_div n d - d <= 2 * n < 2 * d * JS.round_div n d + d)%Z.
Proof.
  intros Hd. unfold JS.round_div.
  pose proof (Z.div_mod (2 * n + d) (2 * d) ltac:(lia)) as E.
  pose proof (Z.mod_pos_bound (2 * n + d) (2 * d) ltac:(lia)) as B.
  lia.
Qed.

Lemma configured_key_passes (env : Env) :
  configured_key env ->
  (OPENWEATHER_API_KEY env =? "")
  || (OPENWEATHER_API_KEY env =? "your_openweather_api_key_here") = false.
Proof.
  intros [H1 H2]. apply String.eqb_neq in H1, H2. now rewrite H1, H2.
Qed.

(** C4.  With the API key configured, and [t] the clock reading taken by
    the read:
    - if the slot holds an entry whose age is strictly less than 30 minutes,
      the response is that entry's data with [cached = true] and
      [cache_age_minutes] the age rounded to the minute, no upstream is
      contacted and the store is unchanged;
    - if the slot is empty or the age is 30 minutes or more, the primary
      endpoint is contacted; when it answers with a payload, or when it asks
      for the fallback and the secondary endpoint answers with a payload,
      the slot is overwritten with that payload and [t] and the response
      carries [cached = false]; and no response with [cached = false] leaves
      the slot without its payload and [t]. *)
Theorem weather_cache_ttl (rt : Runtime) (env : Env)
  (upstream : Endpoint -> Upstream) (st : Store) (k : nat) :
  configured_key env ->
  let t := Date_now rt k in
  let result := handleWeather rt env upstream st k in
  (forall c,
      weatherCache st = Some c ->
      (t - timestamp c < 30 * 60 * 1000)%Z ->
      let age := JS.round_div (t - timestamp c) 60000 in
      result = (WeatherCached (data c) age, st, [], S k)
      /\ cached (WeatherCached (data c) age) = Some true
      /\ (60000 * age - 30000 <= t - timestamp c < 60000 * age + 30000)%Z)
  /\ ((weatherCache st = None
       \/ exists c, weatherCache st = Some c
                    /\ (30 * 60 * 1000 <= t - timestamp c)%Z) ->
      (exists more, snd (fst result) = OneCall30 :: more)
      /\ (forall s d,
             upstream OneCall30 = Reply true s (JsonObject d) ->
             result
             = (WeatherFresh d (toISOString rt (Date_now rt (S k)))
                  (apiVersion d),
                refreshed st d t, [OneCall30], S (S k)))
      /\ (forall s d s2 d2,
             upstream OneCall30 = Reply false s (JsonObject d) ->
             wantsFallback false (Some d) = Some true ->
             upstream Weather25 = Reply true s2 (JsonObject d2) ->
             result
             = (WeatherFresh d2 (toISOString rt (Date_now rt (S k)))
                  (apiVersion d2),
                refreshed st d2 t, [OneCall30; Weather25], S (S k)))
      /\ (forall r st' contacted k',
             result = (r, st', contacted, k') ->
             cached r = Some false ->
             exists d ft ver,
               r = WeatherFresh d ft ver /\ st' = refreshed st d t)).
Proof.
  intros Hkey t result. unfold result, handleWeather.
  rewrite (configured_key_passes env Hkey). unfold bind, now. fold t.
  split.
  - intros c Hc Hage. rewrite Hc.
    apply Z.ltb_lt in Hage. unfold WEATHER_CACHE_DURATION. rewrite Hage.
    split; [reflexivity|]. split; [reflexivity|].
    pose proof (round_div_bounds (t - timestamp c) 60000 ltac:(lia)).
    lia.
  - intros Hmiss.
    assert (E : match weatherCache st with
                | Some c =>
                    if (t - timestamp c <? WEATHER_CACHE_DURATION)%Z
                    then ret (WeatherCached (data c)
                                (JS.round_div (t - timestamp c) 60000),
                              st, [])
                    else fetchWeather rt upstream st t
                | None => fetchWeather rt upstream st t
                end = fetchWeather rt upstream st t).
    { destruct Hmiss as [-> | (c & -> & Hage)]; [reflexivity|].
      apply Z.ltb_ge in Hage. unfold WEATHER_CACHE_DURATION.
      now rewrite Hage. }
    rewrite E. clear E Hmiss.
    unfold fetchWeather, finishWeather, bind, ret, now.
    split; [|split; [|split]].
    + destruct (upstream OneCall30) as [|ok s j]; [now eexists|].
      destruct (json_data j) as [d|]; [|now eexists].
      destruct (wantsFallback ok d) as [[|]|]; try now eexists.
      * destruct (upstream Weather25) as [|ok2 s2 j2]; [now eexists|].
        destruct (json_data j2) as [d2|]; [|now eexists].
        destruct ok2; simpl; [destruct d2|]; now eexists.
      * destruct ok; simpl; [destruct d|]; now eexists.
    + intros s d ->. reflexivity.
    + intros s d s2 d2 E1 Hw E2. rewrite E1. cbn [json_data].
      rewrite Hw, E2. reflexivity.
    + intros r st' contacted k' Hres Hcached.
      destruct (upstream OneCall30) as [|ok s j];
        [injection Hres as <- <- <- <-; discriminate Hcached|].
      destruct (json_data j) as [d|];
        [|injection Hres as <- <- <- <-; discriminate Hcached].
      destruct (wantsFallback ok d) as [[|]|];
        [| |injection Hres as <- <- <- <-; discriminate Hcached].
      * destruct (upstream Weather25) as [|ok2 s2 j2];
          [injection Hres as <- <- <- <-; discriminate Hcached|].
        destruct (json_data j2) as [d2|];
          [|injection Hres as <- <- <- <-; discriminate Hcached].
        destruct ok2; simpl in Hres; [destruct d2 as [w|]|];
          injection Hres as <- <- <- <-; try discriminate Hcached.
        now eexists _, _, _.
      * destruct ok; simpl in Hres; [destruct d as [w|]|];
          injection Hres as <- <- <- <-; try discriminate Hcached.
        now eexists _, _, _.
Qed.

(* ================================================================== *)
(** ** All-day events                                                  *)
(* ================================================================== *)

Lemma parse_block_text (v : Version) (rt : Runtime) (src : string)
  (lines : list string) (k : nat) :
  inner lines -> Forall (fun l => one_line l = true) lines ->
  JS.truthy (supplied SUMMARY lines) = true ->
  JS.truthy (supplied DTSTART lines) = true ->
  parseICSData_of v rt (block lines) src k
  = ([fst (makeEvent_of v rt src (collected v lines) k)],
     snd (makeEvent_of v rt src (collected v lines) k)).
Proof.
  intros Hi Hl Hs Hd. unfold block.
  rewrite (parse_one_block v rt src "BEGIN:VEVENT" "END:VEVENT" lines k
             eq_refl eq_refl Hi).
  - now rewrite Hs, Hd.
  - constructor; [reflexivity|]. apply Forall_app. split; [exact Hl|].
    repeat constructor.
Qed.

(** C5, as amended.  For a block that supplies a summary and the start token
    [20250615] (for instance by the line [DTSTART;VALUE=DATE:20250615]):
    - the parser of [server-backup.ts] yields one event whose time is
      ["All day"] and whose duration is ["All day"];
    - the parser of [server.ts], which has no all-day flag, yields one event
      whose time is ["00:00"], and whose duration is ["1 hour"] when the
      block supplies no end token. *)
Theorem all_day_block (rt : Runtime) (src : string) (lines : list string)
  (k : nat) :
  inner lines -> Forall (fun l => one_line l = true) lines ->
  JS.truthy (supplied SUMMARY lines) = true ->
  supplied DTSTART lines = Some "20250615" ->
  (exists e k',
      ServerBackup.parseICSData rt (block lines) src k = ([e], k')
      /\ time e = "All day" /\ duration e = "All day"
      /\ isAllDay e = Some true)
  /\ (exists e k',
        Server.parseICSData rt (block lines) src k = ([e], k')
        /\ time e = "00:00"
        /\ (supplied DTEND lines = None -> duration e = "1 hour")).
Proof.
  intros Hi Hl Hs Hd.
  assert (Hd' : JS.truthy (supplied DTSTART lines) = true) by now rewrite Hd.
  split.
  - pose proof (parse_block_text Backup rt src lines k Hi Hl Hs Hd') as P.
    eexists _, _. split; [exact P|].
    destruct (makeEvent_backup rt src (collected Backup lines) k)
      as (Ht & Hdur & Ha).
    assert (Hall : ServerBackup.allDay (collected Backup lines) = true).
    { unfold ServerBackup.allDay. rewrite collected_dtstart, Hd.
      destruct (dtstartType (collected Backup lines)) as [[|]|]; reflexivity. }
    unfold makeEvent_of. rewrite Ht, Hdur, Ha, Hall.
    split; [reflexivity|]. split; [|reflexivity].
    unfold ServerBackup.calculateDuration.
    rewrite collected_dtstart, Hd. simpl.
    destruct (JS.truthy (dtend (collected Backup lines))); reflexivity.
  - pose proof (parse_block_text Current rt src lines k Hi Hl Hs Hd') as P.
    eexists _, _. split; [exact P|].
    destruct (makeEvent_current rt src (collected Current lines) k)
      as (Ht & Hdur & _).
    unfold makeEvent_of. rewrite Ht, Hdur, collected_dtstart, Hd.
    split; [reflexivity|]. intros He.
    unfold Server.calculateDuration. rewrite collected_dtend, He.
    reflexivity.
Qed.

(** The amended C5 at the bank-holiday block. *)
Lemma all_day_block_witness :
  (exists e k',
      ServerBackup.parseICSData demoRuntime
        (block ["SUMMARY:Summer bank holiday"; "DTSTART;VALUE=DATE:20250615"])
        "UK Holidays" 0 = ([e], k')
      /\ time e = "All day" /\ duration e = "All day"
      /\ isAllDay e = Some true)
  /\ (exists e k',
        Server.parseICSData demoRuntime
          (block ["SUMMARY:Summer bank holiday"; "DTSTART;VALUE=DATE:20250615"])
          "UK Holidays" 0 = ([e], k')
        /\ time e = "00:00"
        /\ (supplied DTEND
              ["SUMMARY:Summer bank holiday"; "DTSTART;VALUE=DATE:20250615"]
            = None -> duration e = "1 hour")).
Proof.
  apply (all_day_block demoRuntime "UK Holidays"
           ["SUMMARY:Summer bank holiday"; "DTSTART;VALUE=DATE:20250615"] 0).
  - repeat constructor.
  - repeat constructor.
  - reflexivity.
  - reflexivity.
Defined.

(** C5 as stated fails on [server.ts]: the block whose start is
    [DTSTART;VALUE=DATE:20250615] yields an event whose time is ["00:00"]
    and whose duration is ["1 hour"], neither being ["All day"]. *)
Lemma all_day_counterexample :
  exists e,
    Server.parseICSData demoRuntime
      (block ["SUMMARY:Summer bank holiday"; "DTSTART;VALUE=DATE:20250615"])
      "UK Holidays" 0 = ([e], 1)
    /\ time e = "00:00" /\ duration e = "1 hour"
    /\ time e <> "All day" /\ duration e <> "All day".
Proof.
  eexists. split; [vm_compute; reflexivity|].
  repeat split; discriminate.
Qed.

(* ================================================================== *)
(** ** Durations                                                       *)
(* ================================================================== *)

Lemma truthy_some (s : string) : s <> "" -> JS.truthy (Some s) = true.
Proof. destruct s; [congruence | reflexivity]. Qed.

Lemma backup_bucketed (rt : Runtime) (start end_ : string) (a b : Z) :
  start <> "" -> end_ <> "" ->
  ServerBackup.instant rt start = Some a ->
  ServerBackup.instant rt end_ = Some b ->
  bucketed (b - a)
    (ServerBackup.calculateDuration rt (Some start) (Some end_) false).
Proof.
  intros Hs He Ha Hb. unfold ServerBackup.calculateDuration.
  rewrite (truthy_some _ Hs), (truthy_some _ He). cbn [negb JS.or_empty].
  rewrite Ha, Hb. cbn [diff_ms]. set (d := (b - a)%Z).
  change (1000 * 60 * 60 * 24)%Z with 86400000%Z.
  change (1000 * 60 * 60)%Z with 3600000%Z.
  change (1000 * 60)%Z with 60000%Z.
  unfold bucketed.
  destruct (Z.leb_spec d 0);
    destruct (Z.ltb_spec 0 (d / 86400000));
    destruct (Z.ltb_spec 0 (JS.round_div d 3600000));
    destruct (Z.ltb_spec 0 (JS.round_div d 60000));
    repeat split; intros; try reflexivity; exfalso;
    unfold JS.round_div in *; Z.to_euclidean_division_equations; lia.
Qed.

Lemma backup_default (rt : Runtime) (start end_ : option string) :
  JS.truthy start = false \/ JS.truthy end_ = false
  \/ ServerBackup.instant rt (JS.or_empty start) = None
  \/ ServerBackup.instant rt (JS.or_empty end_) = None ->
  ServerBackup.calculateDuration rt start end_ false = "1 hour".
Proof.
  unfold ServerBackup.calculateDuration.
  intros [H | [H | [H | H]]].
  - now rewrite H.
  - rewrite H. now destruct (JS.truthy start).
  - rewrite H. destruct (JS.truthy start), (JS.truthy end_); reflexivity.
  - rewrite H. destruct (JS.truthy start), (JS.truthy end_); try reflexivity.
    now destruct (ServerBackup.instant rt (JS.or_empty start)).
Qed.

Lemma current_hoursOnly (rt : Runtime) (start end_ : string) (a b : Z) :
  start <> "" -> end_ <> "" ->
  instantCurrent rt start = Some a ->
  instantCurrent rt end_ = Some b ->
  hoursOnly (b - a) (Server.calculateDuration rt (Some start) (Some end_)).
Proof.
  intros Hs He Ha Hb. unfold Server.calculateDuration.
  rewrite (truthy_some _ Hs), (truthy_some _ He). cbn [negb JS.or_empty orb].
  unfold instantCurrent in Ha, Hb. rewrite Ha, Hb. cbn [diff_ms].
  set (d := (b - a)%Z). change (1000 * 60 * 60)%Z with 3600000%Z.
  unfold hoursOnly.
  destruct (Z.ltb_spec 0 (JS.round_div d 3600000));
    split; intros; try reflexivity; exfalso;
    unfold JS.round_div in *; Z.to_euclidean_division_equations; lia.
Qed.

Lemma current_default (rt : Runtime) (start end_ : option string) :
  JS.truthy start = false \/ JS.truthy end_ = false
  \/ instantCurrent rt (JS.or_empty start) = None
  \/ instantCurrent rt (JS.or_empty end_) = None ->
  Server.calculateDuration rt start end_ = "1 hour".
Proof.
  unfold Server.calculateDuration, instantCurrent.
  intros [H | [H | [H | H]]].
  - now rewrite H.
  - rewrite H. now destruct (JS.truthy start).
  - rewrite H. destruct (JS.truthy start), (JS.truthy end_); reflexivity.
  - rewrite H. destruct (JS.truthy start), (JS.truthy end_); try reflexivity.
    simpl.
    destruct (Date_parse rt
                (JS.replace_re JS.match_datetime (JS.or_empty start)));
      reflexivity.
Qed.

(** The two tokens of the specification, on a runtime that follows
    ECMAScript, when local time has one offset at both. *)
Lemma two_hours (tza : Z -> Z) (rt : Runtime) :
  Ref.conforms tza rt ->
  tza 1749978000000%Z = tza 1749985200000%Z ->
  ServerBackup.calculateDuration rt (Some "20250615T090000")
    (Some "20250615T110000") false = "2 hours"
  /\ Server.calculateDuration rt (Some "20250615T090000")
       (Some "20250615T110000") = "2 hours".
Proof.
  intros Hc Htz.
  assert (Ha : Date_parse rt "2025-06-15T09:00:00"
               = Some (1749978000000 - tza 1749978000000)%Z)
    by (apply Hc; reflexivity).
  assert (Hb : Date_parse rt "2025-06-15T11:00:00"
               = Some (1749985200000 - tza 1749985200000)%Z)
    by (apply Hc; reflexivity).
  unfold ServerBackup.calculateDuration, Server.calculateDuration,
    ServerBackup.instant.
  cbn [JS.truthy negb orb JS.or_empty].
  change (JS.includes "T" "20250615T090000") with true.
  change (JS.includes "T" "20250615T110000") with true.
  change (JS.replace_re JS.match_datetime "20250615T090000")
    with "2025-06-15T09:00:00".
  change (JS.replace_re JS.match_datetime "20250615T110000")
    with "2025-06-15T11:00:00".
  cbn iota. rewrite Ha, Hb, <- Htz. cbn [diff_ms].
  replace (1749985200000 - tza 1749978000000
           - (1749978000000 - tza 1749978000000))%Z with 7200000%Z by lia.
  split; reflexivity.
Qed.

(** C6, as amended.  For timed tokens that the runtime parses to the
    instants [a] and [b]:
    - [calculateDuration] of [server-backup.ts] buckets the difference
      [b - a], largest unit first: a whole day or more yields ["N day(s)"]
      with N the whole days; otherwise a positive rounded hour count (a
      difference of 30 minutes or more) yields ["N hour(s)"]; otherwise a
      positive rounded minute count (30 seconds or more) yields
      ["N minute(s)"]; otherwise, and for a difference of zero or less,
      ["1 hour"];
    - [calculateDuration] of [server.ts] reports hours only: a positive
      rounded hour count yields ["N hour(s)"], also for a day or more, and
      every other difference yields ["1 hour"];
    - in both files a missing or unparseable token yields ["1 hour"], and
      start [20250615T090000] with end [20250615T110000] yields
      ["2 hours"]. *)
Theorem duration_buckets (rt : Runtime) (start end_ : string) (a b : Z) :
  start <> "" -> end_ <> "" ->
  (ServerBackup.instant rt start = Some a ->
   ServerBackup.instant rt end_ = Some b ->
   bucketed (b - a)
     (ServerBackup.calculateDuration rt (Some start) (Some end_) false))
  /\ (instantCurrent rt start = Some a ->
      instantCurrent rt end_ = Some b ->
      hoursOnly (b - a) (Server.calculateDuration rt (Some start) (Some end_)))
  /\ (forall s e : option string,
        JS.truthy s = false \/ JS.truthy e = false
        \/ ServerBackup.instant rt (JS.or_empty s) = None
        \/ ServerBackup.instant rt (JS.or_empty e) = None ->
        ServerBackup.calculateDuration rt s e false = "1 hour")
  /\ (forall s e : option string,
        JS.truthy s = false \/ JS.truthy e = false
        \/ instantCurrent rt (JS.or_empty s) = None
        \/ instantCurrent rt (JS.or_empty e) = None ->
        Server.calculateDuration rt s e = "1 hour")
  /\ (forall tza,
        Ref.conforms tza rt ->
        tza 1749978000000%Z = tza 1749985200000%Z ->
        ServerBackup.calculateDuration rt (Some "20250615T090000")
          (Some "20250615T110000") false = "2 hours"
        /\ Server.calculateDuration rt (Some "20250615T090000")
             (Some "20250615T110000") = "2 hours").
Proof.
  intros Hs He. split; [|split; [|split; [|split]]].
  - now apply backup_bucketed.
  - now apply current_hoursOnly.
  - intros s e. apply backup_default.
  - intros s e. apply current_default.
  - intros tza. apply two_hours.
Qed.

(** The amended C6 at a difference of two days, on the reference runtime:
    ["2 days"] in [server-backup.ts], ["48 hours"] in [server.ts]. *)
Lemma duration_buckets_witness :
  ServerBackup.calculateDuration demoRuntime (Some "20250615T090000")
    (Some "20250617T090000") false = "2 days"
  /\ Server.calculateDuration demoRuntime (Some "20250615T090000")
       (Some "20250617T090000") = "48 hours".
Proof.
  destruct (duration_buckets demoRuntime "20250615T090000" "20250617T090000"
              1749978000000 1750150800000 ltac:(discriminate)
              ltac:(discriminate))
    as (Hb & Hc & _).
  destruct (Hb eq_refl eq_refl) as (_ & Hdays & _).
  destruct (Hc eq_refl eq_refl) as (Hhours & _).
  split.
  - rewrite Hdays by (vm_compute; discriminate). reflexivity.
  - rewrite Hhours by (vm_compute; discriminate). reflexivity.
Defined.

(** C6 as stated fails on [server.ts]: a difference of two whole days is
    reported as ["48 hours"], not in days, and a difference of twenty
    minutes as ["1 hour"], not in minutes. *)
Lemma duration_counterexample :
  instantCurrent demoRuntime "20250615T090000" = Some 1749978000000%Z
  /\ instantCurrent demoRuntime "20250617T090000"
     = Some (1749978000000 + 2 * 86400000)%Z
  /\ instantCurrent demoRuntime "20250615T092000"
     = Some (1749978000000 + 20 * 60000)%Z
  /\ Server.calculateDuration demoRuntime (Some "20250615T090000")
       (Some "20250617T090000") = "48 hours"
  /\ Server.calculateDuration demoRuntime (Some "20250615T090000")
       (Some "20250615T092000") = "1 hour"
  /\ ~ bucketed (2 * 86400000)
         (Server.calculateDuration demoRuntime (Some "20250615T090000")
            (Some "20250617T090000")).
Proof.
  repeat split; try reflexivity.
  intros (_ & Hdays & _). specialize (Hdays ltac:(lia)).
  vm_compute in Hdays. discriminate Hdays.
Qed.

(* ================================================================== *)
(** ** The action store                                                *)
(* ================================================================== *)

Lemma value_eqb_eq (a b : JS.value) : JS.value_eqb a b = true <-> a = b.
Proof.
  destruct a as [| |x|x|x], b as [| |y|y|y]; simpl;
    try (split; [discriminate | congruence]); try tauto.
  - rewrite Bool.eqb_true_iff. split; congruence.
  - rewrite Z.eqb_eq. split; congruence.
  - rewrite String.eqb_eq. split; congruence.
Qed.

Lemma value_eqb_refl (a : JS.value) : JS.value_eqb a a = true.
Proof. now apply value_eqb_eq. Qed.

Lemma value_eqb_neq (a b : JS.value) : JS.value_eqb a b = false <-> a <> b.
Proof.
  rewrite <- value_eqb_eq. destruct (JS.value_eqb a b); split; congruence.
Qed.

Lemma field_eqb_eq (a b : JS.field) : JS.field_eqb a b = true <-> a = b.
Proof.
  destruct a as [x|x|x s], b as [y|y|y t]; simpl;
    try (split; [discriminate | congruence]).
  - rewrite value_eqb_eq. split; congruence.
  - rewrite String.eqb_eq. split; congruence.
  - rewrite andb_true_iff, Nat.eqb_eq.
    destruct s as [s|], t as [t|]; simpl;
      try rewrite String.eqb_eq; split;
      try (intros [? ?]; congruence);
      try (intros E; injection E; intros; subst; split; congruence).
Qed.

Lemma field_eqb_refl (a : JS.field) : JS.field_eqb a a = true.
Proof. now apply field_eqb_eq. Qed.

Lemma field_eqb_neq (a b : JS.field) : JS.field_eqb a b = false <-> a <> b.
Proof.
  rewrite <- field_eqb_eq. destruct (JS.field_eqb a b); split; congruence.
Qed.

Lemma has_app (s1 s2 : JS.set) (v : JS.field) :
  JS.has (s1 ++ s2)%list v = JS.has s1 v || JS.has s2 v.
Proof. unfold JS.has. apply existsb_app. Qed.

(** [add] puts the value in the set and keeps what was there. *)
Lemma has_add (s : JS.set) (v w : JS.field) :
  JS.has (JS.add s v) w = JS.has s w || JS.field_eqb w v.
Proof.
  unfold JS.add. destruct (JS.has s v) eqn:E.
  - destruct (JS.field_eqb w v) eqn:Ewv.
    + apply field_eqb_eq in Ewv. subst w. rewrite E. reflexivity.
    + now rewrite orb_false_r.
  - rewrite has_app. simpl. now rewrite orb_false_r.
Qed.

Lemma has_add_same (s : JS.set) (v : JS.field) : JS.has (JS.add s v) v = true.
Proof. rewrite has_add, field_eqb_refl. apply orb_true_r. Qed.


(** The handler on a POST, branch by branch. *)
Lemma handleEventAction_post (st : Store) (bd : option ActionBody) :
  handleEventAction st {| method := "POST"; body := bd |}
  = match bd with
    | None => (ActionError 500 "Failed to process event action", st)
    | Some b =>
        if negb (JS.field_truthy (eventId b))
           || negb (JS.field_truthy (action b))
        then (ActionError 400 "Event ID and action required", st)
        else
          match logLine b with
          | None => (ActionError 500 "Failed to process event action", st)
          | Some _ =>
              if JS.field_eqb (action b) (JS.Scalar (JS.Str "complete")) then
                (ActionSuccess (eventId b) (action b)
                   ("Event " ++ JS.or_empty (JS.template (action b))
                      ++ "d successfully"),
                 {| weatherCache := weatherCache st;
                    completedEvents := JS.add (completedEvents st) (eventId b);
                    dismissedEvents := dismissedEvents st |})
              else if JS.field_eqb (action b) (JS.Scalar (JS.Str "dismiss"))
              then
                (ActionSuccess (eventId b) (action b)
                   ("Event " ++ JS.or_empty (JS.template (action b))
                      ++ "d successfully"),
                 {| weatherCache := weatherCache st;
                    completedEvents := completedEvents st;
                    dismissedEvents :=
                      JS.add (dismissedEvents st) (eventId b) |})
              else (ActionError 400 "Invalid action", st)
          end
    end.
Proof. reflexivity. Qed.

(** C8, as amended.  For a POST to /api/events/action:
    - when the body is not JSON, or is the JSON [null], the status is 500
      and the store is unchanged;
    - otherwise the status is 400 when [eventId] or [action] is missing or
      falsy;
    - with both fields truthy, when one of [action], [eventId] and [source]
      is an object that cannot be made a string, the status is 500 and the
      store is unchanged;
    - with both fields truthy and all three printable, the answer is 400
      ["Invalid action"] when [action] is neither ["complete"] nor
      ["dismiss"];
    - whenever the status is 400 the store, hence both sets, is unchanged;
    - a truthy [eventId] with the action ["complete"] (["dismiss"]) and the
      three fields printable is added to the completed (dismissed) set, the
      other set is left as it was, and the response is the success response
      with [eventId], [action] and a message. *)
Theorem event_action_validation (st : Store) (bd : option ActionBody) :
  let result := handleEventAction st {| method := "POST"; body := bd |} in
  (bd = None ->
   fst result = ActionError 500 "Failed to process event action"
   /\ snd result = st)
  /\ (forall b, bd = Some b ->
      (JS.field_truthy (eventId b) = false
       \/ JS.field_truthy (action b) = false ->
       fst result = ActionError 400 "Event ID and action required")
      /\ (JS.field_truthy (eventId b) = true ->
          JS.field_truthy (action b) = true -> logLine b = None ->
          fst result = ActionError 500 "Failed to process event action"
          /\ snd result = st)
      /\ (JS.field_truthy (eventId b) = true ->
          JS.field_truthy (action b) = true -> logLine b <> None ->
          action b <> JS.Scalar (JS.Str "complete") ->
          action b <> JS.Scalar (JS.Str "dismiss") ->
          fst result = ActionError 400 "Invalid action")
      /\ (JS.field_truthy (eventId b) = true -> logLine b <> None ->
          action b = JS.Scalar (JS.Str "complete") ->
          fst result
          = ActionSuccess (eventId b) (JS.Scalar (JS.Str "complete"))
              "Event completed successfully"
          /\ completedEvents (snd result)
             = JS.add (completedEvents st) (eventId b)
          /\ JS.has (completedEvents (snd result)) (eventId b) = true
          /\ dismissedEvents (snd result) = dismissedEvents st)
      /\ (JS.field_truthy (eventId b) = true -> logLine b <> None ->
          action b = JS.Scalar (JS.Str "dismiss") ->
          fst result
          = ActionSuccess (eventId b) (JS.Scalar (JS.Str "dismiss"))
              "Event dismissd successfully"
          /\ dismissedEvents (snd result)
             = JS.add (dismissedEvents st) (eventId b)
          /\ JS.has (dismissedEvents (snd result)) (eventId b) = true
          /\ completedEvents (snd result) = completedEvents st))
  /\ (action_status (fst result) = 400 -> snd result = st).
Proof.
  intros result. unfold result. rewrite handleEventAction_post.
  split; [|split].
  - intros ->. split; reflexivity.
  - intros b ->. split; [|split; [|split; [|split]]].
    + intros [H | H]; rewrite H; simpl;
        [|destruct (JS.field_truthy (eventId b))]; reflexivity.
    + intros He Ha Hl. rewrite He, Ha, Hl. split; reflexivity.
    + intros He Ha Hl Hc Hd. apply field_eqb_neq in Hc, Hd.
      rewrite He, Ha, Hc, Hd. simpl.
      destruct (logLine b); [reflexivity | congruence].
    + intros He Hl Ha. rewrite He, Ha in *. simpl.
      destruct (logLine _); [|congruence]. cbn.
      repeat split. apply has_add_same.
    + intros He Hl Ha. rewrite He, Ha in *. simpl.
      destruct (logLine _); [|congruence]. cbn.
      repeat split. apply has_add_same.
  - destruct bd as [b|]; [|discriminate].
    destruct (negb (JS.field_truthy (eventId b))
              || negb (JS.field_truthy (action b))); [reflexivity|].
    destruct (logLine b); [|discriminate].
    destruct (JS.field_eqb (action b) (JS.Scalar (JS.Str "complete")));
      [discriminate|].
    destruct (JS.field_eqb (action b) (JS.Scalar (JS.Str "dismiss")));
      [discriminate | reflexivity].
Qed.

(** C8 at a request that completes the event [a1] in the empty store, and at
    a request with an unknown action. *)
Lemma event_action_witness :
  (fst (handleEventAction initialStore
          {| method := "POST";
             body := Some {| eventId := JS.Scalar (JS.Str "a1");
                             action := JS.Scalar (JS.Str "complete");
                             body_source :=
                               JS.Scalar (JS.Str "Apple Calendar") |} |})
   = ActionSuccess (JS.Scalar (JS.Str "a1")) (JS.Scalar (JS.Str "complete"))
       "Event completed successfully")
  /\ (fst (handleEventAction initialStore
             {| method := "POST";
                body := Some {| eventId := JS.Scalar (JS.Str "a1");
                                action := JS.Scalar (JS.Str "snooze");
                                body_source := JS.Scalar JS.Undefined |} |})
      = ActionError 400 "Invalid action").
Proof.
  split.
  - destruct (event_action_validation initialStore
                (Some {| eventId := JS.Scalar (JS.Str "a1");
                         action := JS.Scalar (JS.Str "complete");
                         body_source := JS.Scalar (JS.Str "Apple Calendar") |}))
      as (_ & H & _).
    destruct (H _ eq_refl) as (_ & _ & _ & Hc & _).
    apply Hc; (reflexivity || discriminate).
  - destruct (event_action_validation initialStore
                (Some {| eventId := JS.Scalar (JS.Str "a1");
                         action := JS.Scalar (JS.Str "snooze");
                         body_source := JS.Scalar JS.Undefined |}))
      as (_ & H & _).
    destruct (H _ eq_refl) as (_ & _ & Hi & _).
    apply Hi; (reflexivity || discriminate).
Defined.

(** C8 as stated fails on a POST without a usable body (no JSON, or the JSON
    [null]): the fields are missing and the status is 500, not 400; and on
    a body whose [action] is an object that cannot be made a string: the
    action is neither ["complete"] nor ["dismiss"] and the status is 500,
    not 400. *)
Lemma event_action_counterexample :
  handleEventAction initialStore {| method := "POST"; body := None |}
  = (ActionError 500 "Failed to process event action", initialStore)
  /\ handleEventAction initialStore
       {| method := "POST";
          body := Some {| eventId := JS.Scalar (JS.Str "a1");
                          action := JS.Ref 0 None;
                          body_source := JS.Scalar JS.Undefined |} |}
     = (ActionError 500 "Failed to process event action", initialStore).
Proof. split; reflexivity. Qed.

(** *** Actions are never undone *)

Lemma has_In (s : JS.set) (v : JS.field) : JS.has s v = true <-> In v s.
Proof.
  unfold JS.has. rewrite existsb_exists. split.
  - intros (x & Hx & E). apply field_eqb_eq in E. now subst x.
  - intros H. exists v. split; [exact H | apply field_eqb_refl].
Qed.



(** *** Counting the excluded events *)

Lemma actioned_In (st : Store) (e : Event) :
  actioned st e = true <-> In (JS.Scalar (JS.Str (id e))) (actionIds st).
Proof.
  unfold actioned, actionIds.
  rewrite nodup_In, in_app_iff, orb_true_iff, !has_In. reflexivity.
Qed.








(* ================================================================== *)
(** ** [formatICSDate]                                                 *)
(* ================================================================== *)

Lemma length_app (s1 s2 : string) :
  String.length (s1 ++ s2) = (String.length s1 + String.length s2)%nat.
Proof. induction s1 as [|c s1 IH]; simpl; [reflexivity | now rewrite IH]. Qed.

Lemma includes_T_cons (c : ascii) (s : string) :
  JS.includes "T" (String c s) = Ascii.eqb c "T" || JS.includes "T" s.
Proof.
  cbn [JS.includes prefix].
  destruct (ascii_dec "T" c) as [<-|Hne].
  - now rewrite prefix_empty.
  - replace (Ascii.eqb c "T") with false; [reflexivity|].
    symmetry. apply Ascii.eqb_neq. congruence.
Qed.

Lemma includes_T_app (d rest : string) :
  JS.includes "T" (d ++ String "T" rest) = true.
Proof.
  induction d as [|c d IH].
  - cbn [append]. now rewrite includes_T_cons.
  - change (String c d ++ String "T" rest)
      with (String c (d ++ String "T" rest)).
    rewrite includes_T_cons, IH. apply orb_true_r.
Qed.

Lemma split_T_app (d rest : string) :
  JS.includes "T" d = false ->
  hd "" (JS.split "T" (d ++ String "T" rest)) = d.
Proof.
  induction d as [|c d IH]; intros H.
  - reflexivity.
  - rewrite includes_T_cons in H. apply orb_false_iff in H as [Hc Hd].
    change (String c d ++ String "T" rest)
      with (String c (d ++ String "T" rest)).
    rewrite split_other by exact Hc. cbn [hd]. now rewrite IH.
Qed.

(** The three slices of a string made of a year, a month and a day. *)
Lemma slices (y m d : string) :
  String.length y = 4%nat -> String.length m = 2%nat ->
  String.length d = 2%nat ->
  String.length (y ++ m ++ d) = 8%nat
  /\ JS.substring 0 4 (y ++ m ++ d) = y
  /\ JS.substring 4 6 (y ++ m ++ d) = m
  /\ JS.substring 6 8 (y ++ m ++ d) = d.
Proof.
  intros Hy Hm Hd.
  destruct y as [|y1 [|y2 [|y3 [|y4 [|]]]]]; try discriminate Hy.
  destruct m as [|m1 [|m2 [|]]]; try discriminate Hm.
  destruct d as [|d1 [|d2 [|]]]; try discriminate Hd.
  repeat split.
Qed.

Lemma formatICSDate_date (rt : Runtime) (y m d : string) (k : nat) :
  String.length y = 4%nat -> String.length m = 2%nat ->
  String.length d = 2%nat ->
  formatICSDate rt (Some (y ++ m ++ d)) k = (y ++ "-" ++ m ++ "-" ++ d, k).
Proof.
  intros Hy Hm Hd. destruct (slices y m d Hy Hm Hd) as (Hl & S1 & S2 & S3).
  unfold formatICSDate.
  replace (JS.truthy (Some (y ++ m ++ d))) with true
    by (destruct y; [discriminate Hy | reflexivity]).
  cbn [negb JS.or_empty]. rewrite Hl, S1, S2, S3. reflexivity.
Qed.

Lemma formatICSDate_datetime (rt : Runtime) (y m d rest : string) (k : nat) :
  String.length y = 4%nat -> String.length m = 2%nat ->
  String.length d = 2%nat -> JS.includes "T" (y ++ m ++ d) = false ->
  formatICSDate rt (Some ((y ++ m ++ d) ++ "T" ++ rest)) k
  = (y ++ "-" ++ m ++ "-" ++ d, k).
Proof.
  intros Hy Hm Hd HT. destruct (slices y m d Hy Hm Hd) as (Hl & S1 & S2 & S3).
  unfold formatICSDate.
  replace (JS.truthy (Some ((y ++ m ++ d) ++ "T" ++ rest))) with true
    by (destruct y; [discriminate Hy | reflexivity]).
  cbn [negb JS.or_empty].
  change ("T" ++ rest) with (String "T" rest).
  replace (String.length ((y ++ m ++ d) ++ String "T" rest) =? 8)%nat
    with false
    by (symmetry; apply Nat.eqb_neq; rewrite length_app, Hl; simpl; lia).
  rewrite includes_T_app, split_T_app by exact HT.
  rewrite S1, S2, S3. reflexivity.
Qed.

Lemma formatICSDate_today (rt : Runtime) (s : option string) (k : nat) :
  JS.truthy s = false
  \/ (String.length (JS.or_empty s) <> 8%nat
      /\ JS.includes "T" (JS.or_empty s) = false) ->
  formatICSDate rt s k = today rt k.
Proof.
  unfold formatICSDate. intros [H | [Hl HT]].
  - now rewrite H.
  - apply Nat.eqb_neq in Hl. rewrite Hl, HT.
    now destruct (JS.truthy s).
Qed.

(** Every other token is cut up without being checked. *)
Lemma formatICSDate_unchecked (rt : Runtime) (s : string) (k : nat) :
  s <> "" ->
  String.length s = 8%nat \/ JS.includes "T" s = true ->
  let part := if (String.length s =? 8)%nat then s
              else hd "" (JS.split "T" s) in
  formatICSDate rt (Some s) k
  = (JS.substring 0 4 part ++ "-" ++ JS.substring 4 6 part ++ "-"
       ++ JS.substring 6 8 part, k).
Proof.
  intros Hs H part. unfold formatICSDate, part.
  rewrite (truthy_some s Hs). cbn [negb JS.or_empty].
  destruct (String.length s =? 8)%nat eqn:E; [reflexivity|].
  destruct H as [H | H].
  - apply Nat.eqb_neq in E. contradiction.
  - now rewrite H.
Qed.

(** C9, as amended.  [formatICSDate] maps an 8-character date token, and a
    token whose part before its first ["T"] is such a date, to the date with
    dashes (so an 8-digit token [YYYYMMDD] or [YYYYMMDDT...] gives
    [YYYY-MM-DD]); it returns today's date for a missing or empty token and
    for a token that neither has 8 characters nor holds a ["T"]; every other
    token is cut at the same positions, whatever its characters, and the
    clock is not read. *)
Theorem formatICSDate_cases (rt : Runtime) (k : nat) :
  (forall y m d,
      String.length y = 4%nat -> String.length m = 2%nat ->
      String.length d = 2%nat ->
      formatICSDate rt (Some (y ++ m ++ d)) k = (y ++ "-" ++ m ++ "-" ++ d, k))
  /\ (forall y m d rest,
        String.length y = 4%nat -> String.length m = 2%nat ->
        String.length d = 2%nat -> JS.includes "T" (y ++ m ++ d) = false ->
        formatICSDate rt (Some ((y ++ m ++ d) ++ "T" ++ rest)) k
        = (y ++ "-" ++ m ++ "-" ++ d, k))
  /\ (forall s,
        JS.truthy s = false
        \/ (String.length (JS.or_empty s) <> 8%nat
            /\ JS.includes "T" (JS.or_empty s) = false) ->
        formatICSDate rt s k = today rt k)
  /\ (forall s,
        s <> "" ->
        String.length s = 8%nat \/ JS.includes "T" s = true ->
        let part := if (String.length s =? 8)%nat then s
                    else hd "" (JS.split "T" s) in
        formatICSDate rt (Some s) k
        = (JS.substring 0 4 part ++ "-" ++ JS.substring 4 6 part ++ "-"
             ++ JS.substring 6 8 part, k))
  /\ formatICSDate rt (Some "20250615") k = ("2025-06-15", k)
  /\ formatICSDate rt (Some "20250615T090000") k = ("2025-06-15", k).
Proof.
  split; [|split; [|split; [|split; [|split]]]].
  - intros y m d. apply formatICSDate_date.
  - intros y m d rest. apply formatICSDate_datetime.
  - intros s. apply formatICSDate_today.
  - intros s. apply formatICSDate_unchecked.
  - reflexivity.
  - reflexivity.
Qed.

(** The amended C9 at a date token, a date-time token, a missing token and a
    token that is no date, on the reference runtime. *)
Lemma formatICSDate_witness :
  formatICSDate demoRuntime (Some ("2025" ++ "12" ++ "25")) 0
  = ("2025" ++ "-" ++ "12" ++ "-" ++ "25", 0%nat)
  /\ formatICSDate demoRuntime
       (Some (("2025" ++ "12" ++ "25") ++ "T" ++ "180000Z")) 0
     = ("2025" ++ "-" ++ "12" ++ "-" ++ "25", 0%nat)
  /\ formatICSDate demoRuntime None 0 = today demoRuntime 0
  /\ formatICSDate demoRuntime (Some "next week") 0
     = today demoRuntime 0.
Proof.
  destruct (formatICSDate_cases demoRuntime 0) as (Hd & Hdt & Ht & _).
  split; [|split; [|split]].
  - apply (Hd "2025" "12" "25"); reflexivity.
  - apply (Hdt "2025" "12" "25" "180000Z"); reflexivity.
  - apply Ht. left. reflexivity.
  - apply Ht. right. split; [discriminate | reflexivity].
Defined.

(** C9 as stated fails: the tokens ["TBD"] and ["tomorrow"] are no dates,
    yet the result is not today's date. *)
Lemma formatICSDate_counterexample :
  today demoRuntime 0 = ("2025-06-15", 1%nat)
  /\ formatICSDate demoRuntime (Some "TBD") 0 = ("--", 0%nat)
  /\ formatICSDate demoRuntime (Some "tomorrow") 0 = ("tomo-rr-ow", 0%nat)
  /\ fst (formatICSDate demoRuntime (Some "TBD") 0)
     <> fst (today demoRuntime 0).
Proof.
  repeat split; try reflexivity. vm_compute. discriminate.
Qed.

(* ================================================================== *)
(** ** Fallback ids                                                    *)
(* ================================================================== *)

Lemma parse_lines (v : Version) (rt : Runtime) (src : string)
  (lines : list string) (k : nat) :
  lines <> [] -> Forall (fun l => one_line l = true) lines ->
  parseICSData_of v rt (unlines lines) src k
  = (events (fst (for_of (parseLine_of v rt src) lines
                    {| events := []; currentEvent := None |} k)),
     snd (for_of (parseLine_of v rt src) lines
            {| events := []; currentEvent := None |} k)).
Proof.
  intros Hne Hl.
  destruct v; unfold parseICSData_of, Server.parseICSData,
    ServerBackup.parseICSData, bind, ret;
    rewrite split_unlines by assumption;
    unfold parseLine_of;
    match goal with
    | |- context [for_of ?b ?l ?s ?t] => destruct (for_of b l s t)
    end; reflexivity.
Qed.

(** A block without a usable UID takes the reading of the clock as its id. *)
Lemma fallback_id (v : Version) (rt : Runtime) (src : string)
  (lines : list string) (k : nat) :
  JS.truthy (supplied UID lines) = false ->
  id (fst (makeEvent_of v rt src (collected v lines) k))
  = JS.toString (Date_now rt k).
Proof.
  intros Hu.
  destruct (makeEvent_common v rt src (collected v lines) k) as (Hid & _).
  rewrite collected_uid, Hu in Hid. exact Hid.
Qed.

Lemma parse_two_anonymous (v : Version) (rt : Runtime) (src : string)
  (lines1 lines2 : list string) (k : nat) :
  anonymous lines1 -> anonymous lines2 ->
  exists e1 e2 k',
    parseICSData_of v rt (twoBlocks lines1 lines2) src k = ([e1; e2], k')
    /\ id e1 = JS.toString (Date_now rt k)
    /\ (exists k2, id e2 = JS.toString (Date_now rt k2))
    /\ title e1 = JS.or_empty (supplied SUMMARY lines1)
    /\ title e2 = JS.or_empty (supplied SUMMARY lines2).
Proof.
  intros (Hi1 & Hl1 & Hs1 & Hd1 & Hu1) (Hi2 & Hl2 & Hs2 & Hd2 & Hu2).
  unfold twoBlocks. rewrite parse_lines.
  - rewrite (parse_block v rt src "BEGIN:VEVENT" "END:VEVENT" lines1 _ _ k
               eq_refl eq_refl Hi1).
    rewrite Hs1, Hd1. cbn [andb events app].
    set (m1 := makeEvent_of v rt src (collected v lines1) k).
    rewrite (parse_block v rt src "BEGIN:VEVENT" "END:VEVENT" lines2 []
               _ (snd m1) eq_refl eq_refl Hi2).
    rewrite Hs2, Hd2. cbn [andb events app for_of ret fst snd].
    eexists _, _, _. split; [reflexivity|].
    split; [apply fallback_id, Hu1|].
    split; [eexists; apply fallback_id, Hu2|].
    split.
    + destruct (makeEvent_common v rt src (collected v lines1) k)
        as (_ & Ht & _).
      unfold m1. now rewrite Ht, collected_summary.
    + destruct (makeEvent_common v rt src (collected v lines2) (snd m1))
        as (_ & Ht & _).
      now rewrite Ht, collected_summary.
  - discriminate.
  - constructor; [reflexivity|]. apply Forall_app. split; [exact Hl1|].
    constructor; [reflexivity|]. constructor; [reflexivity|].
    apply Forall_app. split; [exact Hl2|]. repeat constructor.
Qed.

(** C10, as amended.  While the clock reads [t]:
    - every block that yields an event and supplies no usable UID yields it
      with the id [t], written in decimal, wherever the block stands in a
      text;
    - so the two events of a text of two such blocks share that id, whatever
      their titles;
    - an aggregation run on a store that holds that id in the completed or
      the dismissed set returns no event with that id.
    The id is given anew by every parse: an aggregation returns every
    accumulated event whose id is in neither set, so the same blocks parsed
    under another clock reading, on which no action was recorded, are
    returned again. *)
Theorem fallback_ids (v : Version) (rt : Runtime) (env : Env) (net : Network)
  (src : string) (t : Z) :
  (forall k, Date_now rt k = t) ->
  (forall opening closing lines rest st k,
      opens opening = true -> closes closing = true -> anonymous lines ->
      exists e k',
        for_of (parseLine_of v rt src) (opening :: lines ++ closing :: rest)
          st k
        = for_of (parseLine_of v rt src) rest
            {| events := events st ++ [e]; currentEvent := None |} k'
        /\ id e = JS.toString t)
  /\ (forall lines1 lines2 k,
        anonymous lines1 -> anonymous lines2 ->
        exists e1 e2 k',
          parseICSData_of v rt (twoBlocks lines1 lines2) src k = ([e1; e2], k')
          /\ id e1 = JS.toString t /\ id e2 = JS.toString t
          /\ title e1 = JS.or_empty (supplied SUMMARY lines1)
          /\ title e2 = JS.or_empty (supplied SUMMARY lines2))
  /\ (forall st k,
        JS.has (completedEvents st) (JS.Str (JS.toString t)) = true
        \/ JS.has (dismissedEvents st) (JS.Str (JS.toString t)) = true ->
        forall e,
          In e (resp_events
                  (fst (handleAppleCalendar (parseICSData_of v) rt env net
                          st k))) ->
          id e <> JS.toString t)
  /\ (forall st k e,
        In e (allEvents (fst (fetchAll (parseICSData_of v) rt env net k))) ->
        JS.has (completedEvents st) (JS.Str (id e)) = false ->
        JS.has (dismissedEvents st) (JS.Str (id e)) = false ->
        In e (resp_events
                (fst (handleAppleCalendar (parseICSData_of v) rt env net
                        st k)))).
Proof.
  intros Hclock. split; [|split; [|split]].
  - intros opening closing lines rest st k Ho Hc (Hi & _ & Hs & Hd & Hu).
    rewrite parse_block by assumption. rewrite Hs, Hd. cbn [andb].
    eexists _, _. split; [reflexivity|].
    rewrite fallback_id by exact Hu. now rewrite Hclock.
  - intros lines1 lines2 k H1 H2.
    destruct (parse_two_anonymous v rt src lines1 lines2 k H1 H2)
      as (e1 & e2 & k' & Hp & Hid1 & (k2 & Hid2) & Ht1 & Ht2).
    exists e1, e2, k'. rewrite Hclock in Hid1, Hid2. auto.
  - intros st k Hact e He E. rewrite handleAppleCalendar_eq in He.
    cbn [fst resp_events] in He.
    apply (Permutation_in _ (Permutation_sym (sort_perm _ _))) in He.
    apply filter_In in He as [_ Hn]. unfold notActioned in Hn.
    rewrite E in Hn. apply andb_prop in Hn as [Hn1 Hn2].
    apply negb_true_iff in Hn1, Hn2.
    destruct Hact as [H | H]; congruence.
  - intros st k e He Hc Hd. rewrite handleAppleCalendar_eq.
    cbn [fst resp_events].
    apply (Permutation_in _ (sort_perm _ _)), filter_In.
    split; [exact He|]. unfold notActioned. now rewrite Hc, Hd.
Qed.

(* ================================================================== *)
(** ** The statements at the household configuration                   *)
(* ================================================================== *)

(** The amended C10 at a text of two blocks without UID. *)
Lemma fallback_ids_witness :
  exists e1 e2 k',
    Server.parseICSData demoRuntime
      (twoBlocks ["SUMMARY:Dentist"; "DTSTART:20250615T140000"]
         ["SUMMARY:Plumber"; "DTSTART:20250616T090000"])
      "Apple Calendar" 0 = ([e1; e2], k')
    /\ id e1 = "1750000000000" /\ id e2 = "1750000000000"
    /\ title e1 = "Dentist" /\ title e2 = "Plumber".
Proof.
  destruct (fallback_ids Current demoRuntime demoEnv
              (serve NetworkError NetworkError) "Apple Calendar"
              1750000000000%Z (fun k => eq_refl))
    as (_ & Htwo & _).
  apply (Htwo ["SUMMARY:Dentist"; "DTSTART:20250615T140000"]
           ["SUMMARY:Plumber"; "DTSTART:20250616T090000"] 0%nat).
  - repeat split; repeat constructor.
  - repeat split; repeat constructor.
Defined.

(** C10 as stated fails in its last part: the two events without UID share
    the id of the first parse; once an action is recorded on that id, the
    next aggregation, whose clock reads another value, returns both events
    again, under a new id. *)
Lemma fallback_id_counterexample :
  let rt := Ref.runtime laterClock in
  let net := serve (Response true (Some uidlessFeed)) NetworkError in
  let first :=
    handleAppleCalendar Server.parseICSData rt demoEnv net initialStore 0 in
  let st :=
    snd (handleEventAction initialStore
           (recordAction "1750000000000" "complete" JS.Undefined)) in
  let second :=
    handleAppleCalendar Server.parseICSData rt demoEnv net st (snd first) in
  map id (resp_events (fst first)) = ["1750000000000"; "1750000000000"]
  /\ map title (resp_events (fst first)) = ["Dentist"; "Plumber"]
  /\ JS.has (completedEvents st) (JS.Str "1750000000000") = true
  /\ map title (resp_events (fst second)) = ["Dentist"; "Plumber"]
  /\ map id (resp_events (fst second)) = ["1750000060000"; "1750000060000"].
Proof.
  repeat split; vm_compute; reflexivity.
Qed.

(** C2 at the household feed and the bank holidays, with the breakfast
    dismissed: every date is valid, the four events that are left come by
    date, and the two of 15 June in the order of the sources. *)
Lemma calendar_sort_witness :
  let st :=
    snd (handleEventAction initialStore
           (recordAction "breakfast" "dismiss" JS.Undefined)) in
  let net :=
    serve (Response true (Some homeFeed)) (Response true (Some holidayFeed)) in
  let acc :=
    allEvents (fst (fetchAll Server.parseICSData demoRuntime demoEnv net 0)) in
  let kept := filter (fun e => negb (actioned st e)) acc in
  let result :=
    resp_events
      (fst (handleAppleCalendar Server.parseICSData demoRuntime demoEnv net
              st 0)) in
  Forall (dated demoRuntime) kept
  /\ Permutation result kept
  /\ StronglySorted
       (fun a b => (instantOf demoRuntime a <= instantOf demoRuntime b)%Z)
       result
  /\ (forall d,
        filter (fun e => (instantOf demoRuntime e =? d)%Z) result
        = filter (fun e => (instantOf demoRuntime e =? d)%Z) kept)
  /\ map (fun e => (title e, date e)) result
     = [("Dentist", "2025-06-15"); ("Summer bank holiday", "2025-06-15");
        ("School run", "2025-06-16")].
Proof.
  intros st net acc kept result.
  assert (Hd : Forall (dated demoRuntime) kept).
  { match goal with
    | |- Forall _ ?l => let l' := eval vm_compute in l in change l with l'
    end.
    repeat (constructor; [intros H; vm_compute in H; discriminate H|]).
    constructor. }
  destruct (calendar_filters_then_sorts_by_date Server.parseICSData
              demoRuntime demoEnv net st 0) as (Hp & _ & Hs & _).
  destruct (Hs Hd) as [Hs1 Hs2].
  split; [exact Hd|]. split; [exact Hp|]. split; [exact Hs1|].
  split; [exact Hs2|]. vm_compute. reflexivity.
Defined.

(** C2 as stated fails when a date field is no date: the start of the
    plumber's visit gives the date field ["--"], the comparator answers
    NaN, and the two events are returned in the order of the feed,
    whichever it is; so no order on the date field has both results
    ascending. *)
Lemma calendar_sort_counterexample :
  listed (feedOf (dentistBlock ++ plumberBlock))
  = [("Dentist", "2025-06-15"); ("Plumber", "--")]
  /\ listed (feedOf (plumberBlock ++ dentistBlock))
     = [("Plumber", "--"); ("Dentist", "2025-06-15")]
  /\ Date_parse demoRuntime "--" = None.
Proof.
  repeat split; vm_compute; reflexivity.
Qed.

(** C3 at the household configuration when the request for the Apple
    calendar fails: the bank holidays are returned all the same. *)
Lemma source_failure_witness :
  let net := serve NetworkError (Response true (Some holidayFeed)) in
  let resp :=
    fst (handleAppleCalendar Server.parseICSData demoRuntime demoEnv net
           initialStore 0) in
  exists k_i,
    forall e,
      In e (fst (Server.parseICSData demoRuntime holidayFeed "UK Holidays"
                   k_i)) ->
      In e (allEvents
              (fst (fetchAll Server.parseICSData demoRuntime demoEnv net 0)))
      /\ (actioned initialStore e = false -> In e (resp_events resp)).
Proof.
  exact (proj2 (source_failure_is_isolated Server.parseICSData demoRuntime
                  demoEnv
                  (serve NetworkError (Response true (Some holidayFeed)))
                  initialStore 0)
           2%nat {| name := "UK Holidays"; url := ukUrl |} holidayFeed
           eq_refl eq_refl eq_refl).
Defined.

(** C4 at a read ten minutes after the entry was stored. *)
Lemma weather_cache_witness :
  handleWeather demoRuntime demoEnv (fun _ => FetchFails) cachedStore 0
  = (WeatherCached (Some sunny) 10, cachedStore, [], 1%nat).
Proof.
  assert (Hkey : configured_key demoEnv) by (split; discriminate).
  exact (proj1 (proj1 (weather_cache_ttl demoRuntime demoEnv
                         (fun _ => FetchFails) cachedStore 0 Hkey)
                  {| data := Some sunny; timestamp := 1749999400000%Z |}
                  eq_refl eq_refl)).
Defined.

(* ================================================================== *)
(** ** The parser on any text                                          *)
(* ================================================================== *)

Lemma parse_split (v : Version) (rt : Runtime) (src text : string) (k : nat) :
  parseICSData_of v rt text src k
  = (events (fst (for_of (parseLine_of v rt src) (JS.split LF text)
                    parseStart k)),
     snd (for_of (parseLine_of v rt src) (JS.split LF text) parseStart k)).
Proof.
  destruct v; unfold parseICSData_of, Server.parseICSData,
    ServerBackup.parseICSData, bind, ret, parseStart, parseLine_of;
    match goal with
    | |- context [for_of ?b ?l ?s ?t] => destruct (for_of b l s t)
    end; reflexivity.
Qed.

Lemma step_outside (v : Version) (rt : Runtime) (src : string)
  (st : ParseState) (line : string) (k : nat) :
  currentEvent st = None -> opens line = false ->
  parseLine_of v rt src st line k = (st, k).
Proof.
  intros Hc Ho. rewrite parseLine_of_eq. unfold parseLineWith.
  unfold opens in Ho. rewrite Ho, Hc. reflexivity.
Qed.

Lemma loop_outside (v : Version) (rt : Runtime) (src : string)
  (lines : list string) (st : ParseState) (k : nat) :
  currentEvent st = None -> Forall (fun l => opens l = false) lines ->
  for_of (parseLine_of v rt src) lines st k = (st, k).
Proof.
  intros Hc H. induction H as [|l lines Hl _ IH].
  - reflexivity.
  - rewrite for_of_cons, step_outside by assumption. exact IH.
Qed.

(** X1.  Lines outside a block do nothing: a text none of whose lines opens
    a block (the empty text, an error page) yields no event and reads no
    clock; and the lines that come before the first opening line can be
    left out of a text without changing what the parser returns. *)
Theorem lines_outside_blocks_are_ignored (v : Version) (rt : Runtime)
  (src : string) (k : nat) :
  (forall text,
      Forall (fun l => opens l = false) (JS.split LF text) ->
      parseICSData_of v rt text src k = ([], k))
  /\ (forall before rest,
        Forall (fun l => opens l = false) before ->
        Forall (fun l => one_line l = true) (before ++ rest) ->
        rest <> [] ->
        parseICSData_of v rt (unlines (before ++ rest)) src k
        = parseICSData_of v rt (unlines rest) src k).
Proof.
  split.
  - intros text H.
    rewrite parse_split, loop_outside by (assumption || reflexivity).
    reflexivity.
  - intros before rest Hb Hl Hr.
    assert (Hrest : Forall (fun l => one_line l = true) rest).
    { apply Forall_app in Hl. tauto. }
    rewrite !parse_lines; try assumption.
    + rewrite for_of_app.
      rewrite (loop_outside v rt src before
                 {| events := []; currentEvent := None |} k eq_refl Hb).
      reflexivity.
    + destruct before; [exact Hr | discriminate].
Qed.

(** X1 at a text that is an HTML error page, and at a calendar whose
    header lines are dropped. *)
Lemma lines_outside_blocks_witness :
  parseICSData_of Current demoRuntime "<html>503 Service Unavailable</html>"
    "Apple Calendar" 0 = ([], 0%nat)
  /\ parseICSData_of Current demoRuntime
       (unlines (["BEGIN:VCALENDAR"; "VERSION:2.0"]
                 ++ ["BEGIN:VEVENT"; "SUMMARY:Dentist";
                     "DTSTART:20250615T140000"; "END:VEVENT"]))
       "Apple Calendar" 0
     = parseICSData_of Current demoRuntime
         (unlines ["BEGIN:VEVENT"; "SUMMARY:Dentist";
                   "DTSTART:20250615T140000"; "END:VEVENT"])
         "Apple Calendar" 0.
Proof.
  destruct (lines_outside_blocks_are_ignored Current demoRuntime
              "Apple Calendar" 0) as [Hnone Hdrop].
  split.
  - apply Hnone. repeat constructor.
  - apply Hdrop; [repeat constructor | repeat constructor | discriminate].
Defined.

(** A block that is opened and not closed leaves the events as they were. *)
Lemma loop_unclosed (v : Version) (rt : Runtime) (src opening : string)
  (lines : list string) (st : ParseState) (k : nat) :
  opens opening = true -> inner lines ->
  for_of (parseLine_of v rt src) (opening :: lines) st k
  = ({| events := events st;
        currentEvent := Some (collected v lines) |}, k).
Proof.
  intros Ho Hi. rewrite parseLine_of_eq, for_of_cons.
  rewrite (step_opens _ _ rt src st opening k Ho). cbn [fst snd].
  rewrite (loop_inner _ _ rt src lines Hi). reflexivity.
Qed.

Lemma loop_reopened (v : Version) (rt : Runtime) (src opening : string)
  (rest : list string) (st : ParseState) (k : nat) :
  opens opening = true ->
  for_of (parseLine_of v rt src) (opening :: rest) st k
  = for_of (parseLine_of v rt src) rest
      {| events := events st; currentEvent := Some emptyRaw |} k.
Proof.
  intros Ho. rewrite parseLine_of_eq, for_of_cons.
  rewrite (step_opens _ _ rt src st opening k Ho). reflexivity.
Qed.

(** X2.  A block that is never closed is dropped without an error: when a
    second opening line comes before the closing line, all that the first
    block had gathered is lost and the parser goes on as if the text started
    at the second opening line; and a text that ends inside a block (a feed
    cut short) yields the events of the text before that block. *)
Theorem unclosed_block_is_dropped (v : Version) (rt : Runtime) (src : string)
  (opening : string) (lines : list string) :
  opens opening = true -> inner lines ->
  (forall reopening rest st k,
      opens reopening = true ->
      for_of (parseLine_of v rt src)
        (opening :: lines ++ reopening :: rest) st k
      = for_of (parseLine_of v rt src) (reopening :: rest) st k)
  /\ (forall earlier k,
        earlier <> [] ->
        Forall (fun l => one_line l = true) (earlier ++ opening :: lines) ->
        parseICSData_of v rt (unlines (earlier ++ opening :: lines)) src k
        = parseICSData_of v rt (unlines earlier) src k).
Proof.
  intros Ho Hi. split.
  - intros reopening rest st k Hr.
    rewrite app_comm_cons, for_of_app.
    rewrite (loop_unclosed v rt src opening lines st k Ho Hi). cbn [fst snd].
    rewrite !(loop_reopened v rt src reopening) by assumption. reflexivity.
  - intros earlier k Hne Hl.
    assert (He : Forall (fun l => one_line l = true) earlier).
    { apply Forall_app in Hl. tauto. }
    rewrite !parse_lines; try assumption.
    + rewrite for_of_app.
      rewrite (loop_unclosed v rt src opening lines _ _ Ho Hi). reflexivity.
    + destruct earlier; [congruence | discriminate].
Qed.

(** X2 at a block whose closing line is missing before the next block. *)
Lemma unclosed_block_witness :
  parseICSData_of Backup demoRuntime
    (unlines (["BEGIN:VCALENDAR"]
              ++ "BEGIN:VEVENT" :: ["SUMMARY:Dentist"; "UID:dentist"]))
    "Apple Calendar" 0
  = parseICSData_of Backup demoRuntime (unlines ["BEGIN:VCALENDAR"])
      "Apple Calendar" 0.
Proof.
  assert (Hi : inner ["SUMMARY:Dentist"; "UID:dentist"])
    by (repeat constructor).
  apply (proj2 (unclosed_block_is_dropped Backup demoRuntime "Apple Calendar"
                  "BEGIN:VEVENT" ["SUMMARY:Dentist"; "UID:dentist"]
                  eq_refl Hi)).
  - discriminate.
  - repeat constructor.
Defined.

(* ================================================================== *)
(** ** What every emitted event satisfies                              *)
(* ================================================================== *)

Lemma length_substring (n m : nat) (s : string) :
  String.length (String.substring n m s)
  = Nat.min m (String.length s - n).
Proof.
  revert n m. induction s as [|c s IH]; intros n m.
  - destruct n, m; reflexivity.
  - destruct n as [|n].
    + destruct m as [|m]; [reflexivity|]. simpl. rewrite IH.
      now rewrite Nat.sub_0_r.
    + simpl. apply IH.
Qed.

Lemma length_js_substring (a b : nat) (s : string) :
  (a <= b)%nat -> (b <= String.length s)%nat ->
  String.length (JS.substring a b s) = (b - a)%nat.
Proof.
  intros Hab Hb. unfold JS.substring. rewrite length_substring. lia.
Qed.

Lemma clock_shape (h m : string) :
  String.length h = 2%nat -> String.length m = 2%nat ->
  clockShaped (h ++ ":" ++ m).
Proof.
  intros Hh Hm.
  destruct h as [|h1 [|h2 [|]]]; try discriminate Hh.
  destruct m as [|m1 [|m2 [|]]]; try discriminate Hm.
  split; reflexivity.
Qed.

Lemma time_part_shape (timePart : option string) :
  clockShaped
    (if JS.truthy timePart && (4 <=? String.length (JS.or_empty timePart))%nat
     then JS.substring 0 2 (JS.or_empty timePart) ++ ":"
          ++ JS.substring 2 4 (JS.or_empty timePart)
     else "00:00").
Proof.
  destruct (JS.truthy timePart); cbn [andb]; [|split; reflexivity].
  destruct (Nat.leb_spec 4 (String.length (JS.or_empty timePart)));
    [|split; reflexivity].
  apply clock_shape; rewrite length_js_substring; lia.
Qed.

Lemma formatICSTime_shape (v : Version) (icsDate : option string) :
  clockShaped (match v with
               | Current => Server.formatICSTime icsDate
               | Backup => ServerBackup.formatICSTime icsDate
               end).
Proof.
  destruct v; unfold Server.formatICSTime, ServerBackup.formatICSTime.
  - destruct (negb (JS.truthy icsDate)
              || negb (JS.includes "T" (JS.or_empty icsDate)));
      [split; reflexivity | apply time_part_shape].
  - destruct (negb (JS.truthy icsDate)); [split; reflexivity|].
    destruct (negb (JS.includes "T" (JS.replace "Z" "" (JS.or_empty icsDate))));
      [split; reflexivity | apply time_part_shape].
Qed.

(** A number is written with a digit or a minus sign first. *)
Lemma uint_head (d : Decimal.uint) :
  d <> Decimal.Nil ->
  exists c s, NilEmpty.string_of_uint d = String c s /\ c <> "A"%char.
Proof.
  destruct d; intros H; [congruence|..];
    (eexists _, _; split; [reflexivity | discriminate]).
Qed.

Lemma digits_head (n : Z) :
  exists c s, JS.digits n = String c s /\ c <> "A"%char.
Proof.
  unfold JS.digits. destruct n as [|p|p]; simpl.
  - eexists _, _; split; [reflexivity | discriminate].
  - apply uint_head, DecimalPos.Unsigned.to_uint_nonnil.
  - eexists _, _; split; [reflexivity | discriminate].
Qed.

Lemma large_head (x : Z) :
  exists c s, JS.large x = String c s /\ c <> "A"%char.
Proof.
  unfold JS.large.
  destruct (digits_head (JS.shortest x)) as (c & s & E & Hc).
  rewrite E. cbv zeta.
  destruct (String.length (String c s) <=? 21)%nat.
  - eauto.
  - cbn [JS.exponential]. eexists _, _; split; [reflexivity | exact Hc].
Qed.

Lemma toString_head (n : Z) :
  exists c s, JS.toString n = String c s /\ c <> "A"%char.
Proof.
  unfold JS.toString.
  destruct (Z.abs n <? 9007199254740992)%Z; [apply digits_head|].
  destruct (n <? 0)%Z; [|apply large_head].
  eexists _, _; split; [reflexivity | discriminate].
Qed.

Lemma toString_nonempty (n : Z) : JS.toString n <> "".
Proof.
  destruct (toString_head n) as (c & s & E & _). rewrite E. discriminate.
Qed.

Lemma truthy_nonempty (s : option string) :
  JS.truthy s = true -> JS.or_empty s <> "".
Proof. destruct s as [[|c s]|]; simpl; congruence. Qed.

Lemma backup_all_day (rt : Runtime) (start end_ : option string) :
  ServerBackup.calculateDuration rt start end_ true = "All day".
Proof.
  unfold ServerBackup.calculateDuration.
  destruct (negb (JS.truthy start)), (negb (JS.truthy end_)); reflexivity.
Qed.

Lemma makeEvent_wellFormed (v : Version) (rt : Runtime) (src : string)
  (cur : RawEvent) (k : nat) :
  JS.truthy (summary cur) = true ->
  wellFormedEvent v src (fst (makeEvent_of v rt src cur k)).
Proof.
  intros Hs.
  destruct (makeEvent_common v rt src cur k) as (Hid & Ht & _ & Hsrc & Hp).
  unfold wellFormedEvent. rewrite Hid, Ht, Hsrc, Hp.
  split; [apply truthy_nonempty, Hs|].
  split.
  { destruct (JS.truthy (uid cur)) eqn:E;
      [apply truthy_nonempty, E | apply toString_nonempty]. }
  split; [reflexivity|]. split; [reflexivity|].
  destruct v.
  - destruct (makeEvent_current rt src cur k) as (Htime & _ & Hall).
    unfold makeEvent_of. rewrite Htime, Hall. split; [|reflexivity].
    apply (formatICSTime_shape Current).
  - destruct (makeEvent_backup rt src cur k) as (Htime & Hdur & Hall).
    unfold makeEvent_of. rewrite Htime, Hdur, Hall.
    destruct (ServerBackup.allDay cur).
    + left. rewrite backup_all_day. auto.
    + right. split; [reflexivity|]. apply (formatICSTime_shape Backup).
Qed.

(** One turn of the loop keeps what holds of the events, and adds an event
    only on a closing line. *)
Lemma step_wellFormed (v : Version) (rt : Runtime) (src : string)
  (st : ParseState) (line : string) (k : nat) :
  Forall (wellFormedEvent v src) (events st) ->
  Forall (wellFormedEvent v src)
    (events (fst (parseLine_of v rt src st line k)))
  /\ (List.length (events (fst (parseLine_of v rt src st line k)))
      <= List.length (events st) + (if closes line then 1 else 0))%nat.
Proof.
  intros H. rewrite parseLine_of_eq. unfold parseLineWith, closes, bind, ret.
  destruct (JS.trim line =? "BEGIN:VEVENT"); cbn [fst events].
  { split; [exact H | lia]. }
  destruct (currentEvent st) as [cur|];
    [|cbn [fst]; split; [exact H | lia]].
  destruct (JS.trim line =? "END:VEVENT").
  - destruct (JS.truthy (summary cur)) eqn:Es; cbn [andb];
      [|cbn [fst events]; split; [exact H | lia]].
    destruct (JS.truthy (dtstart cur));
      [|cbn [fst events]; split; [exact H | lia]].
    pose proof (makeEvent_wellFormed v rt src cur k Es) as Hw.
    destruct (makeEvent_of v rt src cur k) as [e k']. cbn [fst events] in *.
    split.
    + apply Forall_app. split; [exact H|].
      constructor; [exact Hw | constructor].
    + rewrite List.length_app. simpl. lia.
  - destruct (JS.includes ":" (JS.trim line)); cbn [fst events];
      (split; [exact H | lia]).
Qed.

Lemma loop_wellFormed (v : Version) (rt : Runtime) (src : string)
  (lines : list string) (st : ParseState) (k : nat) :
  Forall (wellFormedEvent v src) (events st) ->
  Forall (wellFormedEvent v src)
    (events (fst (for_of (parseLine_of v rt src) lines st k)))
  /\ (List.length (events (fst (for_of (parseLine_of v rt src) lines st k)))
      <= List.length (events st) + closings lines)%nat.
Proof.
  revert st k. induction lines as [|l lines IH]; intros st k H.
  - cbn. split; [exact H | lia].
  - rewrite for_of_cons.
    destruct (step_wellFormed v rt src st l k H) as [Hw Hn].
    destruct (IH _ (snd (parseLine_of v rt src st l k)) Hw) as [Hw' Hn'].
    split; [exact Hw'|]. unfold closings in *. simpl filter.
    destruct (closes l); simpl List.length; lia.
Qed.

(** X3.  Whatever the text, every event that a parser returns has a
    non-empty title and a non-empty id, the priority ["medium"] and the
    label of its source; its time is a clock time of five characters with a
    colon in the middle (in [server-backup.ts], unless the event is flagged
    all-day, and then time and duration are both ["All day"]); and there are
    at most as many events as the text has closing lines. *)
Theorem every_event_is_well_formed (v : Version) (rt : Runtime)
  (src text : string) (k : nat) :
  Forall (wellFormedEvent v src) (fst (parseICSData_of v rt text src k))
  /\ (List.length (fst (parseICSData_of v rt text src k))
      <= closings (JS.split LF text))%nat.
Proof.
  rewrite parse_split. cbn [fst].
  destruct (loop_wellFormed v rt src (JS.split LF text) parseStart k
              (Forall_nil _)) as [Hw Hn].
  split; [exact Hw | exact Hn].
Qed.

(* ================================================================== *)
(** ** White space around the lines                                    *)
(* ================================================================== *)

Lemma trimEnd_snoc (c : ascii) (s : string) :
  JS.is_ws c = true -> JS.trimEnd (s ++ String c "") = JS.trimEnd s.
Proof.
  intros Hc. induction s as [|a s IH]; simpl.
  - now rewrite Hc.
  - now rewrite IH.
Qed.

Lemma trim_snoc (c : ascii) (s : string) :
  JS.is_ws c = true -> JS.trim (s ++ String c "") = JS.trim s.
Proof.
  intros Hc. unfold JS.trim. induction s as [|a s IH]; simpl.
  - now rewrite Hc.
  - destruct (JS.is_ws a); [exact IH|].
    apply (trimEnd_snoc c (String a s) Hc).
Qed.

Lemma step_trim (v : Version) (rt : Runtime) (src : string)
  (st : ParseState) (l l' : string) (k : nat) :
  JS.trim l = JS.trim l' ->
  parseLine_of v rt src st l k = parseLine_of v rt src st l' k.
Proof.
  intros H. rewrite parseLine_of_eq. unfold parseLineWith. now rewrite H.
Qed.

Lemma loop_trim (v : Version) (rt : Runtime) (src : string)
  (lines lines' : list string) :
  Forall2 (fun l l' => JS.trim l = JS.trim l') lines lines' ->
  forall st k,
    for_of (parseLine_of v rt src) lines st k
    = for_of (parseLine_of v rt src) lines' st k.
Proof.
  induction 1 as [|l l' lines lines' Hl _ IH]; intros st k.
  - reflexivity.
  - rewrite !for_of_cons, (step_trim v rt src st l l' k Hl). apply IH.
Qed.

Lemma one_line_withCR (l : string) : one_line (withCR l) = one_line l.
Proof.
  unfold withCR. induction l as [|c l IH]; simpl; [reflexivity|].
  now rewrite IH.
Qed.

(** X4.  The parser looks at a line only through its trimmed text: two
    texts whose lines agree once trimmed give the same events, so that a
    feed delimited by CRLF parses exactly as the same feed delimited by
    LF. *)
Theorem crlf_feed_parses_like_lf_feed (v : Version) (rt : Runtime)
  (src : string) (lines : list string) (k : nat) :
  lines <> [] -> Forall (fun l => one_line l = true) lines ->
  (forall lines',
      Forall (fun l => one_line l = true) lines' ->
      Forall2 (fun l l' => JS.trim l = JS.trim l') lines lines' ->
      parseICSData_of v rt (unlines lines') src k
      = parseICSData_of v rt (unlines lines) src k)
  /\ parseICSData_of v rt (unlines (map withCR lines)) src k
     = parseICSData_of v rt (unlines lines) src k.
Proof.
  intros Hne Hl.
  assert (G : forall lines',
             Forall (fun l => one_line l = true) lines' ->
             Forall2 (fun l l' => JS.trim l = JS.trim l') lines lines' ->
             parseICSData_of v rt (unlines lines') src k
             = parseICSData_of v rt (unlines lines) src k).
  { intros lines' Hl' H2. rewrite !parse_lines; try assumption.
    - now rewrite (loop_trim v rt src lines lines' H2).
    - intros ->. inversion H2. congruence. }
  split; [exact G|]. apply G.
  - apply Forall_map. eapply Forall_impl; [|exact Hl].
    intros l H. now rewrite one_line_withCR.
  - clear Hne Hl G. induction lines as [|l lines IH]; constructor.
    + unfold withCR. symmetry. now apply trim_snoc.
    + exact IH.
Qed.

(** X4 at a block whose lines end in a carriage return. *)
Lemma crlf_feed_witness :
  parseICSData_of Current demoRuntime
    (unlines (map withCR ["BEGIN:VEVENT"; "SUMMARY:Dentist";
                          "DTSTART:20250615T140000"; "END:VEVENT"]))
    "Apple Calendar" 0
  = parseICSData_of Current demoRuntime
      (unlines ["BEGIN:VEVENT"; "SUMMARY:Dentist";
                "DTSTART:20250615T140000"; "END:VEVENT"])
      "Apple Calendar" 0.
Proof.
  apply (crlf_feed_parses_like_lf_feed Current demoRuntime "Apple Calendar"
           ["BEGIN:VEVENT"; "SUMMARY:Dentist"; "DTSTART:20250615T140000";
            "END:VEVENT"] 0).
  - discriminate.
  - repeat constructor.
Defined.

(* ================================================================== *)
(** ** The other fields of an event                                    *)
(* ================================================================== *)

Lemma writes_description (v : Version) :
  writes (setProperty_of v) description DESCRIPTION.
Proof.
  intros cur key value.
  destruct v; unfold setProperty_of, Server.setProperty,
    ServerBackup.setProperty, DESCRIPTION; simpl existsb; by_key key.
Qed.

Lemma writes_location (v : Version) :
  writes (setProperty_of v) location LOCATION.
Proof.
  intros cur key value.
  destruct v; unfold setProperty_of, Server.setProperty,
    ServerBackup.setProperty, LOCATION; simpl existsb; by_key key.
Qed.

Lemma collected_description (v : Version) (lines : list string) :
  description (collected v lines) = supplied DESCRIPTION lines.
Proof.
  unfold collected.
  rewrite (collected_field _ description DESCRIPTION (writes_description v)).
  destruct (supplied DESCRIPTION lines); reflexivity.
Qed.

Lemma collected_location (v : Version) (lines : list string) :
  location (collected v lines) = supplied LOCATION lines.
Proof.
  unfold collected.
  rewrite (collected_field _ location LOCATION (writes_location v)).
  destruct (supplied LOCATION lines); reflexivity.
Qed.

Lemma makeEvent_texts (v : Version) (rt : Runtime) (src : string)
  (cur : RawEvent) (k : nat) :
  ev_description (fst (makeEvent_of v rt src cur k))
  = JS.or_empty (description cur)
  /\ ev_location (fst (makeEvent_of v rt src cur k))
     = JS.or_empty (location cur)
  /\ (k <= snd (makeEvent_of v rt src cur k) <= k + 2)%nat.
Proof.
  assert (D : forall t,
             (t <= snd (formatICSDate rt (dtstart cur) t) <= t + 1)%nat).
  { intros t. unfold formatICSDate, today, bind, ret, now.
    destruct (negb (JS.truthy (dtstart cur))); cbn; [lia|].
    destruct (String.length (JS.or_empty (dtstart cur)) =? 8)%nat; cbn;
      [lia|].
    destruct (JS.includes "T" (JS.or_empty (dtstart cur))); cbn; lia. }
  destruct v; unfold makeEvent_of, Server.makeEvent, ServerBackup.makeEvent,
    bind, ret, now;
    destruct (JS.truthy (uid cur));
    match goal with
    | |- context [formatICSDate ?r ?d ?t] =>
        pose proof (D t); destruct (formatICSDate r d t)
    end; cbn in *; repeat split; lia.
Qed.

Lemma supplied_last (names : list string) (lines : list string) (l : string) :
  supplied names (lines ++ [l])
  = if JS.includes ":" (JS.trim l)
       && existsb (String.eqb (key_of (JS.trim l))) names
    then Some (value_of (JS.trim l))
    else supplied names lines.
Proof.
  induction lines as [|a lines IH].
  - cbn. destruct (_ && _); reflexivity.
  - rewrite <- app_comm_cons, !supplied_cons, IH.
    destruct (JS.includes ":" (JS.trim l)
              && existsb (String.eqb (key_of (JS.trim l))) names);
      reflexivity.
Qed.

Lemma trimEnd_solid (p X : string) :
  solid p = true -> JS.trimEnd (p ++ X) = p ++ JS.trimEnd X.
Proof.
  induction p as [|c p IH]; intros H.
  - reflexivity.
  - simpl in H. apply andb_prop in H as [Hc Hp].
    apply negb_true_iff in Hc.
    change (String c p ++ X) with (String c (p ++ X)).
    rewrite trimEnd_cons, IH by assumption. reflexivity.
Qed.

Lemma trim_solid (p X : string) :
  p <> "" -> solid p = true -> no_trailing_space X ->
  JS.trim (p ++ X) = p ++ X.
Proof.
  intros Hne Hp HX. unfold JS.trim.
  assert (E : JS.trimStart (p ++ X) = p ++ X).
  { destruct p as [|c p]; [congruence|]. simpl in Hp |- *.
    apply andb_prop in Hp as [Hc _]. apply negb_true_iff in Hc.
    now rewrite Hc. }
  rewrite E, trimEnd_solid by assumption. now rewrite HX.
Qed.

Lemma includes_colon_cons (c : ascii) (s : string) :
  JS.includes ":" (String c s) = Ascii.eqb c ":" || JS.includes ":" s.
Proof.
  cbn [JS.includes prefix].
  destruct (ascii_dec ":" c) as [<-|Hne].
  - now rewrite prefix_empty.
  - replace (Ascii.eqb c ":") with false; [reflexivity|].
    symmetry. apply Ascii.eqb_neq. congruence.
Qed.

Lemma includes_colon_app (p X : string) :
  JS.includes ":" (p ++ ":" ++ X) = true.
Proof.
  induction p as [|c p IH].
  - cbn [append]. rewrite includes_colon_cons. reflexivity.
  - change (String c p ++ ":" ++ X) with (String c (p ++ ":" ++ X)).
    rewrite includes_colon_cons, IH. apply orb_true_r.
Qed.

(** A property line, as the parser reads it. *)
Lemma property_line (name value : string) :
  name <> "" -> solid name = true -> JS.includes ":" name = false ->
  no_trailing_space value ->
  JS.includes ":" (JS.trim (name ++ ":" ++ value)) = true
  /\ key_of (JS.trim (name ++ ":" ++ value)) = name
  /\ value_of (JS.trim (name ++ ":" ++ value)) = value.
Proof.
  intros Hne Hs Hc Hv.
  assert (E : JS.trim (name ++ ":" ++ value) = name ++ ":" ++ value).
  { replace (name ++ ":" ++ value) with ((name ++ ":") ++ value).
    - apply trim_solid;
        [destruct name; [congruence | discriminate] | | exact Hv].
      clear Hne Hc. induction name as [|c n IH]; [reflexivity|].
      simpl in Hs |- *. apply andb_prop in Hs as [H1 H2].
      now rewrite H1, IH.
    - clear. induction name as [|c n IH]; [reflexivity|].
      simpl. now rewrite IH. }
  rewrite E. destruct (key_value name value Hc) as [Hk Hval].
  split; [apply includes_colon_app | split; assumption].
Qed.

(** X5.  The event of a block takes its description and its location from
    the last DESCRIPTION and LOCATION line of the block, and the empty
    string when there is none; its id is the value of the last UID line
    when that is not empty, and the clock reading otherwise; a value keeps
    the colons it holds (a location that is a URL comes out whole); and
    pushing the event reads the clock at most twice. *)
Theorem event_fields_follow_the_block (v : Version) (rt : Runtime)
  (src : string) (lines : list string) (k : nat) :
  inner lines -> Forall (fun l => one_line l = true) lines ->
  JS.truthy (supplied SUMMARY lines) = true ->
  JS.truthy (supplied DTSTART lines) = true ->
  (exists e k',
      parseICSData_of v rt (block lines) src k = ([e], k')
      /\ ev_description e = JS.or_empty (supplied DESCRIPTION lines)
      /\ ev_location e = JS.or_empty (supplied LOCATION lines)
      /\ id e = (if JS.truthy (supplied UID lines)
                 then JS.or_empty (supplied UID lines)
                 else JS.toString (Date_now rt k))
      /\ (k <= k' <= k + 2)%nat)
  /\ (forall place,
        one_line place = true -> no_trailing_space place ->
        exists e k',
          parseICSData_of v rt (block (lines ++ ["LOCATION:" ++ place])) src k
          = ([e], k')
          /\ ev_location e = place).
Proof.
  intros Hi Hl Hs Hd.
  assert (G : forall ls,
             inner ls -> Forall (fun l => one_line l = true) ls ->
             JS.truthy (supplied SUMMARY ls) = true ->
             JS.truthy (supplied DTSTART ls) = true ->
             exists e k',
               parseICSData_of v rt (block ls) src k = ([e], k')
               /\ ev_description e = JS.or_empty (supplied DESCRIPTION ls)
               /\ ev_location e = JS.or_empty (supplied LOCATION ls)
               /\ id e = (if JS.truthy (supplied UID ls)
                          then JS.or_empty (supplied UID ls)
                          else JS.toString (Date_now rt k))
               /\ (k <= k' <= k + 2)%nat).
  { intros ls Hi' Hl' Hs' Hd'.
    eexists _, _. split; [apply parse_block_text; assumption|].
    destruct (makeEvent_texts v rt src (collected v ls) k) as (H1 & H2 & H3).
    destruct (makeEvent_common v rt src (collected v ls) k) as (Hid & _).
    rewrite H1, H2, Hid, collected_description, collected_location,
      collected_uid.
    auto. }
  split; [apply G; assumption|].
  intros place Hp Ht.
  destruct (property_line "LOCATION" place ltac:(discriminate) eq_refl
              eq_refl Ht) as (Hinc & Hkey & Hval).
  destruct (G (lines ++ [("LOCATION:" ++ place)%string])%list)
    as (e & k' & Hp' & _ & Hloc & _).
  - apply Forall_app. split; [exact Hi|]. constructor; [|constructor].
    unfold opens, closes.
    change ("LOCATION:" ++ place) with ("LOCATION" ++ ":" ++ place).
    destruct (String.eqb_spec (JS.trim ("LOCATION" ++ ":" ++ place))
                "BEGIN:VEVENT") as [E|_];
      [rewrite E in Hkey; discriminate Hkey|].
    destruct (String.eqb_spec (JS.trim ("LOCATION" ++ ":" ++ place))
                "END:VEVENT") as [E|_];
      [rewrite E in Hkey; discriminate Hkey|].
    split; reflexivity.
  - apply Forall_app. split; [exact Hl|]. constructor; [|constructor].
    exact Hp.
  - change ("LOCATION:" ++ place) with ("LOCATION" ++ ":" ++ place).
    rewrite supplied_last, Hinc, Hkey. exact Hs.
  - change ("LOCATION:" ++ place) with ("LOCATION" ++ ":" ++ place).
    rewrite supplied_last, Hinc, Hkey. exact Hd.
  - exists e, k'. split; [exact Hp'|]. rewrite Hloc.
    change ("LOCATION:" ++ place) with ("LOCATION" ++ ":" ++ place).
    rewrite supplied_last, Hinc, Hkey, Hval. reflexivity.
Qed.

(** X5 at a block whose location is a URL. *)
Lemma event_fields_witness :
  exists e k',
    parseICSData_of Current demoRuntime
      (block (["SUMMARY:Parents evening"; "DTSTART:20250616T180000"]
              ++ ["LOCATION:" ++ "https://meet.example.org/room:42"]))
      "Apple Calendar" 0 = ([e], k')
    /\ ev_location e = "https://meet.example.org/room:42".
Proof.
  assert (Hi : inner ["SUMMARY:Parents evening"; "DTSTART:20250616T180000"])
    by (repeat constructor).
  assert (Hl : Forall (fun l => one_line l = true)
                 ["SUMMARY:Parents evening"; "DTSTART:20250616T180000"])
    by (repeat constructor).
  exact (proj2 (event_fields_follow_the_block Current demoRuntime
                  "Apple Calendar"
                  ["SUMMARY:Parents evening"; "DTSTART:20250616T180000"] 0
                  Hi Hl eq_refl eq_refl)
           "https://meet.example.org/room:42" eq_refl eq_refl).
Defined.

(* ================================================================== *)
(** ** [formatICSTime]                                                 *)
(* ================================================================== *)

Lemma append_assoc (a b c : string) : (a ++ b) ++ c = a ++ b ++ c.
Proof. induction a as [|x a IH]; simpl; [reflexivity | now rewrite IH]. Qed.

Lemma split_T_head (p r : string) :
  JS.includes "T" p = false ->
  hd "" (JS.split "T" (p ++ r)) = p ++ hd "" (JS.split "T" r).
Proof.
  induction p as [|c p IH]; intros H.
  - reflexivity.
  - rewrite includes_T_cons in H. apply orb_false_iff in H as [Hc Hp].
    change (String c p ++ r) with (String c (p ++ r)).
    rewrite split_other by exact Hc. cbn [hd]. now rewrite IH.
Qed.

Lemma split_T_second (d X : string) :
  JS.includes "T" d = false ->
  nth_error (JS.split "T" (d ++ String "T" X)) 1
  = Some (hd "" (JS.split "T" X)).
Proof.
  induction d as [|c d IH]; intros H.
  - cbn [append JS.split]. rewrite Ascii.eqb_refl. cbn [nth_error].
    now rewrite (split_nonempty "T" X).
  - rewrite includes_T_cons in H. apply orb_false_iff in H as [Hc Hd].
    change (String c d ++ String "T" X) with (String c (d ++ String "T" X)).
    rewrite split_other by exact Hc.
    specialize (IH Hd).
    rewrite (split_nonempty "T" (d ++ String "T" X)) in IH. exact IH.
Qed.

(** The time of a token whose part after the first ["T"] starts with two
    groups of two characters. *)
Lemma time_part (d hh mm rest : string) :
  JS.includes "T" d = false ->
  String.length hh = 2%nat -> String.length mm = 2%nat ->
  JS.includes "T" (hh ++ mm) = false ->
  Server.formatICSTime (Some (d ++ "T" ++ hh ++ mm ++ rest)) = hh ++ ":" ++ mm.
Proof.
  intros Hd Hh Hm HT. unfold Server.formatICSTime.
  change ("T" ++ hh ++ mm ++ rest) with (String "T" (hh ++ mm ++ rest)).
  replace (JS.truthy (Some (d ++ String "T" (hh ++ mm ++ rest)))) with true
    by (now destruct d).
  cbn [negb orb JS.or_empty]. rewrite includes_T_app. cbn [negb].
  rewrite (split_T_second d _ Hd).
  replace (hh ++ mm ++ rest) with ((hh ++ mm) ++ rest)
    by (destruct hh as [|a [|b [|]]]; try discriminate Hh; reflexivity).
  rewrite (split_T_head _ rest HT).
  destruct hh as [|a [|b [|]]]; try discriminate Hh.
  destruct mm as [|c [|e [|]]]; try discriminate Hm.
  cbn [append JS.truthy JS.or_empty String.length Nat.leb andb].
  unfold JS.substring.
  cbn [append String.length Nat.min Nat.max Nat.sub String.substring].
  now destruct (hd "" (JS.split "T" rest)).
Qed.

Lemma includes_Z_cons (c : ascii) (s : string) :
  JS.includes "Z" (String c s) = Ascii.eqb c "Z" || JS.includes "Z" s.
Proof.
  cbn [JS.includes prefix].
  destruct (ascii_dec "Z" c) as [<-|Hne].
  - now rewrite prefix_empty.
  - replace (Ascii.eqb c "Z") with false; [reflexivity|].
    symmetry. apply Ascii.eqb_neq. congruence.
Qed.

Lemma replace_Z_cons (c : ascii) (s : string) :
  JS.replace "Z" "" (String c s)
  = if Ascii.eqb c "Z" then s else String c (JS.replace "Z" "" s).
Proof.
  cbn [JS.replace prefix].
  destruct (ascii_dec "Z" c) as [<-|Hne].
  - rewrite prefix_empty. reflexivity.
  - replace (Ascii.eqb c "Z") with false; [reflexivity|].
    symmetry. apply Ascii.eqb_neq. congruence.
Qed.

(** Only the first ["Z"] goes, and only from the part that holds it. *)
Lemma replace_Z_app (p r : string) :
  JS.includes "Z" p = false ->
  JS.replace "Z" "" (p ++ r) = p ++ JS.replace "Z" "" r.
Proof.
  induction p as [|c p IH]; intros H.
  - reflexivity.
  - rewrite includes_Z_cons in H. apply orb_false_iff in H as [Hc Hp].
    change (String c p ++ r) with (String c (p ++ r)).
    rewrite replace_Z_cons, Hc, IH by exact Hp. reflexivity.
Qed.

Lemma includes_T_replace (s : string) :
  JS.includes "T" (JS.replace "Z" "" s) = JS.includes "T" s.
Proof.
  induction s as [|c s IH].
  - reflexivity.
  - rewrite replace_Z_cons. destruct (Ascii.eqb c "Z") eqn:E.
    + apply Ascii.eqb_eq in E. subst c. now rewrite includes_T_cons.
    + now rewrite !includes_T_cons, IH.
Qed.

Lemma backup_time_is_current_time (s : string) :
  ServerBackup.formatICSTime (Some s)
  = if s =? "" then "00:00"
    else Server.formatICSTime (Some (JS.replace "Z" "" s)).
Proof.
  destruct s as [|c s]; [reflexivity|].
  replace (String c s =? "") with false by reflexivity.
  unfold ServerBackup.formatICSTime, Server.formatICSTime.
  replace (JS.truthy (Some (String c s))) with true by reflexivity.
  cbn [negb JS.or_empty].
  remember (JS.replace "Z" "" (String c s)) as r eqn:Er. clear Er.
  destruct (JS.includes "T" r) eqn:E.
  - destruct r; [discriminate E | reflexivity].
  - cbn [negb]. now rewrite orb_true_r.
Qed.

Lemma backup_time_part (d hh mm rest : string) :
  JS.includes "T" d = false ->
  String.length hh = 2%nat -> String.length mm = 2%nat ->
  JS.includes "T" (hh ++ mm) = false ->
  JS.includes "Z" (d ++ "T" ++ hh ++ mm) = false ->
  ServerBackup.formatICSTime (Some (d ++ "T" ++ hh ++ mm ++ rest))
  = hh ++ ":" ++ mm.
Proof.
  intros Hd Hh Hm HT HZ. rewrite backup_time_is_current_time.
  replace (d ++ "T" ++ hh ++ mm ++ rest =? "") with false
    by (now destruct d).
  assert (A : forall t, d ++ "T" ++ hh ++ mm ++ t
                        = (d ++ "T" ++ hh ++ mm) ++ t).
  { intros t. now rewrite !append_assoc. }
  rewrite A, (replace_Z_app _ rest HZ), <- A.
  now apply time_part.
Qed.

(** X6.  The time of the event that the parser makes of a block whose
    start token is [d T hh mm rest], where [d] holds no ["T"] and [hh] and
    [mm] are two characters each without a ["T"]:
    - in [server.ts] it is [hh:mm], whatever follows (seconds, a UTC
      designator ["Z"]: no conversion between time zones takes place);
    - in [server-backup.ts] it is [hh:mm] as well when the start line is
      not named [DTSTART;VALUE=DATE] and no ["Z"] stands before the end of
      the minutes, and ["All day"] whenever the start line is named
      [DTSTART;VALUE=DATE].
    For a start token without a ["T"] the time is ["00:00"] in [server.ts];
    in [server-backup.ts] it is ["All day"] when the start line is named
    [DTSTART;VALUE=DATE] or the token has 8 characters, and ["00:00"]
    otherwise. *)
Theorem time_is_read_off_the_token (v : Version) (rt : Runtime)
  (src : string) (lines : list string) (k : nat) :
  let e := fst (makeEvent_of v rt src (collected v lines) k) in
  (forall d hh mm rest,
      supplied DTSTART lines = Some (d ++ "T" ++ hh ++ mm ++ rest) ->
      JS.includes "T" d = false ->
      String.length hh = 2%nat -> String.length mm = 2%nat ->
      JS.includes "T" (hh ++ mm) = false ->
      match v with
      | Current => time e = hh ++ ":" ++ mm
      | Backup =>
          (startsAsDate lines = false ->
           JS.includes "Z" (d ++ "T" ++ hh ++ mm) = false ->
           time e = hh ++ ":" ++ mm)
          /\ (startsAsDate lines = true -> time e = "All day")
      end)
  /\ (JS.includes "T" (JS.or_empty (supplied DTSTART lines)) = false ->
      time e
      = match v with
        | Current => "00:00"
        | Backup =>
            if startsAsDate lines
               || (String.length (JS.or_empty (supplied DTSTART lines))
                   =? 8)%nat
            then "All day" else "00:00"
        end).
Proof.
  intros e. unfold e. rewrite block_time. unfold timeOfBlock. split.
  - intros d hh mm rest Hs Hd Hh Hm HT. rewrite Hs. destruct v.
    + now apply time_part.
    + cbn [JS.or_empty].
      change ("T" ++ hh ++ mm ++ rest) with (String "T" (hh ++ mm ++ rest)).
      rewrite includes_T_app. cbn [negb andb]. split.
      * intros -> HZ. cbn [orb].
        change (String "T" (hh ++ mm ++ rest)) with ("T" ++ hh ++ mm ++ rest).
        now apply backup_time_part.
      * intros ->. reflexivity.
  - intros H. destruct v.
    + unfold Server.formatICSTime. rewrite H. cbn [negb].
      now rewrite orb_true_r.
    + rewrite H. cbn [negb andb].
      destruct (startsAsDate lines
                || (String.length (JS.or_empty (supplied DTSTART lines))
                    =? 8)%nat); [reflexivity|].
      unfold ServerBackup.formatICSTime.
      destruct (JS.truthy (supplied DTSTART lines)); [|reflexivity].
      cbn [negb]. now rewrite includes_T_replace, H.
Qed.

(** X6 at a start given in UTC, read by [server-backup.ts], and at the
    same token on a line named [DTSTART;VALUE=DATE]. *)
Lemma time_of_token_witness :
  time (fst (ServerBackup.makeEvent demoRuntime "Apple Calendar"
               (collected Backup
                  ["SUMMARY:Call"; "DTSTART:20250616T183000Z"]) 0))
  = "18:30"
  /\ time (fst (ServerBackup.makeEvent demoRuntime "Apple Calendar"
                  (collected Backup
                     ["SUMMARY:Call";
                      "DTSTART;VALUE=DATE:20250616T183000Z"]) 0))
     = "All day".
Proof.
  split.
  - apply (proj1 (time_is_read_off_the_token Backup demoRuntime
                    "Apple Calendar"
                    ["SUMMARY:Call"; "DTSTART:20250616T183000Z"] 0)
             "20250616" "18" "30" "00Z"); reflexivity.
  - apply (proj1 (time_is_read_off_the_token Backup demoRuntime
                    "Apple Calendar"
                    ["SUMMARY:Call"; "DTSTART;VALUE=DATE:20250616T183000Z"]
                    0)
             "20250616" "18" "30" "00Z"); reflexivity.
Defined.

(* ================================================================== *)
(** ** The range of [calculateDuration]                                *)
(* ================================================================== *)

Lemma count_not_all_day (units : list string) (out : string) :
  countOf units out -> out <> "All day".
Proof.
  intros (n & unit & Hn & _ & ->). unfold plural.
  destruct (toString_head n) as (c & s & E & Hc). rewrite E.
  cbn [append]. congruence.
Qed.

Lemma positive_count (n : Z) (unit : string) (units : list string) :
  (0 <? n)%Z = true -> In unit units -> countOf units (plural n unit).
Proof.
  intros H Hu. apply Z.ltb_lt in H. exists n, unit.
  repeat split; [lia | exact Hu].
Qed.

Lemma one_hour (units : list string) :
  In "hour" units -> countOf units "1 hour".
Proof. intros H. exists 1%Z, "hour". repeat split; [lia | exact H]. Qed.

Lemma current_count (rt : Runtime) (start end_ : option string) :
  countOf ["hour"] (Server.calculateDuration rt start end_).
Proof.
  assert (Hh : In "hour" ["hour"]) by (now left).
  unfold Server.calculateDuration.
  destruct (negb (JS.truthy start) || negb (JS.truthy end_));
    [now apply one_hour|].
  destruct (diff_ms _ _) as [d|]; [|now apply one_hour].
  cbv zeta.
  destruct (0 <? JS.round_div d (1000 * 60 * 60))%Z eqn:E;
    [now apply positive_count | now apply one_hour].
Qed.

Lemma backup_count (rt : Runtime) (start end_ : option string) :
  countOf ["day"; "hour"; "minute"]
    (ServerBackup.calculateDuration rt start end_ false).
Proof.
  assert (Hh : In "hour" ["day"; "hour"; "minute"]) by (right; now left).
  unfold ServerBackup.calculateDuration.
  destruct (negb (JS.truthy start)); [now apply one_hour|].
  destruct (negb (JS.truthy end_)); [now apply one_hour|].
  destruct (diff_ms _ _) as [d|]; [|now apply one_hour].
  destruct (d <=? 0)%Z; [now apply one_hour|]. cbv zeta.
  destruct (0 <? d / (1000 * 60 * 60 * 24))%Z eqn:E1;
    [apply positive_count; [exact E1 | now left]|].
  destruct (0 <? JS.round_div d (1000 * 60 * 60))%Z eqn:E2;
    [now apply positive_count|].
  destruct (0 <? JS.round_div d (1000 * 60))%Z eqn:E3;
    [apply positive_count; [exact E3 | right; right; now left]
    | now apply one_hour].
Qed.

(** X7.  Whatever the two tokens and whatever [Date] makes of them, the
    duration that [server.ts] computes is a positive number of hours, and
    the one that [server-backup.ts] computes for a timed event is a
    positive number of days, hours or minutes: never zero, never negative,
    never the text of a NaN; and [server-backup.ts] answers ["All day"]
    exactly when the all-day flag is set, [server.ts] never. *)
Theorem duration_is_a_positive_count (rt : Runtime)
  (start end_ : option string) :
  countOf ["hour"] (Server.calculateDuration rt start end_)
  /\ countOf ["day"; "hour"; "minute"]
       (ServerBackup.calculateDuration rt start end_ false)
  /\ (forall flag,
        ServerBackup.calculateDuration rt start end_ flag = "All day"
        <-> flag = true)
  /\ Server.calculateDuration rt start end_ <> "All day".
Proof.
  split; [apply current_count|].
  split; [apply backup_count|].
  split.
  - intros [|]; split; intros H.
    + reflexivity.
    + apply backup_all_day.
    + exfalso. exact (count_not_all_day _ _ (backup_count rt start end_) H).
    + discriminate H.
  - exact (count_not_all_day _ _ (current_count rt start end_)).
Qed.

(* ================================================================== *)
(** ** What the action sets hold                                       *)
(* ================================================================== *)

Lemma In_add (s : JS.set) (v w : JS.field) :
  In v (JS.add s w) <-> In v s \/ v = w.
Proof.
  unfold JS.add. destruct (JS.has s w) eqn:E.
  - apply has_In in E. split; [now left|]. intros [H | ->]; assumption.
  - rewrite in_app_iff. simpl. split.
    + intros [H | [H | []]]; [now left | now right].
    + intros [H | H]; [now left | right; now left].
Qed.



(** One request, case by case. *)
Lemma handleEventAction_cases (st : Store) (req : ActionRequest) :
  (exists b, method req = "POST" /\ body req = Some b
             /\ JS.field_truthy (eventId b) = true
             /\ action b = JS.Scalar (JS.Str "complete")
             /\ logLine b <> None
             /\ action_status (fst (handleEventAction st req)) = 200%nat
             /\ snd (handleEventAction st req)
                = {| weatherCache := weatherCache st;
                     completedEvents := JS.add (completedEvents st) (eventId b);
                     dismissedEvents := dismissedEvents st |})
  \/ (exists b, method req = "POST" /\ body req = Some b
                /\ JS.field_truthy (eventId b) = true
                /\ action b = JS.Scalar (JS.Str "dismiss")
                /\ logLine b <> None
                /\ action_status (fst (handleEventAction st req)) = 200%nat
                /\ snd (handleEventAction st req)
                   = {| weatherCache := weatherCache st;
                        completedEvents := completedEvents st;
                        dismissedEvents :=
                          JS.add (dismissedEvents st) (eventId b) |})
  \/ (action_status (fst (handleEventAction st req)) <> 200%nat
      /\ snd (handleEventAction st req) = st
      /\ forall a v, a = "complete" \/ a = "dismiss" -> ~ records a v req).
Proof.
  unfold handleEventAction.
  destruct (method req =? "POST") eqn:Em; cbn [negb].
  2:{ right; right. repeat split; [discriminate|].
      intros a v _ (Hm & _). apply String.eqb_neq in Em. contradiction. }
  apply String.eqb_eq in Em.
  destruct (body req) as [b|] eqn:Eb.
  2:{ right; right. repeat split; [discriminate|].
      intros a v _ (_ & b & Hb & _). rewrite Eb in Hb. discriminate Hb. }
  destruct (JS.field_truthy (eventId b)) eqn:Ei; cbn [negb orb].
  2:{ right; right. repeat split; [discriminate|].
      intros a v _ (_ & b' & Hb & Hv & _ & Ht & _). rewrite Eb in Hb.
      injection Hb as <-. rewrite Hv in Ei. congruence. }
  destruct (JS.field_truthy (action b)) eqn:Ea; cbn [negb].
  2:{ right; right. repeat split; [discriminate|].
      intros a v [-> | ->] (_ & b' & Hb & _ & Hact & _); rewrite Eb in Hb;
        injection Hb as <-; rewrite Hact in Ea; discriminate Ea. }
  destruct (logLine b) as [line|] eqn:El.
  2:{ right; right. repeat split; [discriminate|].
      intros a v _ (_ & b' & Hb & _ & _ & _ & Hl). rewrite Eb in Hb.
      injection Hb as <-. contradiction. }
  destruct (JS.field_eqb (action b) (JS.Scalar (JS.Str "complete"))) eqn:Ec.
  { left. exists b. apply field_eqb_eq in Ec.
    repeat split; (assumption || congruence). }
  destruct (JS.field_eqb (action b) (JS.Scalar (JS.Str "dismiss"))) eqn:Ed.
  { right; left. exists b. apply field_eqb_eq in Ed.
    repeat split; (assumption || congruence). }
  right; right. repeat split; [discriminate|].
  apply field_eqb_neq in Ec. apply field_eqb_neq in Ed.
  intros a v [-> | ->] (_ & b' & Hb & _ & Hact & _); rewrite Eb in Hb;
    injection Hb as <-; contradiction.
Qed.

Lemma handleEventAction_sets (st : Store) (req : ActionRequest)
  (v : JS.field) :
  (In v (completedEvents (snd (handleEventAction st req)))
   <-> In v (completedEvents st) \/ records "complete" v req)
  /\ (In v (dismissedEvents (snd (handleEventAction st req)))
      <-> In v (dismissedEvents st) \/ records "dismiss" v req)
  /\ weatherCache (snd (handleEventAction st req)) = weatherCache st.
Proof.
  destruct (handleEventAction_cases st req)
    as [(b & Hm & Hb & Ht & Ha & Hl & _ & ->)
       | [(b & Hm & Hb & Ht & Ha & Hl & _ & ->)
       | (_ & -> & Hn)]]; cbn [completedEvents dismissedEvents weatherCache].
  - split; [|split; [|reflexivity]].
    + rewrite In_add. split.
      * intros [H | ->]; [now left|]. right. split; [exact Hm|].
        exists b. repeat split; assumption.
      * intros [H | (_ & b' & Hb' & Hv & _)]; [now left|]. right.
        rewrite Hb in Hb'. injection Hb' as <-. now symmetry.
    + split; [now left|]. intros [H | (_ & b' & Hb' & _ & Ha' & _)];
        [exact H|]. rewrite Hb in Hb'. injection Hb' as <-.
      rewrite Ha in Ha'. discriminate Ha'.
  - split; [|split; [|reflexivity]].
    + split; [now left|]. intros [H | (_ & b' & Hb' & _ & Ha' & _)];
        [exact H|]. rewrite Hb in Hb'. injection Hb' as <-.
      rewrite Ha in Ha'. discriminate Ha'.
    + rewrite In_add. split.
      * intros [H | ->]; [now left|]. right. split; [exact Hm|].
        exists b. repeat split; assumption.
      * intros [H | (_ & b' & Hb' & Hv & _)]; [now left|]. right.
        rewrite Hb in Hb'. injection Hb' as <-. now symmetry.
  - split; [|split; [|reflexivity]].
    + split; [now left|]. intros [H | H]; [exact H|].
      exfalso. exact (Hn "complete" v (or_introl eq_refl) H).
    + split; [now left|]. intros [H | H]; [exact H|].
      exfalso. exact (Hn "dismiss" v (or_intror eq_refl) H).
Qed.

(** X8.  After any sequence of requests a value (a string, a number, a
    boolean, or an array or an object, which is one object and no other) is
    in the set of the completed events exactly when it was there before or
    one of the requests was a POST with a body asking to complete that
    value as [eventId], the value being truthy and the three fields
    [action], [eventId] and [source] of the body being printable in the log
    line; and the same for the dismissed events: nothing else gets in,
    nothing ever gets out, and the weather cache is not touched. *)
Theorem action_sets_hold_what_was_posted (reqs : list ActionRequest)
  (st : Store) (v : JS.field) :
  (In v (completedEvents (handleActions st reqs))
   <-> In v (completedEvents st) \/ Exists (records "complete" v) reqs)
  /\ (In v (dismissedEvents (handleActions st reqs))
      <-> In v (dismissedEvents st) \/ Exists (records "dismiss" v) reqs)
  /\ weatherCache (handleActions st reqs) = weatherCache st.
Proof.
  revert st. induction reqs as [|r reqs IH]; intros st.
  - cbn [handleActions fold_left]. repeat split; try tauto;
      intros [H | H]; [exact H | inversion H | exact H | inversion H].
  - change (handleActions st (r :: reqs))
      with (handleActions (snd (handleEventAction st r)) reqs).
    destruct (IH (snd (handleEventAction st r))) as (Ic & Id & Iw).
    destruct (handleEventAction_sets st r v) as (Sc & Sd & Sw).
    rewrite Ic, Id, Iw, Sc, Sd, Sw, !Exists_cons. tauto.
Qed.

(** X8 at an event id that is an array: it is stored, and a body whose
    [source] cannot be printed stores nothing. *)
Lemma action_sets_witness :
  In (JS.Ref 7 (Some "1,2"))
    (completedEvents
       (handleActions initialStore [actionOnObject "complete" 7 "1,2"]))
  /\ ~ In (JS.Scalar (JS.Str "a1"))
         (completedEvents
            (handleActions initialStore
               [{| method := "POST";
                   body := Some {| eventId := JS.Scalar (JS.Str "a1");
                                   action := JS.Scalar (JS.Str "complete");
                                   body_source := JS.Ref 0 None |} |}])).
Proof.
  split.
  - apply (action_sets_hold_what_was_posted
             [actionOnObject "complete" 7 "1,2"] initialStore
             (JS.Ref 7 (Some "1,2"))).
    right. constructor. split; [reflexivity|]. eexists. split; [reflexivity|].
    repeat split. discriminate.
  - intros H.
    apply (action_sets_hold_what_was_posted _ initialStore) in H.
    destruct H as [[] | H]. inversion H as [? ? R | ? ? R]; [|inversion R].
    destruct R as (_ & b & Hb & _ & _ & _ & Hl). injection Hb as <-.
    apply Hl. reflexivity.
Defined.



(* ================================================================== *)
(** ** Where the events of the aggregation come from                   *)
(* ================================================================== *)

Section Origin.

Variable parse : Parser.
Variable rt : Runtime.

Lemma fetchSource_origin (net : Network) (fs : FetchState)
  (src : CalendarSource) (k : nat) (e : Event) :
  In e (allEvents (fst (fetchSource parse rt net fs src k))) ->
  In e (allEvents fs)
  \/ (notConfigured (url src) = false
      /\ exists text,
           net (requests fs) (calendarUrl src) = Response true (Some text)
           /\ In e (fst (parse rt text (name src) k))).
Proof.
  unfold fetchSource, bind, ret. fold (calendarUrl src).
  destruct (notConfigured (url src)); [now left|].
  destruct (net (requests fs) (calendarUrl src)) as [|[|] [t|]];
    try (now left).
  destruct (parse rt t (name src) k) as [evs k'] eqn:E. cbn [fst allEvents].
  intros H. apply in_app_or in H as [H | H]; [now left|].
  right. split; [reflexivity|]. exists t. now rewrite E.
Qed.

Lemma requests_step (net : Network) (fs : FetchState) (a : CalendarSource)
  (k i : nat) (l : list CalendarSource) :
  (requests (fst (fetchSource parse rt net fs a k))
   + List.length (filter isConfigured (firstn i l)))%nat
  = (requests fs
     + List.length (filter isConfigured (firstn (S i) (a :: l))))%nat.
Proof.
  rewrite fetchSource_requests. cbn [firstn filter].
  fold (isConfigured a). destruct (isConfigured a); simpl; lia.
Qed.

Lemma fetch_loop_origin (net : Network) (l : list CalendarSource) :
  forall (fs : FetchState) (k : nat) (e : Event),
    In e (allEvents (fst (for_of (fetchSource parse rt net) l fs k))) ->
    In e (allEvents fs)
    \/ exists i src text k_i,
         nth_error l i = Some src
         /\ notConfigured (url src) = false
         /\ net (requests fs + List.length (filter isConfigured (firstn i l)))
              (calendarUrl src) = Response true (Some text)
         /\ In e (fst (parse rt text (name src) k_i)).
Proof.
  induction l as [|a l IH]; intros fs k e H.
  - now left.
  - rewrite for_of_cons in H. apply IH in H as [H | H].
    + apply fetchSource_origin in H as [H | (Hc & text & Hn & He)];
        [now left|].
      right. exists 0%nat, a, text, k. cbn [nth_error firstn filter length].
      rewrite Nat.add_0_r. repeat split; assumption.
    + destruct H as (i & src & text & k_i & Hn & Hc & Hnet & He).
      right. exists (S i), src, text, k_i.
      rewrite requests_step in Hnet. repeat split; assumption.
Qed.

Lemma fetchSource_frame (net net' : Network) (fs : FetchState)
  (src : CalendarSource) (k : nat) :
  (notConfigured (url src) = false ->
   net' (requests fs) (calendarUrl src)
   = net (requests fs) (calendarUrl src)) ->
  fetchSource parse rt net' fs src k = fetchSource parse rt net fs src k.
Proof.
  unfold fetchSource. fold (calendarUrl src). intros H.
  destruct (notConfigured (url src)); [reflexivity|].
  now rewrite H.
Qed.

Lemma fetch_loop_frame (net net' : Network) (l : list CalendarSource) :
  forall (fs : FetchState) (k : nat),
    (forall i src,
        nth_error l i = Some src -> notConfigured (url src) = false ->
        net' (requests fs + List.length (filter isConfigured (firstn i l)))
          (calendarUrl src)
        = net (requests fs + List.length (filter isConfigured (firstn i l)))
            (calendarUrl src)) ->
    for_of (fetchSource parse rt net') l fs k
    = for_of (fetchSource parse rt net) l fs k.
Proof.
  induction l as [|a l IH]; intros fs k H.
  - reflexivity.
  - rewrite !for_of_cons.
    assert (E : fetchSource parse rt net' fs a k
                = fetchSource parse rt net fs a k).
    { apply fetchSource_frame. intros Hc.
      specialize (H 0%nat a eq_refl Hc).
      cbn [firstn filter length] in H. now rewrite Nat.add_0_r in H. }
    rewrite E. apply IH. intros i src Hn Hc.
    rewrite requests_step. now apply (H (S i) src).
Qed.

Lemma fetch_loop_requests (net : Network) (l : list CalendarSource) :
  forall (fs : FetchState) (k : nat),
    requests (fst (for_of (fetchSource parse rt net) l fs k))
    = (requests fs + List.length (filter isConfigured l))%nat.
Proof.
  induction l as [|a l IH]; intros fs k.
  - cbn. lia.
  - rewrite for_of_cons, IH, fetchSource_requests. cbn [filter].
    fold (isConfigured a). destruct (isConfigured a); simpl; lia.
Qed.

Lemma fetch_loop_idle (net : Network) (l : list CalendarSource) :
  Forall (fun s => notConfigured (url s) = true) l ->
  forall (fs : FetchState) (k : nat),
    for_of (fetchSource parse rt net) l fs k = (fs, k).
Proof.
  induction 1 as [|a l Ha _ IH]; intros fs k.
  - reflexivity.
  - rewrite for_of_cons. unfold fetchSource at 2 3. rewrite Ha.
    cbn [ret fst snd]. apply IH.
Qed.

End Origin.

Lemma parse_wellFormed (v : Version) (rt : Runtime) (src text : string)
  (k : nat) :
  Forall (wellFormedEvent v src) (fst (parseICSData_of v rt text src k)).
Proof.
  rewrite parse_split. cbn [fst].
  exact (proj1 (loop_wellFormed v rt src (JS.split LF text) parseStart k
                  (Forall_nil _))).
Qed.

(** X10.  Every event that the aggregation returns was read from the text
    that a configured source's own request was answered with, and its id
    is in neither action set: no event is made up, and none comes from a
    failed request.  With the parsers of the two files such an event
    carries the name of one of the three sources and a non-empty id. *)
Theorem returned_events_come_from_feeds (parse : Parser) (rt : Runtime)
  (env : Env) (net : Network) (st : Store) (k : nat) :
  Forall (fun e => fromFeed parse rt env net e /\ actioned st e = false)
    (resp_events (fst (handleAppleCalendar parse rt env net st k)))
  /\ forall v,
       Forall (fun e => In (source e) (map name (calendarSources env))
                        /\ id e <> "")
         (resp_events
            (fst (handleAppleCalendar (parseICSData_of v) rt env net st k))).
Proof.
  assert (G : forall p,
             Forall (fun e => fromFeed p rt env net e /\ actioned st e = false)
               (resp_events (fst (handleAppleCalendar p rt env net st k)))).
  { intros p. rewrite handleAppleCalendar_eq. cbn [fst resp_events].
    apply Forall_forall. intros e He.
    apply (Permutation_in _ (Permutation_sym (sort_perm _ _))) in He.
    apply filter_In in He as [Hin Ha].
    rewrite notActioned_actioned in Ha. apply negb_true_iff in Ha.
    split; [|exact Ha].
    apply fetch_loop_origin in Hin as [[] | H]. exact H. }
  split; [apply G|].
  intros v. specialize (G (parseICSData_of v)).
  rewrite Forall_forall in G |- *. intros e He.
  destruct (G e He) as ((i & src & text & k_i & Hn & _ & _ & Hin) & _).
  pose proof (parse_wellFormed v rt (name src) text k_i) as Hw.
  rewrite Forall_forall in Hw.
  destruct (Hw e Hin) as (_ & Hid & _ & Hsrc & _).
  split; [|exact Hid]. rewrite Hsrc. apply in_map.
  exact (nth_error_In _ _ Hn).
Qed.

(** X11.  The aggregation sends one request per configured source and none
    for the others: its answer is the same on two networks that answer
    those requests alike, whatever they would answer elsewhere; and when
    no source is configured it returns no event without reading the
    clock. *)
Theorem aggregation_reads_only_configured_feeds (parse : Parser)
  (rt : Runtime) (env : Env) (net : Network) (st : Store) (k : nat) :
  requests (fst (fetchAll parse rt env net k))
  = List.length (filter isConfigured (calendarSources env))
  /\ (forall net',
        sameFeeds env net net' ->
        handleAppleCalendar parse rt env net' st k
        = handleAppleCalendar parse rt env net st k)
  /\ (Forall (fun s => notConfigured (url s) = true) (calendarSources env) ->
      resp_events (fst (handleAppleCalendar parse rt env net st k)) = []
      /\ total_events (fst (handleAppleCalendar parse rt env net st k)) = 0%nat
      /\ snd (handleAppleCalendar parse rt env net st k) = k).
Proof.
  split; [|split].
  - unfold fetchAll. now rewrite fetch_loop_requests.
  - intros net' H. rewrite !handleAppleCalendar_eq.
    assert (E : fetchAll parse rt env net' k = fetchAll parse rt env net k).
    { unfold fetchAll. apply fetch_loop_frame. intros i src Hn Hc.
      exact (H i src Hn Hc). }
    now rewrite E.
  - intros H. rewrite handleAppleCalendar_eq. unfold fetchAll.
    rewrite (fetch_loop_idle parse rt net _ H). repeat split.
Qed.

(** X11 at a configuration without sources, on a network that would answer
    every request with a feed. *)
Lemma aggregation_idle_witness :
  resp_events (fst (handleAppleCalendar Server.parseICSData demoRuntime
                      offlineEnv (everywhere homeFeed) initialStore 0)) = []
  /\ total_events (fst (handleAppleCalendar Server.parseICSData demoRuntime
                          offlineEnv (everywhere homeFeed) initialStore 0))
     = 0%nat
  /\ snd (handleAppleCalendar Server.parseICSData demoRuntime offlineEnv
            (everywhere homeFeed) initialStore 0) = 0%nat.
Proof.
  apply (proj2 (proj2 (aggregation_reads_only_configured_feeds
                         Server.parseICSData demoRuntime offlineEnv
                         (everywhere homeFeed) initialStore 0))).
  repeat constructor.
Defined.

(* ================================================================== *)
(** ** The weather handler, case by case                               *)
(* ================================================================== *)

Lemma wantsFallback_true (ok : bool) (d : option WeatherData) :
  wantsFallback ok d = Some true ->
  ok = false
  /\ exists w msg,
       d = Some w /\ message w = JS.Str msg
       /\ JS.includes "One Call 3.0" msg || JS.includes "One Call by Call" msg
          = true.
Proof.
  unfold wantsFallback. destruct ok; [discriminate|].
  destruct d as [w|]; [|discriminate]. intros H. split; [reflexivity|].
  destruct (message w) as [| |b|n|s] eqn:E; simpl in H;
    try discriminate H.
  - destruct b; discriminate H.
  - destruct (negb (n =? 0)%Z); discriminate H.
  - exists w, s. destruct (s =? ""); [discriminate H|].
    injection H as H. repeat split; assumption.
Qed.

Lemma finishWeather_cases (rt : Runtime) (st : Store) (t : Z) (ok : bool)
  (d : option WeatherData) (k : nat) :
  (ok = false /\ finishWeather rt st t ok d k = (WeatherFailed, st, k))
  \/ (ok = true /\ d = None
      /\ finishWeather rt st t ok d k = (WeatherFailed, nulled st t, S k))
  \/ (exists w,
         ok = true /\ d = Some w
         /\ finishWeather rt st t ok d k
            = (WeatherFresh w (toISOString rt (Date_now rt k)) (apiVersion w),
               refreshed st w t, S k)).
Proof.
  unfold finishWeather, bind, ret, now.
  destruct ok; [|now left]. right. destruct d as [w|].
  - right. exists w. repeat split.
  - left. repeat split.
Qed.

(** What a fetch can come to: a failure that leaves the store alone, a
    payload that is stored, or a 200 answer without a payload, which is
    stored too. *)
Lemma fetchWeather_cases (rt : Runtime) (upstream : Endpoint -> Upstream)
  (st : Store) (t : Z) (k : nat) :
  let result := fetchWeather rt upstream st t k in
  (contacted result = [OneCall30]
   \/ (contacted result = [OneCall30; Weather25] /\ askedForFallback upstream))
  /\ ((answer result = WeatherFailed /\ storeAfter result = st
       /\ (tickAfter result = k)
       /\ forall s j, upstream (last (contacted result) OneCall30)
                      <> Reply true s j
                      \/ j = JsonThrows)
      \/ (exists s w,
             upstream (last (contacted result) OneCall30)
             = Reply true s (JsonObject w)
             /\ answer result
                = WeatherFresh w (toISOString rt (Date_now rt k))
                    (apiVersion w)
             /\ storeAfter result = refreshed st w t
             /\ tickAfter result = S k)
      \/ (exists s,
             upstream (last (contacted result) OneCall30)
             = Reply true s JsonNull
             /\ answer result = WeatherFailed
             /\ storeAfter result = nulled st t
             /\ tickAfter result = S k)).
Proof.
  unfold fetchWeather, answer, storeAfter, contacted, tickAfter, bind, ret.
  destruct (upstream OneCall30) as [|ok s j] eqn:E1.
  { cbn. split; [now left|]. left. repeat split.
    intros s j. left. rewrite E1. discriminate. }
  destruct j as [| |w]; cbn [json_data].
  { cbn. split; [now left|]. left. repeat split.
    intros s' j. rewrite E1. destruct j; [now right | left ..]; congruence. }
  - (* null *)
    destruct ok; cbn [wantsFallback].
    + cbn. split; [now left|]. right; right. exists s. now rewrite E1.
    + cbn. split; [now left|]. left. repeat split.
      intros s' j. left. rewrite E1. discriminate.
  - destruct (wantsFallback ok (Some w)) as [[|]|] eqn:Ew.
    + apply wantsFallback_true in Ew
        as (-> & w' & msg & Hw & Hm & Hi). injection Hw as <-.
      assert (Ha : askedForFallback upstream)
        by (exists s, w, msg; repeat split; assumption).
      destruct (upstream Weather25) as [|ok2 s2 j2] eqn:E2.
      { cbn. split; [right; now split|]. left. repeat split.
        intros s' j. left. rewrite E2. discriminate. }
      destruct j2 as [| |w2]; cbn [json_data].
      { cbn. split; [right; now split|]. left. repeat split.
        intros s' j. rewrite E2.
        destruct j; [now right | left ..]; congruence. }
      * destruct (finishWeather_cases rt st t ok2 None k)
          as [(-> & ->) | [(-> & _ & ->) | (w' & _ & Hd & _)]];
          [| |discriminate Hd]; cbn; (split; [right; now split|]).
        -- left. repeat split. intros s' j. left. rewrite E2. discriminate.
        -- right; right. exists s2. now rewrite E2.
      * destruct (finishWeather_cases rt st t ok2 (Some w2) k)
          as [(-> & ->) | [(_ & Hd & _) | (w' & -> & Hd & ->)]];
          [|discriminate Hd|]; cbn; (split; [right; now split|]).
        -- left. repeat split. intros s' j. left. rewrite E2. discriminate.
        -- injection Hd as <-. right; left. exists s2, w2. now rewrite E2.
    + destruct (finishWeather_cases rt st t ok (Some w) k)
        as [(-> & ->) | [(_ & Hd & _) | (w' & -> & Hd & ->)]];
        [|discriminate Hd|]; cbn; (split; [now left|]).
      * left. repeat split. intros s' j. left. rewrite E1. discriminate.
      * injection Hd as <-. right; left. exists s, w. now rewrite E1.
    + cbn. split; [now left|]. left. repeat split.
      intros s' j. left. rewrite E1. intros H. injection H as -> _ _.
      discriminate Ew.
Qed.

(** The three ways through [handleWeather]. *)
Lemma handleWeather_cases (rt : Runtime) (env : Env)
  (upstream : Endpoint -> Upstream) (st : Store) (k : nat) :
  (~ configured_key env
   /\ handleWeather rt env upstream st k = (WeatherNotConfigured, st, [], k))
  \/ (configured_key env
      /\ exists c,
           weatherCache st = Some c
           /\ (Date_now rt k - timestamp c < WEATHER_CACHE_DURATION)%Z
           /\ handleWeather rt env upstream st k
              = (WeatherCached (data c)
                   (JS.round_div (Date_now rt k - timestamp c) 60000),
                 st, [], S k))
  \/ (configured_key env
      /\ (forall c, weatherCache st = Some c ->
                    (WEATHER_CACHE_DURATION <= Date_now rt k - timestamp c)%Z)
      /\ handleWeather rt env upstream st k
         = fetchWeather rt upstream st (Date_now rt k) (S k)).
Proof.
  unfold handleWeather, configured_key.
  destruct (OPENWEATHER_API_KEY env =? "") eqn:E1.
  { left. apply String.eqb_eq in E1. split; [tauto | reflexivity]. }
  destruct (OPENWEATHER_API_KEY env =? "your_openweather_api_key_here")
    eqn:E2.
  { left. apply String.eqb_eq in E2. split; [tauto | reflexivity]. }
  apply String.eqb_neq in E1, E2. right. cbn [orb]. unfold bind, now, ret.
  destruct (weatherCache st) as [c|].
  - destruct (Z.ltb_spec (Date_now rt k - timestamp c) WEATHER_CACHE_DURATION).
    + left. split; [tauto|]. exists c. repeat split. assumption.
    + right. split; [tauto|]. split; [|reflexivity].
      intros c' Hc. injection Hc as <-. assumption.
  - right. split; [tauto|]. split; [|reflexivity]. discriminate.
Qed.

(** X12.  [handleWeather] contacts no endpoint, or the primary one, or the
    primary and then the secondary one, and the secondary one only after
    the primary one refused with a message that names the subscription; it
    answers 400 exactly when the API key is not configured, and then
    contacts nothing, reads no clock and leaves the store alone; and it
    never changes the two action sets. *)
Theorem weather_upstream_contacts (rt : Runtime) (env : Env)
  (upstream : Endpoint -> Upstream) (st : Store) (k : nat) :
  let result := handleWeather rt env upstream st k in
  (contacted result = []
   \/ contacted result = [OneCall30]
   \/ (contacted result = [OneCall30; Weather25]
       /\ askedForFallback upstream))
  /\ (weather_status (answer result) = 400%nat <-> ~ configured_key env)
  /\ (~ configured_key env ->
      result = (WeatherNotConfigured, st, [], k))
  /\ completedEvents (storeAfter result) = completedEvents st
  /\ dismissedEvents (storeAfter result) = dismissedEvents st.
Proof.
  intros result. unfold result.
  destruct (handleWeather_cases rt env upstream st k)
    as [(Hn & ->) | [(Hc & c & _ & _ & ->) | (Hc & _ & ->)]].
  - cbn. repeat split; try tauto.
  - cbn. repeat split; try tauto. discriminate.
  - destruct (fetchWeather_cases rt upstream st (Date_now rt k) (S k))
      as (Hcon & Hres).
    split; [tauto|].
    destruct Hres as [(Ha & Hs & _) | [(s & w & _ & Ha & Hs & _)
                     | (s & _ & Ha & Hs & _)]]; rewrite Ha, Hs;
      cbn; repeat split; try tauto; discriminate.
Qed.

(** X13.  After an answer with a fresh payload, every read whose clock is
    less than thirty minutes past the clock of the fetch is answered with
    that payload from the cache, without any endpoint being contacted and
    whatever the endpoints would have answered. *)
Theorem fresh_payload_is_served_again (rt : Runtime) (env : Env)
  (upstream upstream' : Endpoint -> Upstream) (st : Store) (k : nat)
  (d : WeatherData) (fetch_time api_version : string) :
  let result := handleWeather rt env upstream st k in
  let again :=
    handleWeather rt env upstream' (storeAfter result) (tickAfter result) in
  answer result = WeatherFresh d fetch_time api_version ->
  (Date_now rt (tickAfter result) - Date_now rt k < 30 * 60 * 1000)%Z ->
  again
  = (WeatherCached (Some d)
       (JS.round_div (Date_now rt (tickAfter result) - Date_now rt k) 60000),
     storeAfter result, [], S (tickAfter result))
  /\ tickAfter result = S (S k).
Proof.
  intros result again Hfresh Hage. unfold again. revert Hfresh Hage.
  unfold result.
  destruct (handleWeather_cases rt env upstream st k)
    as [(Hn & ->) | [(Hc & c & _ & _ & ->) | (Hc & _ & ->)]];
    [discriminate | discriminate |].
  destruct (fetchWeather_cases rt upstream st (Date_now rt k) (S k))
    as (_ & [(Ha & _) | [(s & w & _ & Ha & Hs & Ht) | (s & _ & Ha & _)]]);
    rewrite Ha; [discriminate | | discriminate].
  intros Hd Hage. injection Hd as <- _ _. rewrite Hs, Ht in *.
  split; [|reflexivity].
  destruct (handleWeather_cases rt env upstream'
              (refreshed st w (Date_now rt k)) (S (S k)))
    as [(Hn & _) | [(_ & c & Hc' & _ & ->) | (_ & Hold & _)]].
  - contradiction.
  - injection Hc' as <-. reflexivity.
  - specialize (Hold _ eq_refl). cbn [timestamp] in Hold.
    unfold WEATHER_CACHE_DURATION in Hold. lia.
Qed.

(** X13 at a clock that advances by a minute with every reading. *)
Lemma fresh_payload_witness :
  let rt := Ref.runtime minuteClock in
  let result := handleWeather rt demoEnv sunnyUpstream initialStore 0 in
  handleWeather rt demoEnv (fun _ => FetchFails) (storeAfter result)
    (tickAfter result)
  = (WeatherCached (Some sunny) 2, storeAfter result, [], 3%nat)
  /\ tickAfter result = 2%nat.
Proof.
  exact (fresh_payload_is_served_again (Ref.runtime minuteClock) demoEnv
           sunnyUpstream (fun _ => FetchFails) initialStore 0 sunny
           (Ref.iso_string 1750000060000) "3.0" eq_refl eq_refl).
Defined.

(** X14.  A fetch that ends in a 500 leaves the store as it was, with one
    exception: when the last endpoint contacted answered 200 with the body
    [null], the cache is overwritten with that [null] before the handler
    fails, and the reads of the next thirty minutes are answered 200 from
    the cache, without a payload. *)
Theorem failed_fetch_and_the_cache (rt : Runtime) (env : Env)
  (upstream : Endpoint -> Upstream) (st : Store) (k : nat) :
  let result := handleWeather rt env upstream st k in
  weather_status (answer result) = 500%nat ->
  (storeAfter result = st
   /\ forall s, upstream (last (contacted result) OneCall30)
                <> Reply true s JsonNull)
  \/ (storeAfter result = nulled st (Date_now rt k)
      /\ tickAfter result = S (S k)
      /\ (exists s, upstream (last (contacted result) OneCall30)
                    = Reply true s JsonNull)
      /\ forall upstream',
           (Date_now rt (S (S k)) - Date_now rt k < 30 * 60 * 1000)%Z ->
           handleWeather rt env upstream' (storeAfter result) (S (S k))
           = (WeatherCached None
                (JS.round_div (Date_now rt (S (S k)) - Date_now rt k) 60000),
              storeAfter result, [], S (S (S k)))).
Proof.
  intros result. unfold result.
  destruct (handleWeather_cases rt env upstream st k)
    as [(Hn & ->) | [(Hc & c & _ & _ & ->) | (Hc & _ & ->)]];
    [discriminate | discriminate |].
  destruct (fetchWeather_cases rt upstream st (Date_now rt k) (S k))
    as (_ & [(Ha & Hs & _ & Hl) | [(s & w & _ & Ha & _)
            | (s & Hl & Ha & Hs & Ht)]]); rewrite Ha; intros H.
  - left. split; [exact Hs|]. intros s E.
    destruct (Hl s JsonNull) as [Hne | Hj]; [contradiction | discriminate Hj].
  - discriminate H.
  - right. rewrite Hs, Ht. repeat split; [now exists s|].
    intros upstream' Hage.
    destruct (handleWeather_cases rt env upstream'
                (nulled st (Date_now rt k)) (S (S k)))
      as [(Hn & _) | [(_ & c & Hc' & _ & ->) | (_ & Hold & _)]].
    + contradiction.
    + injection Hc' as <-. reflexivity.
    + specialize (Hold _ eq_refl). cbn [timestamp] in Hold.
      unfold WEATHER_CACHE_DURATION in Hold. lia.
Qed.

(** X14 at an endpoint that answers 200 with the body [null]. *)
Lemma failed_fetch_witness :
  let rt := Ref.runtime minuteClock in
  let result := handleWeather rt demoEnv nullUpstream initialStore 0 in
  weather_status (answer result) = 500%nat
  /\ storeAfter result = nulled initialStore 1750000000000
  /\ handleWeather rt demoEnv sunnyUpstream (storeAfter result) 2
     = (WeatherCached None 2, storeAfter result, [], 3%nat).
Proof.
  cbv zeta. split; [reflexivity|].
  destruct (failed_fetch_and_the_cache (Ref.runtime minuteClock) demoEnv
              nullUpstream initialStore 0 eq_refl)
    as [[H _] | (Hs & _ & _ & H)].
  - discriminate H.
  - split; [exact Hs|]. exact (H sunnyUpstream eq_refl).
Defined.

(* ================================================================== *)
(** ** The time handler                                                *)
(* ================================================================== *)

Section TimeLoop.

Context {Doc : Type}.
Variable net : nat -> string -> JsonReply Doc.

Lemma tryEndpoints_step (i : nat) (u : string) (rest : list string) :
  (exists d, net i u = Answered true (Some d)
             /\ tryEndpoints net i (u :: rest) = (Some d, [u]))
  \/ (~ answers (net i u)
      /\ tryEndpoints net i (u :: rest)
         = (fst (tryEndpoints net (S i) rest),
            u :: snd (tryEndpoints net (S i) rest))).
Proof.
  cbn [tryEndpoints].
  destruct (net i u) as [|[|] [d|]] eqn:E.
  - right. split; [intros [d H]; discriminate H | reflexivity].
  - left. exists d. now split.
  - right. split; [intros [d H]; discriminate H | reflexivity].
  - right. split; [intros [d' H]; discriminate H | reflexivity].
  - right. split; [intros [d H]; discriminate H | reflexivity].
Qed.

(** The loop stops at the first endpoint that answers with a document. *)
Lemma tryEndpoints_first (endpoints : list string) :
  forall i,
    (exists n u d,
        nth_error endpoints n = Some u
        /\ net (i + n) u = Answered true (Some d)
        /\ (forall m u', (m < n)%nat -> nth_error endpoints m = Some u' ->
                         ~ answers (net (i + m) u'))
        /\ tryEndpoints net i endpoints = (Some d, firstn (S n) endpoints))
    \/ ((forall m u', nth_error endpoints m = Some u' ->
                      ~ answers (net (i + m) u'))
        /\ tryEndpoints net i endpoints = (None, endpoints)).
Proof.
  induction endpoints as [|u rest IH]; intros i.
  - right. split; [|reflexivity]. intros [|m] u' H; discriminate H.
  - destruct (tryEndpoints_step i u rest) as [(d & Hd & ->) | (Hn & ->)].
    + left. exists 0%nat, u, d. rewrite Nat.add_0_r.
      repeat split; [exact Hd | intros m u' Hm; lia].
    + destruct (IH (S i)) as [(n & u' & d & Hu & Hd & Hbefore & ->)
                             | (Hall & ->)].
      * left. exists (S n), u', d. cbn [fst snd].
        rewrite Nat.add_succ_r. repeat split; [exact Hu | exact Hd |].
        intros [|m] u'' Hm Hu''.
        -- injection Hu'' as <-. now rewrite Nat.add_0_r.
        -- rewrite Nat.add_succ_r. apply (Hbefore m u''); [lia | exact Hu''].
      * right. cbn [fst snd]. split; [|reflexivity].
        intros [|m] u' Hu'.
        -- injection Hu' as <-. now rewrite Nat.add_0_r.
        -- rewrite Nat.add_succ_r. now apply Hall.
Qed.

End TimeLoop.

(** X15.  [handleTime] asks its endpoints in order and answers with the
    document of the first one that gives a document, without asking the
    others and without reading the clock; only when the public endpoint
    and the configured one have both failed does it fall back on the local
    clock, which it then reads once: the fallback is flagged and carries
    the instant of that reading. *)
Theorem time_first_answer_wins {Doc : Type} (rt : Runtime) (loc : Locale)
  (sv : Services) (net : nat -> string -> JsonReply Doc) (k : nat) :
  let first := "https://worldtimeapi.org/api/timezone/Europe/London" in
  let second := TIME_API_URL sv in
  let result := handleTime rt loc sv net k in
  (forall d,
      net 0%nat first = Answered true (Some d) ->
      result = (TimeProxied d, [first], k))
  /\ (forall d,
        ~ answers (net 0%nat first) ->
        net 1%nat second = Answered true (Some d) ->
        result = (TimeProxied d, [first; second], k))
  /\ (~ answers (net 0%nat first) -> ~ answers (net 1%nat second) ->
      exists f,
        result = (TimeFallback f, [first; second], S k)
        /\ fallback f = true
        /\ datetime f = toISOString rt (Date_now rt k)
        /\ utc_offset f = (getTimezoneOffset loc (Date_now rt k) * -60)%Z)
  /\ (forall f, fst (fst result) = TimeFallback f ->
                ~ answers (net 0%nat first) /\ ~ answers (net 1%nat second)).
Proof.
  intros first second result. unfold result, handleTime.
  destruct (tryEndpoints_first net (timeEndpoints sv) 0)
    as [(n & u & d & Hu & Hd & Hbefore & ->) | (Hall & ->)].
  - destruct n as [|[|n]]; cbn in Hu; try discriminate Hu;
      [| |destruct n; discriminate Hu]; injection Hu as <-.
    + cbn [Nat.add] in Hd. fold first in Hd.
      repeat split.
      * intros d' H. rewrite Hd in H. now injection H as <-.
      * intros d' Hn. exfalso. apply Hn. now exists d.
      * intros Hn. exfalso. apply Hn. now exists d.
      * discriminate.
      * discriminate.
    + cbn [Nat.add] in Hd. fold second in Hd.
      assert (H0 : ~ answers (net 0%nat first)).
      { apply (Hbefore 0%nat first); [lia | reflexivity]. }
      repeat split.
      * intros d' H. exfalso. apply H0. now exists d'.
      * intros d' _ H. rewrite Hd in H. now injection H as <-.
      * intros _ Hn. exfalso. apply Hn. now exists d.
      * discriminate.
      * discriminate.
  - assert (H0 : ~ answers (net 0%nat first)) by (now apply (Hall 0%nat)).
    assert (H1 : ~ answers (net 1%nat second)) by (now apply (Hall 1%nat)).
    repeat split.
    + intros d H. exfalso. apply H0. now exists d.
    + intros d _ H. exfalso. apply H1. now exists d.
    + intros _ _. eexists. unfold bind, now, ret. repeat split.
    + exact H0.
    + exact H1.
Qed.

(** X15 when the public endpoint is down and the configured one answers. *)
Lemma time_answer_witness :
  handleTime demoRuntime london demoServices
    (fun i _ => if (i =? 0)%nat then Unreachable
                else Answered true (Some "2025-06-15T15:06:40+01:00"))
    0
  = (TimeProxied "2025-06-15T15:06:40+01:00",
     ["https://worldtimeapi.org/api/timezone/Europe/London";
      "http://worldtimeapi.org/api/timezone/Europe/London"], 0%nat).
Proof.
  apply (proj1 (proj2 (time_first_answer_wins demoRuntime london demoServices
                         (fun i _ => if (i =? 0)%nat then Unreachable
                                     else Answered true
                                            (Some "2025-06-15T15:06:40+01:00"))
                         0))).
  - intros [d H]. discriminate H.
  - reflexivity.
Defined.

(* ================================================================== *)
(** ** The Todoist handlers                                            *)
(* ================================================================== *)

(** X16.  [handleTaskCompletion] checks the method, then the API key, then
    the body: anything but a POST is answered 405, a POST without a
    configured key 400, and [fetch] is called exactly when the request is a
    POST, the key is configured, the body holds a truthy task id and the
    template literal can make a string of it; it is then called once, at
    the [close] URL that holds that string (the number 10^21 is written
    [1e+21] there); a task id that cannot be made a string is answered 500
    without any call; the answer is 200 exactly when that one call was
    answered [ok].  [handleTodoistTasks] calls [fetch] exactly when the key
    is configured, and answers 400 otherwise. *)
Theorem todoist_is_contacted_only_when_valid {Doc : Type} (sv : Services)
  (net : string -> JsonReply Doc) (req : TaskRequest) :
  let result := handleTaskCompletion sv net req in
  (task_method req <> "POST" ->
   result = (TaskError 405 "Method not allowed", []))
  /\ (task_method req = "POST" -> todoistKeyMissing sv = true ->
      result = (TaskError 400 "Todoist API key not configured", []))
  /\ (snd result <> []
      <-> task_method req = "POST" /\ todoistKeyMissing sv = false
          /\ exists i shown,
               taskId req = Some i /\ JS.field_truthy i = true
               /\ JS.template i = Some shown)
  /\ (forall i shown,
        taskId req = Some i -> JS.template i = Some shown ->
        snd result <> [] -> snd result = [closeUrl sv shown])
  /\ (forall i,
        task_method req = "POST" -> todoistKeyMissing sv = false ->
        taskId req = Some i -> JS.field_truthy i = true ->
        JS.template i = None ->
        result = (TaskError 500 "Failed to complete task", []))
  /\ (task_status (fst result) = 200%nat
      <-> exists i shown j,
            taskId req = Some i /\ JS.template i = Some shown
            /\ snd result = [closeUrl sv shown]
            /\ net (closeUrl sv shown) = Answered true j
            /\ fst result = TaskCompleted i)
  /\ (snd (handleTodoistTasks sv net)
      = if todoistKeyMissing sv then []
        else [TODOIST_BASE_URL sv ++ "/tasks"])
  /\ (tasks_status (fst (handleTodoistTasks sv net)) = 400%nat
      <-> todoistKeyMissing sv = true).
Proof.
  intros result.
  assert (T : snd (handleTodoistTasks sv net)
              = (if todoistKeyMissing sv then []
                 else [TODOIST_BASE_URL sv ++ "/tasks"])
              /\ (tasks_status (fst (handleTodoistTasks sv net)) = 400%nat
                  <-> todoistKeyMissing sv = true)).
  { unfold handleTodoistTasks. destruct (todoistKeyMissing sv).
    - cbn. tauto.
    - cbv zeta. destruct (net _) as [|[|] [d|]]; cbn;
        (split; [reflexivity | split; discriminate]). }
  assert (R : result = handleTaskCompletion sv net req) by reflexivity.
  clearbody result. unfold handleTaskCompletion in R.
  destruct (String.eqb_spec (task_method req) "POST") as [Em | Em];
    cbn [negb] in R.
  2:{ subst result. cbn [fst snd task_status].
      split; [reflexivity|]. split; [contradiction|].
      split; [split; [intros H; now elim H | intros (H & _); contradiction]|].
      split; [intros i shown _ _ H; now elim H|].
      split; [intros i H; contradiction|].
      split; [|exact T]. split; [discriminate|].
      intros (i & shown & j & _ & _ & H & _). discriminate H. }
  destruct (todoistKeyMissing sv) eqn:Ek.
  { subst result. cbn [fst snd task_status].
    split; [contradiction|]. split; [reflexivity|].
    split; [split; [intros H; now elim H
                   | intros (_ & H & _); discriminate H]|].
    split; [intros i shown _ _ H; now elim H|].
    split; [intros i _ H; discriminate H|].
    split; [|exact T]. split; [discriminate|].
    intros (i & shown & j & _ & _ & H & _). discriminate H. }
  split; [contradiction|]. split; [discriminate|].
  destruct (taskId req) as [i|] eqn:Ei.
  2:{ subst result. cbn [fst snd task_status].
      split; [split; [intros H; now elim H
                     | intros (_ & _ & i & shown & H & _); discriminate H]|].
      split; [intros i shown H; discriminate H|].
      split; [intros i _ _ H; discriminate H|].
      split; [|exact T]. split; [discriminate|].
      intros (i & shown & j & H & _). discriminate H. }
  destruct (JS.field_truthy i) eqn:Et; cbn [negb] in R.
  2:{ subst result. cbn [fst snd task_status].
      split; [split; [intros H; now elim H
                     | intros (_ & _ & i' & shown & H & Ht & _);
                       injection H as <-; congruence]|].
      split; [intros i' shown _ _ H; now elim H|].
      split; [intros i' _ _ H Ht; injection H as <-; congruence|].
      split; [|exact T]. split; [discriminate|].
      intros (i' & shown & j & _ & _ & H & _). discriminate H. }
  destruct (JS.template i) as [shown|] eqn:Es.
  2:{ subst result. cbn [fst snd task_status].
      split; [split; [intros H; now elim H
                     | intros (_ & _ & i' & shown & H & _ & Hs);
                       injection H as <-; congruence]|].
      split; [intros i' shown _ _ H; now elim H|].
      split; [reflexivity|].
      split; [|exact T]. split; [discriminate|].
      intros (i' & shown & j & _ & _ & H & _). discriminate H. }
  assert (Hsnd : snd result = [closeUrl sv shown]).
  { subst result. destruct (net (closeUrl sv shown)) as [|[|] j];
      reflexivity. }
  split.
  { split; [intros _ | rewrite Hsnd; discriminate].
    split; [exact Em|]. split; [reflexivity|]. now exists i, shown. }
  split.
  { intros i' shown' H Hs' _. injection H as <-.
    rewrite Es in Hs'. injection Hs' as <-. exact Hsnd. }
  split.
  { intros i' _ _ H _ Hs'. injection H as <-. congruence. }
  split; [|exact T].
  destruct (net (closeUrl sv shown)) as [|[|] j] eqn:En; subst result;
    cbn [fst snd task_status]; split; try discriminate.
  - intros (i' & shown' & j & H & Hs' & _ & Hn & _). injection H as <-.
    rewrite Es in Hs'. injection Hs' as <-. rewrite En in Hn.
    discriminate Hn.
  - intros _. now exists i, shown, j.
  - reflexivity.
  - intros (i' & shown' & j' & H & Hs' & _ & Hn & _). injection H as <-.
    rewrite Es in Hs'. injection Hs' as <-. rewrite En in Hn.
    discriminate Hn.
Qed.

(** X16 at the task id 10^21, which the URL holds in exponent form. *)
Lemma todoist_witness :
  let req :=
    {| task_method := "POST";
       taskId := Some (JS.Scalar (JS.Num (10 ^ 21))) |} in
  let net := fun _ : string => Answered true (Some "done") in
  JS.template (JS.Scalar (JS.Num (10 ^ 21))) = Some "1e+21"
  /\ snd (handleTaskCompletion demoServices net req)
     = ["https://api.todoist.com/rest/v2/tasks/1e+21/close"].
Proof.
  intros req net.
  assert (Hs : JS.template (JS.Scalar (JS.Num (10 ^ 21))) = Some "1e+21")
    by (vm_compute; reflexivity).
  split; [exact Hs|].
  destruct (todoist_is_contacted_only_when_valid demoServices net req)
    as (_ & _ & Hc & Hu & _).
  apply (Hu _ "1e+21" eq_refl Hs). apply Hc.
  split; [reflexivity|]. split; [reflexivity|].
  eexists _, _. split; [reflexivity|]. split; [reflexivity | exact Hs].
Defined.

(* ================================================================== *)
(** ** The router                                                      *)
(* ================================================================== *)

Lemma all_slashes_app (a b : string) :
  all_slashes (a ++ b) = all_slashes a && all_slashes b.
Proof.
  induction a as [|c a IH]; simpl; [reflexivity|].
  rewrite IH. now rewrite andb_assoc.
Qed.

Lemma all_slashes_slashes (n : nat) : all_slashes (slashes n) = true.
Proof. induction n as [|n IH]; simpl; [reflexivity | exact IH]. Qed.

Lemma strip_all_slashes (s : string) :
  all_slashes s = true -> stripTrailingSlashes s = "".
Proof.
  intros H. destruct s as [|c s]; [reflexivity|]. simpl in *.
  now rewrite H.
Qed.

Lemma strip_cons (c : ascii) (s : string) :
  all_slashes (String c s) = false ->
  stripTrailingSlashes (String c s) = String c (stripTrailingSlashes s).
Proof. intros H. simpl in *. now rewrite H. Qed.

Lemma strip_slashes (p : string) (n : nat) :
  stripTrailingSlashes (p ++ slashes n) = stripTrailingSlashes p.
Proof.
  induction p as [|c p IH].
  - cbn [append]. apply strip_all_slashes, all_slashes_slashes.
  - change (String c p ++ slashes n) with (String c (p ++ slashes n)).
    destruct (all_slashes (String c p)) eqn:E.
    + rewrite (strip_all_slashes (String c p) E).
      apply strip_all_slashes.
      change (String c (p ++ slashes n)) with (String c p ++ slashes n).
      now rewrite all_slashes_app, E, all_slashes_slashes.
    + rewrite (strip_cons c p E), strip_cons, IH; [reflexivity|].
      change (String c (p ++ slashes n)) with (String c p ++ slashes n).
      now rewrite all_slashes_app, E.
Qed.

Lemma strip_keeps_other (s : string) :
  all_slashes s = false -> all_slashes (stripTrailingSlashes s) = false.
Proof.
  induction s as [|c s IH]; intros H; [discriminate H|].
  rewrite (strip_cons c s H). simpl in *.
  destruct (Ascii.eqb c "/"); [|reflexivity]. now apply IH.
Qed.

Lemma strip_idempotent (s : string) :
  stripTrailingSlashes (stripTrailingSlashes s) = stripTrailingSlashes s.
Proof.
  induction s as [|c s IH]; [reflexivity|].
  destruct (all_slashes (String c s)) eqn:E.
  - now rewrite (strip_all_slashes _ E).
  - pose proof (strip_keeps_other _ E) as K.
    rewrite (strip_cons c s E) in K |- *.
    rewrite (strip_cons _ _ K), IH. reflexivity.
Qed.

Lemma strip_length (s : string) :
  (String.length (stripTrailingSlashes s) <= String.length s)%nat.
Proof.
  induction s as [|c s IH]; [reflexivity|].
  destruct (all_slashes (String c s)) eqn:E.
  - rewrite (strip_all_slashes _ E). simpl. lia.
  - rewrite (strip_cons c s E). simpl. lia.
Qed.

Lemma strip_no_trailing_slash (s q : string) :
  stripTrailingSlashes s <> q ++ "/".
Proof.
  intros H. pose proof (strip_idempotent s) as I. rewrite H in I.
  change (q ++ "/") with (q ++ slashes 1) in I. rewrite strip_slashes in I.
  pose proof (strip_length q) as L. rewrite I, length_app in L.
  simpl in L. lia.
Qed.

Lemma normalise_slashes (p : string) (n : nat) :
  normalisePath (p ++ slashes n) = normalisePath p.
Proof. unfold normalisePath. now rewrite strip_slashes. Qed.

Lemma normalise_idempotent (p : string) :
  normalisePath (normalisePath p) = normalisePath p.
Proof.
  unfold normalisePath.
  destruct (stripTrailingSlashes p =? "") eqn:E; [reflexivity|].
  now rewrite strip_idempotent, E.
Qed.

(** X17.  The router of [server-backup.ts] does not see trailing slashes:
    the path it matches on is never empty, ends with a slash only when it
    is the root, and is the same when slashes are added to the path of the
    request; so a request that reaches a handler reaches the same handler
    with any number of slashes added. *)
Theorem trailing_slashes_are_ignored (fileExists : string -> bool)
  (method pathname : string) (n : nat) :
  normalisePath (pathname ++ slashes n) = normalisePath pathname
  /\ normalisePath (normalisePath pathname) = normalisePath pathname
  /\ normalisePath pathname <> ""
  /\ (forall q, normalisePath pathname = q ++ "/" -> q = "")
  /\ (isEndpoint (serverBackupFetch fileExists method pathname) = true ->
      serverBackupFetch fileExists method (pathname ++ slashes n)
      = serverBackupFetch fileExists method pathname).
Proof.
  split; [apply normalise_slashes|].
  split; [apply normalise_idempotent|].
  split; [|split].
  - unfold normalisePath.
    destruct (stripTrailingSlashes pathname =? "") eqn:E; [discriminate|].
    now apply String.eqb_neq in E.
  - intros q. unfold normalisePath.
    destruct (stripTrailingSlashes pathname =? ""); intros H.
    + destruct q as [|c [|c' q]]; [reflexivity | discriminate H ..].
    + now apply strip_no_trailing_slash in H.
  - unfold serverBackupFetch. rewrite normalise_slashes. cbv zeta.
    destruct (method =? "OPTIONS"); [reflexivity|].
    repeat match goal with
           | |- context [if ?p =? ?lit then _ else _] =>
               destruct (p =? lit); [reflexivity|]
           end.
    destruct ((normalisePath pathname =? "/")
              || (normalisePath pathname =? "/index.html")); [reflexivity|].
    intros H. destruct (fileExists ("." ++ pathname)); discriminate H.
Qed.

(** X17 at the calendar endpoint, asked for with two slashes. *)
Lemma trailing_slashes_witness :
  serverBackupFetch (fun _ => false) "GET" ("/api/calendar" ++ slashes 2)
  = serverBackupFetch (fun _ => false) "GET" "/api/calendar".
Proof.
  exact (proj2 (proj2 (proj2 (proj2
           (trailing_slashes_are_ignored (fun _ => false) "GET"
              "/api/calendar" 2)))) eq_refl).
Defined.

Lemma append_slash_neq (lit : string) (n : nat) :
  (lit ++ slashes (S n) =? lit) = false.
Proof.
  apply String.eqb_neq. intros H.
  apply (f_equal String.length) in H. rewrite length_app in H.
  simpl in H. lia.
Qed.

(** X18.  On a path without trailing slashes, other than the forecast
    path, the routers of the two files send a request to the same handler
    whenever either of them sends it to a handler.  [server.ts] has no
    forecast endpoint, never reaches its own 404 answer (it tests the
    promise of [exists()], not its result, and hands the file path over
    whatever the file system holds), and takes an endpoint path with
    trailing slashes for a file path. *)
Theorem routers_agree_on_the_endpoints (fileExists : string -> bool)
  (method pathname : string) :
  (normalisePath pathname = pathname ->
   pathname <> "/api/weather/forecast" ->
   isEndpoint (serverFetch fileExists method pathname)
   = isEndpoint (serverBackupFetch fileExists method pathname)
   /\ (isEndpoint (serverFetch fileExists method pathname) = true ->
       serverFetch fileExists method pathname
       = serverBackupFetch fileExists method pathname))
  /\ serverFetch fileExists method pathname <> NotFound
  /\ serverFetch fileExists method pathname <> ToWeatherForecast
  /\ (forall n,
        method <> "OPTIONS" ->
        isEndpoint (serverFetch fileExists method pathname) = true ->
        serverFetch fileExists method (pathname ++ slashes (S n))
        = ServeFile ("." ++ pathname ++ slashes (S n)) None).
Proof.
  split; [|split; [|split]].
  - intros Hn Hf. unfold serverFetch, serverBackupFetch. rewrite Hn.
    cbv zeta. apply String.eqb_neq in Hf. rewrite Hf.
    destruct (method =? "OPTIONS"); [now split|].
    repeat match goal with
           | |- context [if ?p =? ?lit then _ else _] =>
               destruct (p =? lit); [now split|]
           end.
    destruct ((pathname =? "/") || (pathname =? "/index.html"));
      [now split|].
    unfold promise_truthy. cbn [isEndpoint].
    destruct (fileExists ("." ++ pathname)); split;
      (reflexivity || discriminate).
  - unfold serverFetch, promise_truthy. cbv zeta.
    destruct (method =? "OPTIONS"); [discriminate|].
    repeat match goal with
           | |- context [if ?p =? ?lit then _ else _] =>
               destruct (p =? lit); [discriminate|]
           end.
    destruct ((pathname =? "/") || (pathname =? "/index.html"));
      discriminate.
  - unfold serverFetch, promise_truthy. cbv zeta.
    destruct (method =? "OPTIONS"); [discriminate|].
    repeat match goal with
           | |- context [if ?p =? ?lit then _ else _] =>
               destruct (p =? lit); [discriminate|]
           end.
    destruct ((pathname =? "/") || (pathname =? "/index.html"));
      discriminate.
  - intros n Hm He. apply String.eqb_neq in Hm.
    assert (Hp : In pathname
                   ["/api/tasks"; "/api/tasks/complete";
                    "/api/events/action"; "/api/calendar"; "/api/weather";
                    "/api/time"; "/"; "/index.html"]).
    { revert He. unfold serverFetch, promise_truthy. cbv zeta. rewrite Hm.
      repeat match goal with
             | |- context [if pathname =? ?lit then _ else _] =>
                 destruct (String.eqb_spec pathname lit) as [-> | _];
                 [intros _; simpl; tauto|]
             end.
      destruct (String.eqb_spec pathname "/") as [-> | _];
        [intros _; simpl; tauto|].
      destruct (String.eqb_spec pathname "/index.html") as [-> | _];
        [intros _; simpl; tauto|].
      intros H. discriminate H. }
    unfold serverFetch, promise_truthy. cbv zeta. rewrite Hm.
    cbn [In] in Hp.
    repeat (destruct Hp as [<- | Hp];
            [destruct n as [|[|n]]; reflexivity|]).
    destruct Hp.
Qed.

(** X18 at the calendar endpoint. *)
Lemma routers_agree_witness :
  isEndpoint (serverFetch (fun _ => false) "GET" "/api/calendar")
  = isEndpoint (serverBackupFetch (fun _ => false) "GET" "/api/calendar")
  /\ (isEndpoint (serverFetch (fun _ => false) "GET" "/api/calendar") = true ->
      serverFetch (fun _ => false) "GET" "/api/calendar"
      = serverBackupFetch (fun _ => false) "GET" "/api/calendar").
Proof.
  apply (proj1 (routers_agree_on_the_endpoints (fun _ => false) "GET"
                  "/api/calendar")).
  - reflexivity.
  - discriminate.
Defined.

Lemma drop_length_app (a b : string) : JS.drop (String.length a) (a ++ b) = b.
Proof. induction a as [|c a IH]; [now destruct b | exact IH]. Qed.

Lemma lastIndexOf_app (c : ascii) (a b : string) :
  lastIndexOf c b = None ->
  lastIndexOf c (a ++ String c b) = Some (String.length a).
Proof.
  intros H. induction a as [|x a IH].
  - cbn [append lastIndexOf String.length]. rewrite H.
    now rewrite Ascii.eqb_refl.
  - change (String x a ++ String c b) with (String x (a ++ String c b)).
    cbn [lastIndexOf String.length]. now rewrite IH.
Qed.

Lemma lastIndexOf_cons (c : ascii) (s : string) :
  lastIndexOf c (String c s) <> None.
Proof.
  cbn [lastIndexOf]. destruct (lastIndexOf c s); [discriminate|].
  now rewrite Ascii.eqb_refl.
Qed.

Lemma extension_dot (s : string) (i : nat) :
  lastIndexOf "." s = Some i -> exists rest, JS.drop i s = String "." rest.
Proof.
  revert i. induction s as [|a s IH]; intros i H; [discriminate H|].
  cbn [lastIndexOf] in H. destruct (lastIndexOf "." s) as [j|].
  - injection H as <-. cbn [JS.drop]. now apply IH.
  - destruct (Ascii.eqb_spec a "."); [|discriminate H].
    injection H as <-. subst a. now exists s.
Qed.

(** X19.  The content type that [server-backup.ts] gives a static file
    depends on the text from its last dot on, and on nothing else; it is
    never empty; and since the file path starts with a dot, the extension
    is never empty either: a file is served only if it exists, under the
    path of the request after a dot. *)
Theorem content_type_follows_the_last_extension (stem ext : string) :
  (lastIndexOf "." ext = None ->
   extension (stem ++ "." ++ ext) = "." ++ ext
   /\ contentTypeOf (stem ++ "." ++ ext) = contentTypeOf ("." ++ ext))
  /\ (forall filePath, contentTypeOf filePath <> "")
  /\ (forall fileExists method pathname f t,
        serverBackupFetch fileExists method pathname = ServeFile f t ->
        f = "." ++ pathname /\ fileExists f = true
        /\ t = Some (contentTypeOf f)
        /\ exists rest, extension f = String "." rest).
Proof.
  split; [|split].
  - intros H.
    assert (E : forall s, extension (s ++ "." ++ ext) = "." ++ ext).
    { intros s. unfold extension.
      change ("." ++ ext) with (String "." ext).
      rewrite (lastIndexOf_app "." s ext H). apply drop_length_app. }
    split; [apply E|]. unfold contentTypeOf. rewrite E.
    specialize (E ""). change ("" ++ "." ++ ext) with ("." ++ ext) in E.
    now rewrite E.
  - intros filePath. unfold contentTypeOf.
    remember (extension filePath) as e eqn:Ee. clear Ee.
    unfold contentTypes. cbn [lookup].
    repeat match goal with
           | |- context [if ?a =? e then _ else _] =>
               destruct (a =? e); [discriminate|]
           end.
    discriminate.
  - intros fileExists method pathname f t. unfold serverBackupFetch.
    cbv zeta.
    destruct (method =? "OPTIONS"); [discriminate|].
    repeat match goal with
           | |- context [if ?p =? ?lit then _ else _] =>
               destruct (p =? lit); [discriminate|]
           end.
    destruct ((normalisePath pathname =? "/")
              || (normalisePath pathname =? "/index.html")); [discriminate|].
    destruct (fileExists ("." ++ pathname)) eqn:E; [|discriminate].
    intros H. injection H as <- <-. repeat split; [exact E|].
    unfold extension. change ("." ++ pathname) with (String "." pathname).
    destruct (lastIndexOf "." (String "." pathname)) as [i|] eqn:L.
    + exact (extension_dot _ i L).
    + exfalso. exact (lastIndexOf_cons "." pathname L).
Qed.

(** X19 at a style sheet in a directory whose name holds a dot. *)
Lemma content_type_witness :
  extension ("./assets.v2/dashboard" ++ "." ++ "css") = "." ++ "css"
  /\ contentTypeOf ("./assets.v2/dashboard" ++ "." ++ "css")
     = contentTypeOf ("." ++ "css").
Proof.
  exact (proj1 (content_type_follows_the_last_extension
                  "./assets.v2/dashboard" "css") eq_refl).
Defined.

(* ================================================================== *)
(** ** The days of the five-day forecast                               *)
(* ================================================================== *)

Lemma firstSeen_In (l : list string) (d : string) :
  In d (firstSeen l) <-> In d l.
Proof.
  induction l as [|a l IH]; [reflexivity|].
  cbn [firstSeen In]. rewrite filter_In, IH, negb_true_iff. split.
  - intros [H | [H _]]; [now left | now right].
  - intros [H | H]; [now left|].
    destruct (String.eqb_spec d a) as [-> | Hne]; [now left | now right].
Qed.

Lemma firstSeen_NoDup (l : list string) : NoDup (firstSeen l).
Proof.
  induction l as [|a l IH]; [constructor|].
  cbn [firstSeen]. constructor.
  - rewrite filter_In, negb_true_iff, String.eqb_refl. intros [_ H].
    discriminate H.
  - now apply NoDup_filter.
Qed.

Lemma firstSeen_snoc (l : list string) (x : string) :
  firstSeen (l ++ [x])
  = if existsb (String.eqb x) l then firstSeen l
    else (firstSeen l ++ [x])%list.
Proof.
  induction l as [|a l IH]; [reflexivity|].
  rewrite <- app_comm_cons. cbn [firstSeen existsb]. rewrite IH.
  destruct (existsb (String.eqb x) l).
  - now rewrite orb_true_r.
  - rewrite orb_false_r, filter_app. cbn [filter].
    destruct (x =? a); cbn [negb]; [now rewrite app_nil_r | reflexivity].
Qed.

Lemma existsb_In (x : string) (l : list string) :
  existsb (String.eqb x) l = true <-> In x l.
Proof.
  rewrite existsb_exists. split.
  - intros (y & Hy & E). apply String.eqb_eq in E. now subst.
  - intros H. exists x. split; [exact H | apply String.eqb_refl].
Qed.

Lemma existsb_firstSeen (x : string) (l : list string) :
  existsb (String.eqb x) (firstSeen l) = existsb (String.eqb x) l.
Proof.
  destruct (existsb (String.eqb x) l) eqn:E.
  - apply (proj2 (existsb_In x _)), (proj2 (firstSeen_In l x)).
    now apply (proj1 (existsb_In x l)).
  - destruct (existsb (String.eqb x) (firstSeen l)) eqn:F; [|reflexivity].
    apply (proj1 (existsb_In x _)) in F.
    apply (proj1 (firstSeen_In l x)) in F.
    apply (proj2 (existsb_In x l)) in F. congruence.
Qed.

Lemma pushItem_map (f : string -> list ForecastItem) (date : string)
  (x : ForecastItem) (ds : list string) :
  NoDup ds ->
  pushItem date x (map (fun d => (d, f d)) ds)
  = if existsb (String.eqb date) ds
    then map (fun d => (d, if d =? date then (f d ++ [x])%list else f d)) ds
    else (map (fun d => (d, f d)) ds ++ [(date, [x])])%list.
Proof.
  induction 1 as [|d ds Hd Hnd IH]; [reflexivity|].
  cbn [map pushItem existsb]. rewrite (String.eqb_sym date d).
  destruct (String.eqb_spec d date) as [-> | Hne]; cbn [orb].
  - f_equal. apply map_ext_in. intros d' Hd'.
    destruct (String.eqb_spec d' date) as [-> | _];
      [contradiction | reflexivity].
  - rewrite IH. destruct (existsb (String.eqb date) ds); reflexivity.
Qed.

Lemma itemsOf_snoc (rt : Runtime) (l : list ForecastItem) (x : ForecastItem)
  (d : string) :
  itemsOf rt (l ++ [x]) d
  = if d =? dateOf rt x then (itemsOf rt l d ++ [x])%list
    else itemsOf rt l d.
Proof.
  unfold itemsOf. rewrite filter_app. cbn [filter].
  rewrite (String.eqb_sym d). destruct (dateOf rt x =? d);
    [reflexivity | now rewrite app_nil_r].
Qed.

Lemma itemsOf_absent (rt : Runtime) (l : list ForecastItem) (d : string) :
  ~ In d (map (dateOf rt) l) -> itemsOf rt l d = [].
Proof.
  unfold itemsOf. induction l as [|a l IH]; intros H; [reflexivity|].
  cbn [filter map In] in *.
  destruct (String.eqb_spec (dateOf rt a) d) as [E | _]; [tauto|].
  apply IH. tauto.
Qed.

Lemma itemsOf_present (rt : Runtime) (l : list ForecastItem) (d : string) :
  In d (map (dateOf rt) l) -> itemsOf rt l d <> [].
Proof.
  intros H. apply in_map_iff in H as (x & Hx & Hin).
  assert (Hi : In x (itemsOf rt l d)).
  { apply filter_In. split; [exact Hin | now apply String.eqb_eq]. }
  intros E. rewrite E in Hi. destruct Hi.
Qed.

(** The object [dailyData] when nothing throws: one key per day, in the
    order in which the days appear, each with the items of that day in
    their order. *)
Lemma pushed_grouped (rt : Runtime) (l : list ForecastItem) :
  fold_left (fun dailyData item => pushItem (dateOf rt item) item dailyData)
    l []
  = grouped rt l.
Proof.
  unfold grouped.
  induction l as [|x l IH] using rev_ind; [reflexivity|].
  rewrite fold_left_app. cbn [fold_left].
  rewrite IH, pushItem_map by apply firstSeen_NoDup.
  unfold daysOf. rewrite map_app. cbn [map].
  rewrite firstSeen_snoc, existsb_firstSeen.
  destruct (existsb (String.eqb (dateOf rt x)) (map (dateOf rt) l)) eqn:E.
  - apply map_ext. intros d. now rewrite itemsOf_snoc.
  - rewrite map_app. cbn [map]. f_equal.
    + apply map_ext_in. intros d Hd. rewrite itemsOf_snoc.
      destruct (String.eqb_spec d (dateOf rt x)) as [-> | _];
        [|reflexivity].
      apply (proj1 (firstSeen_In _ _)) in Hd.
      apply (proj2 (existsb_In _ _)) in Hd. congruence.
    + rewrite itemsOf_snoc, String.eqb_refl, itemsOf_absent; [reflexivity|].
      intros H. apply (proj2 (existsb_In _ _)) in H. congruence.
Qed.

(** Once [toISOString] has thrown, the loop is over. *)
Lemma groupItem_thrown (rt : Runtime) (l : list ForecastItem) :
  fold_left (groupItem rt) l None = None.
Proof. induction l as [|x l IH]; [reflexivity | exact IH]. Qed.

Lemma groupItem_fold (rt : Runtime) (l : list ForecastItem)
  (dailyData : list (string * list ForecastItem)) :
  fold_left (groupItem rt) l (Some dailyData)
  = if forallb inRange l
    then Some (fold_left
                 (fun acc item => pushItem (dateOf rt item) item acc)
                 l dailyData)
    else None.
Proof.
  revert dailyData. induction l as [|x l IH]; intros dailyData;
    [reflexivity|].
  cbn [fold_left forallb groupItem]. destruct (inRange x); cbn [andb].
  - apply IH.
  - apply groupItem_thrown.
Qed.

Lemma dailyData_grouped (rt : Runtime) (l : list ForecastItem) :
  dailyDataOf rt l = if forallb inRange l then Some (grouped rt l) else None.
Proof.
  unfold dailyDataOf. rewrite groupItem_fold, pushed_grouped. reflexivity.
Qed.

Lemma forallb_inRange (l : list ForecastItem) :
  forallb inRange l = false <-> Exists (fun item => inRange item = false) l.
Proof.
  induction l as [|x l IH]; cbn [forallb].
  - split; [discriminate | intros H; inversion H].
  - rewrite Exists_cons, <- IH. destruct (inRange x); cbn [andb];
      split; auto. intros [H | H]; [discriminate H | exact H].
Qed.

Lemma forallb_inRange_all (l : list ForecastItem) :
  forallb inRange l = true <-> Forall (fun item => inRange item = true) l.
Proof.
  rewrite forallb_forall, Forall_forall. reflexivity.
Qed.

Lemma firstn_keeps {A : Type} (n : nat) (l : list A) (a : A) :
  In a (firstn n l) -> In a l.
Proof.
  revert l. induction n as [|n IH]; intros [|x l] H; try destruct H.
  - now left.
  - right. now apply IH.
Qed.

Lemma mapM_map {A B C : Type} (f : B -> option C) (g : A -> B) (l : list A) :
  mapM f (map g l) = mapM (fun a => f (g a)) l.
Proof.
  induction l as [|a l IH]; [reflexivity|].
  cbn [map mapM]. now rewrite IH.
Qed.

Lemma mapM_total {A B : Type} (f : A -> option B) (l : list A) :
  (forall a, In a l -> f a <> None) ->
  exists bs, mapM f l = Some bs /\ Forall2 (fun a b => f a = Some b) l bs.
Proof.
  induction l as [|a l IH]; intros H.
  - exists []. split; [reflexivity | constructor].
  - destruct IH as (bs & E & F); [intros a' Ha; apply H; now right|].
    cbn [mapM]. destruct (f a) as [b|] eqn:Ea.
    + rewrite E. exists (b :: bs). split; [reflexivity|].
      constructor; assumption.
    + exfalso. apply (H a); [now left | exact Ea].
Qed.

Lemma midDayItem_some (loc : Locale) (items : list ForecastItem) :
  items <> [] -> midDayItem loc items <> None.
Proof.
  unfold midDayItem. destruct (find (midDay loc) items); [discriminate|].
  destruct items; [congruence | discriminate].
Qed.

(** The function on a list whose time stamps are all dates. *)
Lemma groupForecastByDay_inRange (rt : Runtime) (loc : Locale)
  (l : list ForecastItem) :
  forallb inRange l = true ->
  exists days,
    groupForecastByDay rt loc l = Some days
    /\ List.length days = Nat.min 5 (List.length (daysOf rt l))
    /\ Forall2 (fun date day =>
                  itemsOf rt l date <> []
                  /\ summarise loc (itemsOf rt l date) = Some day)
         (firstn 5 (daysOf rt l)) days.
Proof.
  intros Hr. unfold groupForecastByDay.
  rewrite dailyData_grouped, Hr. unfold grouped.
  rewrite firstn_map, mapM_map. cbn [snd].
  assert (P : forall d, In d (firstn 5 (daysOf rt l)) ->
                        itemsOf rt l d <> []).
  { intros d Hd. apply itemsOf_present.
    apply firstSeen_In. exact (firstn_keeps _ _ _ Hd). }
  destruct (mapM_total (fun d => summarise loc (itemsOf rt l d))
              (firstn 5 (daysOf rt l))) as (days & E & F).
  { intros d Hd. unfold summarise.
    pose proof (midDayItem_some loc _ (P d Hd)) as Hm.
    destruct (midDayItem loc (itemsOf rt l d));
      [discriminate | congruence]. }
  exists days. split; [exact E|]. split.
  - rewrite <- (Forall2_length F). apply length_firstn.
  - clear E. induction F as [|d day ds days' Hs F IH]; constructor.
    + split; [|exact Hs]. apply P. now left.
    + apply IH. intros d' Hd'. apply P. now right.
Qed.

(** X20.  For forecast items that have an integer time stamp [dt] and the
    fields read from them: [groupForecastByDay] throws exactly when the
    time stamp of some item is no date (further than 8.64e15 ms from the
    epoch, where [toISOString] throws a RangeError).  Otherwise it returns
    one entry per day of the forecast, for the first five days at most, in
    the order in which the days first appear in the list; and the entry of
    a day summarises exactly the items of that day, in their order, of
    which there is at least one. *)
Theorem forecast_is_grouped_by_day (rt : Runtime) (loc : Locale)
  (forecastList : list ForecastItem) :
  (groupForecastByDay rt loc forecastList = None
   <-> Exists (fun item => inRange item = false) forecastList)
  /\ NoDup (daysOf rt forecastList)
  /\ (forall d, In d (daysOf rt forecastList)
                <-> exists item, In item forecastList /\ dateOf rt item = d)
  /\ (Forall (fun item => inRange item = true) forecastList ->
      dailyDataOf rt forecastList
      = Some (map (fun d => (d, itemsOf rt forecastList d))
                (daysOf rt forecastList))
      /\ exists days,
           groupForecastByDay rt loc forecastList = Some days
           /\ List.length days
              = Nat.min 5 (List.length (daysOf rt forecastList))
           /\ Forall2 (fun date day =>
                         itemsOf rt forecastList date <> []
                         /\ summarise loc (itemsOf rt forecastList date)
                            = Some day)
                (firstn 5 (daysOf rt forecastList)) days).
Proof.
  split; [|split; [apply firstSeen_NoDup | split]].
  - rewrite <- forallb_inRange.
    destruct (forallb inRange forecastList) eqn:Hr.
    + destruct (groupForecastByDay_inRange rt loc forecastList Hr)
        as (days & -> & _). split; discriminate.
    + unfold groupForecastByDay. rewrite dailyData_grouped, Hr.
      split; reflexivity.
  - intros d. unfold daysOf. rewrite firstSeen_In, in_map_iff.
    split; intros (x & H1 & H2); exists x; tauto.
  - intros Hr. apply forallb_inRange_all in Hr. split.
    + rewrite dailyData_grouped, Hr. reflexivity.
    + apply groupForecastByDay_inRange, Hr.
Qed.

(** X20 at the two items of 15 June, and at an item whose time stamp is
    beyond the last date. *)
Lemma forecast_grouping_witness :
  dailyDataOf demoRuntime [morning; lunchtime]
  = Some [("2025-06-15", [morning; lunchtime])]
  /\ groupForecastByDay demoRuntime london
       [morning;
        {| dt := 8640000000001;
           main_temp := main_temp morning;
           main_temp_min := main_temp_min morning;
           main_temp_max := main_temp_max morning;
           main_humidity := main_humidity morning;
           item_weather := item_weather morning;
           wind_speed := wind_speed morning |}]
     = None.
Proof.
  split.
  - destruct (forecast_is_grouped_by_day demoRuntime london
                [morning; lunchtime]) as (_ & _ & _ & H).
    destruct H as [H _]; [repeat constructor|].
    etransitivity; [exact H|]. vm_compute. reflexivity.
  - apply (forecast_is_grouped_by_day demoRuntime london).
    right. left. reflexivity.
Defined.

Lemma find_first {A : Type} (p : A -> bool) (l : list A) (m : A) :
  find p l = Some m ->
  exists pre post,
    l = (pre ++ m :: post)%list /\ Forall (fun a => p a = false) pre
    /\ p m = true.
Proof.
  induction l as [|a l IH]; intros H; [discriminate H|].
  cbn [find] in H. destruct (p a) eqn:E.
  - injection H as <-. exists [], l. repeat split; [constructor | exact E].
  - destruct (IH H) as (pre & post & -> & Hpre & Hm).
    exists (a :: pre), post. repeat split; [now constructor | exact Hm].
Qed.

Lemma find_none {A : Type} (p : A -> bool) (l : list A) :
  find p l = None -> Forall (fun a => p a = false) l.
Proof.
  induction l as [|a l IH]; intros H; [constructor|].
  cbn [find] in H. destruct (p a) eqn:E; [discriminate H|].
  constructor; [exact E | now apply IH].
Qed.

Lemma Qle_bool_false (x y : number) :
  QArith_base.Qle_bool x y = false -> QArith_base.Qle y x.
Proof.
  intros H. apply QArith_base.Qlt_le_weak, QArith_base.Qnot_le_lt.
  intros L. apply QArith_base.Qle_bool_iff in L. congruence.
Qed.

Lemma Math_min_least (l : list number) :
  l <> [] ->
  exists m, Math_min l = Some m /\ In m l
            /\ Forall (fun x => QArith_base.Qle m x) l.
Proof.
  induction l as [|x l IH]; intros H; [congruence|]. cbn [Math_min].
  destruct l as [|y l].
  - exists x. repeat split; [now left|].
    constructor; [apply QArith_base.Qle_refl | constructor].
  - destruct IH as (m & -> & Hin & Hall); [discriminate|].
    destruct (QArith_base.Qle_bool x m) eqn:E.
    + apply QArith_base.Qle_bool_iff in E. exists x.
      repeat split; [now left|].
      constructor; [apply QArith_base.Qle_refl|].
      eapply Forall_impl; [|exact Hall]. intros a Ha.
      exact (QArith_base.Qle_trans _ _ _ E Ha).
    + apply Qle_bool_false in E. exists m.
      repeat split; [now right|]. now constructor.
Qed.

Lemma Math_max_greatest (l : list number) :
  l <> [] ->
  exists m, Math_max l = Some m /\ In m l
            /\ Forall (fun x => QArith_base.Qle x m) l.
Proof.
  induction l as [|x l IH]; intros H; [congruence|]. cbn [Math_max].
  destruct l as [|y l].
  - exists x. repeat split; [now left|].
    constructor; [apply QArith_base.Qle_refl | constructor].
  - destruct IH as (m & -> & Hin & Hall); [discriminate|].
    destruct (QArith_base.Qle_bool m x) eqn:E.
    + apply QArith_base.Qle_bool_iff in E. exists x.
      repeat split; [now left|].
      constructor; [apply QArith_base.Qle_refl|].
      eapply Forall_impl; [|exact Hall]. intros a Ha.
      exact (QArith_base.Qle_trans _ _ _ Ha E).
    + apply Qle_bool_false in E. exists m.
      repeat split; [now right|]. now constructor.
Qed.

(** X21.  The entry of a day stands on one of its items: the first one
    whose local hour is between 11 and 15, or the day's first item when
    there is none; from it come the time stamp, the day temperature and
    the weather.  The minimum and the maximum are temperatures of items of
    the day, and they bound those of every item of the day. *)
Theorem day_entry_summarises_its_items (loc : Locale)
  (items : list ForecastItem) :
  items <> [] ->
  exists day m pre post lo hi,
    summarise loc items = Some day
    /\ items = (pre ++ m :: post)%list
    /\ ((midDay loc m = true /\ Forall (offPeak loc) pre)
        \/ (pre = [] /\ Forall (offPeak loc) items))
    /\ day_dt day = dt m /\ temp_day day = main_temp m
    /\ day_weather day = item_weather m
    /\ temp_min day = Some lo /\ temp_max day = Some hi
    /\ In lo (map main_temp_min items) /\ In hi (map main_temp_max items)
    /\ Forall (fun item =>
                 QArith_base.Qle lo (main_temp_min item)
                 /\ QArith_base.Qle (main_temp_max item) hi) items.
Proof.
  intros Hne.
  destruct (Math_min_least (map main_temp_min items)) as (lo & Elo & Ilo & Hlo).
  { destruct items; [congruence | discriminate]. }
  destruct (Math_max_greatest (map main_temp_max items))
    as (hi & Ehi & Ihi & Hhi).
  { destruct items; [congruence | discriminate]. }
  assert (B : Forall (fun item =>
                        QArith_base.Qle lo (main_temp_min item)
                        /\ QArith_base.Qle (main_temp_max item) hi) items).
  { rewrite Forall_map in Hlo, Hhi. rewrite Forall_forall in *.
    intros item Hi. split; [now apply Hlo | now apply Hhi]. }
  unfold summarise, midDayItem.
  destruct (find (midDay loc) items) as [m|] eqn:F.
  - destruct (find_first _ _ _ F) as (pre & post & E & Hpre & Hm).
    eexists _, m, pre, post, lo, hi. rewrite Elo, Ehi.
    split; [reflexivity|]. split; [exact E|].
    split; [left; now split|]. repeat split; assumption.
  - destruct items as [|m rest]; [congruence|]. cbn [hd_error].
    eexists _, m, [], rest, lo, hi. rewrite Elo, Ehi.
    split; [reflexivity|]. split; [reflexivity|].
    split; [right; split; [reflexivity | exact (find_none _ _ F)]|].
    repeat split; assumption.
Qed.

(** X21 at a day with an item of the morning and one of lunchtime. *)
Lemma day_entry_witness :
  exists day m pre post lo hi,
    summarise london [morning; lunchtime] = Some day
    /\ [morning; lunchtime] = (pre ++ m :: post)%list
    /\ ((midDay london m = true /\ Forall (offPeak london) pre)
        \/ (pre = [] /\ Forall (offPeak london) [morning; lunchtime]))
    /\ day_dt day = dt m /\ temp_day day = main_temp m
    /\ day_weather day = item_weather m
    /\ temp_min day = Some lo /\ temp_max day = Some hi
    /\ In lo (map main_temp_min [morning; lunchtime])
    /\ In hi (map main_temp_max [morning; lunchtime])
    /\ Forall (fun item =>
                 QArith_base.Qle lo (main_temp_min item)
                 /\ QArith_base.Qle (main_temp_max item) hi)
         [morning; lunchtime].
Proof.
  apply (day_entry_summarises_its_items london [morning; lunchtime]).
  discriminate.
Defined.

(* ================================================================== *)
(** ** The forecast handler                                            *)
(* ================================================================== *)

Lemma mapM_length {A B : Type} (f : A -> option B) (l : list A)
  (bs : list B) :
  mapM f l = Some bs -> List.length bs = List.length l.
Proof.
  revert bs. induction l as [|a l IH]; intros bs H.
  - injection H as <-. reflexivity.
  - cbn [mapM] in H. destruct (f a); [|discriminate H].
    destruct (mapM f l) as [bs'|]; [|discriminate H].
    injection H as <-. cbn. now rewrite (IH bs' eq_refl).
Qed.

Lemma groupForecastByDay_length (rt : Runtime) (loc : Locale)
  (l : list ForecastItem) (days : list DailyEntry) :
  groupForecastByDay rt loc l = Some days -> (List.length days <= 5)%nat.
Proof.
  unfold groupForecastByDay. intros H.
  destruct (dailyDataOf rt l) as [dailyData|]; [|discriminate H].
  apply mapM_length in H. rewrite H, length_firstn. lia.
Qed.

Lemma wantsOneCall25_true (ok : bool) (d : option OneCallDoc) :
  wantsOneCall25 ok d = Some true ->
  ok = false
  /\ exists w msg,
       d = Some w /\ doc_message w = JS.Str msg
       /\ JS.includes "One Call 3.0" msg || JS.includes "subscription" msg
          = true.
Proof.
  unfold wantsOneCall25. destruct ok; [discriminate|].
  destruct d as [w|]; [|discriminate]. intros H. split; [reflexivity|].
  destruct (doc_message w) as [| |b|n|s] eqn:E; simpl in H;
    try discriminate H.
  - destruct b; discriminate H.
  - destruct (negb (n =? 0)%Z); discriminate H.
  - exists w, s. destruct (s =? ""); [discriminate H|].
    injection H as H. repeat split; assumption.
Qed.

Lemma wantsOneCall25_false (ok : bool) (d : option OneCallDoc) :
  wantsOneCall25 ok d = Some false -> ok = true \/ ok = false.
Proof. destruct ok; [now left | now right]. Qed.

(** The third step, case by case. *)
Lemma thirdStep_cases (rt : Runtime) (loc : Locale) (up : ForecastUpstream)
  (cache : option ForecastCache) (t : Z) (ok : bool) (d : option OneCallDoc)
  (asked : list ForecastEndpoint) (k : nat) :
  let result := thirdStep rt loc up cache t ok d asked k in
  (contacted result = asked /\ ok = true
   \/ contacted result = (asked ++ [FiveDay])%list /\ ok = false)
  /\ forall w ft ver,
       answer result = ForecastFresh w ft ver ->
       storeAfter result = Some {| fc_data := Some w; fc_timestamp := t |}
       /\ ver = forecastVersion w
       /\ ft = toISOString rt (Date_now rt k)
       /\ tickAfter result = S k
       /\ match w with
          | OneCallData doc => ok = true /\ d = Some doc
          | FiveDayData first hourly daily =>
              ok = false
              /\ exists doc l,
                   fiveDay up = Answered true (Some (Some doc))
                   /\ list_ doc = Some l
                   /\ first = hd_error l /\ hourly = firstn 24 l
                   /\ groupForecastByDay rt loc l = Some daily
                   /\ (List.length daily <= 5)%nat
          end.
Proof.
  unfold thirdStep, finishForecast, answer, storeAfter, contacted, tickAfter,
    bind, ret, now.
  destruct ok; cbn [negb].
  - destruct d as [doc|]; cbn; (split; [now left|]); intros w ft ver H.
    + injection H as <- <- <-. repeat split.
    + discriminate H.
  - destruct (fiveDay up) as [|[|] [forecastData|]] eqn:E5;
      try (cbn; split; [now right | intros w ft ver H; discriminate H]).
    unfold fromFiveDay.
    destruct forecastData as [doc|];
      try (cbn; split; [now right | intros w ft ver H; discriminate H]).
    destruct (list_ doc) as [l|] eqn:El;
      try (cbn; split; [now right | intros w ft ver H; discriminate H]).
    destruct (groupForecastByDay rt loc l) as [days|] eqn:Eg;
      try (cbn; split; [now right | intros w ft ver H; discriminate H]).
    cbn. split; [now right|]. intros w ft ver H.
    injection H as <- <- <-. repeat split.
    exists doc, l. repeat split; try assumption.
    exact (groupForecastByDay_length rt loc l days Eg).
Qed.

(** A way through the [try] block that ends in the [catch]. *)
Ltac failed_leaf :=
  cbn; split;
  [auto 8
  |split;
   [first [intros [? | []]; congruence | intros _; assumption]
   |intros ? ? ? ?; congruence]].

Lemma fetchForecast_cases (rt : Runtime) (loc : Locale)
  (up : ForecastUpstream) (cache : option ForecastCache) (t : Z) (k : nat) :
  let result := fetchForecast rt loc up cache t k in
  In (contacted result)
    [[Forecast30]; [Forecast30; Forecast25]; [Forecast30; FiveDay];
     [Forecast30; Forecast25; FiveDay]]
  /\ (In Forecast25 (contacted result) -> askedForOneCall25 up)
  /\ forall w ft ver,
       answer result = ForecastFresh w ft ver ->
       storeAfter result = Some {| fc_data := Some w; fc_timestamp := t |}
       /\ ver = forecastVersion w
       /\ ft = toISOString rt (Date_now rt k)
       /\ tickAfter result = S k
       /\ producedBy rt loc up (contacted result) w.
Proof.
  unfold fetchForecast.
  destruct (oneCall30 up) as [|ok1 [d1|]] eqn:E30;
    [failed_leaf | | destruct ok1; failed_leaf].
  destruct (wantsOneCall25 ok1 d1) as [[|]|] eqn:Ew; [| |failed_leaf].
  - apply wantsOneCall25_true in Ew as (-> & w & msg & -> & Hm & Hi).
    assert (Ha : askedForOneCall25 up)
      by (exists w, msg; repeat split; assumption).
    destruct (oneCall25 up) as [|ok2 [d2|]] eqn:E25;
      [failed_leaf | | destruct ok2; failed_leaf].
    destruct (thirdStep_cases rt loc up cache t ok2 d2
                [Forecast30; Forecast25] k) as (Hc & Hf).
    cbv zeta in Hc, Hf. split; [|split; [intros _; exact Ha|]].
    + destruct Hc as [[-> _] | [-> _]]; simpl; auto 8.
    + intros w' ft ver H.
      destruct (Hf w' ft ver H) as (Hs & Hv & Ht & Hk & Hp).
      repeat split; try assumption.
      destruct w' as [doc | first hourly daily]; cbn [producedBy].
      * destruct Hp as (-> & ->). right.
        destruct Hc as [[-> _] | [_ Hx]]; [now split | discriminate Hx].
      * destruct Hp as (-> & Hp).
        destruct Hc as [[_ Hx] | [-> _]]; [discriminate Hx|].
        split; [simpl; auto 8 | exact Hp].
  - destruct (thirdStep_cases rt loc up cache t ok1 d1 [Forecast30] k)
      as (Hc & Hf).
    cbv zeta in Hc, Hf. split; [|split].
    + destruct Hc as [[-> _] | [-> _]]; simpl; auto 8.
    + destruct Hc as [[-> _] | [-> _]]; simpl; intros Hin;
        repeat (destruct Hin as [Hin | Hin]; [discriminate Hin|]);
        destruct Hin.
    + intros w' ft ver H.
      destruct (Hf w' ft ver H) as (Hs & Hv & Ht & Hk & Hp).
      repeat split; try assumption.
      destruct w' as [doc | first hourly daily]; cbn [producedBy].
      * destruct Hp as (-> & ->). left.
        destruct Hc as [[-> _] | [_ Hx]]; [now split | discriminate Hx].
      * destruct Hp as (-> & Hp).
        destruct Hc as [[_ Hx] | [-> _]]; [discriminate Hx|].
        split; [simpl; auto 8 | exact Hp].
Qed.

Lemma askedForOneCall25_wants (up : ForecastUpstream) :
  askedForOneCall25 up ->
  exists d,
    oneCall30 up = Answered false (Some d)
    /\ wantsOneCall25 false d = Some true.
Proof.
  intros (d & msg & E & Hm & Hi). exists (Some d). split; [exact E|].
  unfold wantsOneCall25. rewrite Hm.
  destruct (String.eqb_spec msg "") as [-> | _]; [discriminate Hi|].
  now rewrite Hi.
Qed.

(** The five-day endpoint is asked exactly when the last One Call answer
    was not [ok]. *)
Lemma fetchForecast_fiveDay (rt : Runtime) (loc : Locale)
  (up : ForecastUpstream) (cache : option ForecastCache) (t : Z) (k : nat) :
  In FiveDay (contacted (fetchForecast rt loc up cache t k))
  <-> lastOneCallRefused up.
Proof.
  assert (N1 : ~ In FiveDay [Forecast30])
    by (intros [H | []]; discriminate H).
  assert (N2 : ~ In FiveDay [Forecast30; Forecast25])
    by (intros [H | [H | []]]; discriminate H).
  unfold fetchForecast, lastOneCallRefused.
  destruct (oneCall30 up) as [|ok1 [d1|]] eqn:E30.
  - unfold contacted, ret; cbn [fst snd]. split; [intros H; now elim N1|].
    intros [(d & H & _) | (Ha & _)]; [discriminate H|].
    apply askedForOneCall25_wants in Ha as (d & H & _).
    rewrite E30 in H. discriminate H.
  - destruct (wantsOneCall25 ok1 d1) as [[|]|] eqn:Ew.
    + pose proof Ew as Ew'.
      apply wantsOneCall25_true in Ew' as (-> & w & msg & -> & Hm & Hi).
      assert (Ha : askedForOneCall25 up)
        by (exists w, msg; repeat split; assumption).
      assert (N : ~ (exists d,
                        Answered false (Some (Some w))
                        = Answered false (Some d)
                        /\ wantsOneCall25 false d = Some false)).
      { intros (d & H & Hw). injection H as <-. congruence. }
      destruct (oneCall25 up) as [|ok2 [d2|]] eqn:E25.
      * unfold contacted, ret; cbn [fst snd].
        split; [intros H; now elim N2|].
        intros [H | (_ & d & H)]; [now elim N | discriminate H].
      * destruct (thirdStep_cases rt loc up cache t ok2 d2
                    [Forecast30; Forecast25] k) as ([[-> ->] | [-> ->]] & _).
        -- split; [intros H; now elim N2|].
           intros [H | (_ & d & H)]; [now elim N | discriminate H].
        -- split; [intros _ | intros _; cbn; auto].
           right. split; [exact Ha | now exists d2].
      * destruct ok2; unfold contacted, ret; cbn [fst snd];
          (split; [intros H; now elim N2|]);
          (intros [H | (_ & d & H)]; [now elim N | discriminate H]).
    + destruct (thirdStep_cases rt loc up cache t ok1 d1 [Forecast30] k)
        as ([[-> ->] | [-> ->]] & _).
      * split; [intros H; now elim N1|].
        intros [(d & H & _) | (Ha & _)]; [discriminate H|].
        apply askedForOneCall25_wants in Ha as (d & H & _).
        rewrite E30 in H. discriminate H.
      * split; [intros _ | intros _; cbn; auto].
        left. now exists d1.
    + unfold contacted, ret; cbn [fst snd]. split; [intros H; now elim N1|].
      intros [(d & H & Hw) | (Ha & _)].
      * injection H as -> <-. congruence.
      * apply askedForOneCall25_wants in Ha as (d & H & Hw).
        rewrite E30 in H. injection H as -> <-. congruence.
  - destruct ok1; unfold contacted, ret; cbn [fst snd];
      (split; [intros H; now elim N1|]);
      (intros [(d & H & _) | (Ha & _)]; [discriminate H|]);
      apply askedForOneCall25_wants in Ha as (d & H & _);
      rewrite E30 in H; discriminate H.
Qed.

Lemma handleWeatherForecast_cases (rt : Runtime) (loc : Locale) (env : Env)
  (up : ForecastUpstream) (cache : option ForecastCache) (k : nat) :
  (~ configured_key env
   /\ handleWeatherForecast rt loc env up cache k
      = (ForecastNotConfigured, cache, [], k))
  \/ (configured_key env
      /\ exists c,
           cache = Some c
           /\ (Date_now rt k - fc_timestamp c < WEATHER_CACHE_DURATION)%Z
           /\ handleWeatherForecast rt loc env up cache k
              = (ForecastCached (fc_data c)
                   (JS.round_div (Date_now rt k - fc_timestamp c) 60000),
                 cache, [], S k))
  \/ (configured_key env
      /\ (forall c, cache = Some c ->
                    (WEATHER_CACHE_DURATION
                     <= Date_now rt k - fc_timestamp c)%Z)
      /\ handleWeatherForecast rt loc env up cache k
         = fetchForecast rt loc up cache (Date_now rt k) (S k)).
Proof.
  unfold handleWeatherForecast, configured_key.
  destruct (OPENWEATHER_API_KEY env =? "") eqn:E1.
  { left. apply String.eqb_eq in E1. split; [tauto | reflexivity]. }
  destruct (OPENWEATHER_API_KEY env =? "your_openweather_api_key_here")
    eqn:E2.
  { left. apply String.eqb_eq in E2. split; [tauto | reflexivity]. }
  apply String.eqb_neq in E1, E2. right. cbn [orb]. unfold bind, now, ret.
  destruct cache as [c|].
  - destruct (Z.ltb_spec (Date_now rt k - fc_timestamp c)
                WEATHER_CACHE_DURATION).
    + left. split; [tauto|]. exists c. repeat split. assumption.
    + right. split; [tauto|]. split; [|reflexivity].
      intros c' Hc. injection Hc as <-. assumption.
  - right. split; [tauto|]. split; [|reflexivity]. discriminate.
Qed.

(** X22.  [handleWeatherForecast] asks its endpoints in a fixed order: the
    One Call 3.0 endpoint, then the 2.5 one only after the first refused
    with a message about the subscription, then the five-day endpoint only
    after the last One Call answer was not [ok], and, when any endpoint is
    asked at all, whenever that answer was not [ok] and its body could be
    examined.  A fresh answer is always stored in the forecast cache with
    the clock reading of the request; its payload is the body of the One
    Call answer that was [ok], or else it is built from the list of the
    five-day answer: the first item, the first 24 items and the days that
    [groupForecastByDay] returned without throwing, five at most, under
    the version ["2.5-forecast"]. *)
Theorem forecast_falls_back_in_order (rt : Runtime) (loc : Locale)
  (env : Env) (up : ForecastUpstream) (cache : option ForecastCache)
  (k : nat) :
  let result := handleWeatherForecast rt loc env up cache k in
  In (contacted result)
    [[]; [Forecast30]; [Forecast30; Forecast25]; [Forecast30; FiveDay];
     [Forecast30; Forecast25; FiveDay]]
  /\ (In Forecast25 (contacted result) -> askedForOneCall25 up)
  /\ (In FiveDay (contacted result) -> lastOneCallRefused up)
  /\ (contacted result <> [] -> lastOneCallRefused up ->
      In FiveDay (contacted result))
  /\ (forecast_status (answer result) = 400%nat <-> ~ configured_key env)
  /\ forall w ft ver,
       answer result = ForecastFresh w ft ver ->
       storeAfter result
       = Some {| fc_data := Some w; fc_timestamp := Date_now rt k |}
       /\ ver = forecastVersion w
       /\ producedBy rt loc up (contacted result) w
       /\ forall up',
            (Date_now rt (tickAfter result) - Date_now rt k
             < 30 * 60 * 1000)%Z ->
            handleWeatherForecast rt loc env up' (storeAfter result)
              (tickAfter result)
            = (ForecastCached (Some w)
                 (JS.round_div
                    (Date_now rt (tickAfter result) - Date_now rt k) 60000),
               storeAfter result, [], S (tickAfter result)).
Proof.
  intros result. unfold result.
  destruct (handleWeatherForecast_cases rt loc env up cache k)
    as [(Hn & ->) | [(Hc & c & _ & _ & ->) | (Hc & _ & ->)]].
  - cbn. repeat split; try tauto; discriminate.
  - cbn. repeat split; try tauto; discriminate.
  - destruct (fetchForecast_cases rt loc up cache (Date_now rt k) (S k))
      as (Hcon & Hask & Hf). cbv zeta in Hcon, Hask, Hf.
    pose proof (fetchForecast_fiveDay rt loc up cache (Date_now rt k) (S k))
      as [H5 H5'].
    split; [right; exact Hcon|]. split; [exact Hask|].
    split; [exact H5|]. split; [intros _; exact H5'|]. split.
    + split; [|tauto]. intros H. exfalso.
      destruct (answer (fetchForecast rt loc up cache (Date_now rt k) (S k)))
        eqn:Ea; try discriminate H.
      revert Ea. clear.
      unfold fetchForecast, thirdStep, finishForecast, answer, bind, ret, now.
      destruct (oneCall30 up) as [|ok1 [[d1|]|]]; try discriminate;
        destruct (wantsOneCall25 ok1 _) as [[|]|]; try discriminate;
        try (destruct (oneCall25 up) as [|ok2 [[d2|]|]]; try discriminate);
        repeat match goal with
               | |- context [if ?b then _ else _] => destruct b
               | |- context [match fiveDay up with _ => _ end] =>
                   destruct (fiveDay up) as [|[|] [fd|]]
               | |- context [match fromFiveDay ?r ?l ?f with _ => _ end] =>
                   destruct (fromFiveDay r l f)
               end; cbn; try discriminate.
    + intros w ft ver H.
      destruct (Hf w ft ver H) as (Hs & Hv & _ & Hk & Hp).
      repeat split; try assumption.
      intros up' Hage. rewrite Hs, Hk in *.
      destruct (handleWeatherForecast_cases rt loc env up'
                  (Some {| fc_data := Some w; fc_timestamp := Date_now rt k |})
                  (S (S k)))
        as [(Hn & _) | [(_ & c & Hc' & _ & ->) | (_ & Hold & _)]].
      * contradiction.
      * injection Hc' as <-. reflexivity.
      * specialize (Hold _ eq_refl). cbn [fc_timestamp] in Hold.
        unfold WEATHER_CACHE_DURATION in Hold. lia.
Qed.

(** X22 when only the five-day endpoint answers. *)
Lemma forecast_witness :
  let rt := Ref.runtime minuteClock in
  let result := handleWeatherForecast rt london demoEnv fiveDayOnly None 0 in
  contacted result = [Forecast30; FiveDay]
  /\ lastOneCallRefused fiveDayOnly
  /\ match answer result with
     | ForecastFresh w _ _ =>
         producedBy rt london fiveDayOnly (contacted result) w
     | _ => False
     end.
Proof.
  cbv zeta.
  destruct (forecast_falls_back_in_order (Ref.runtime minuteClock) london
              demoEnv fiveDayOnly None 0) as (_ & _ & H5 & _ & _ & Hf).
  cbv zeta in H5, Hf.
  assert (Hc : contacted (handleWeatherForecast (Ref.runtime minuteClock)
                            london demoEnv fiveDayOnly None 0)
               = [Forecast30; FiveDay]) by (vm_compute; reflexivity).
  split; [exact Hc|].
  split; [apply H5; rewrite Hc; right; left; reflexivity|].
  destruct (answer (handleWeatherForecast (Ref.runtime minuteClock) london
                      demoEnv fiveDayOnly None 0))
    as [| |w ft ver|] eqn:E;
    try (vm_compute in E; discriminate E).
  exact (proj1 (proj2 (proj2 (Hf w ft ver eq_refl)))).
Defined.

(* ================================================================== *)
(** ** Parsing a text in two parts                                     *)
(* ================================================================== *)

Section Frame.

Variable make : Runtime -> string -> RawEvent -> Clocked Event.
Variable setp : RawEvent -> string -> string -> RawEvent.
Variable rt : Runtime.
Variable src : string.

Let step := parseLineWith make setp rt src.

(** The events already emitted are carried along untouched. *)
Lemma step_frame (E B : list Event) (c : option RawEvent) (line : string)
  (k : nat) :
  step {| events := E ++ B; currentEvent := c |} line k
  = ({| events :=
          E ++ events (fst (step {| events := B; currentEvent := c |} line k));
        currentEvent :=
          currentEvent (fst (step {| events := B; currentEvent := c |}
                               line k)) |},
     snd (step {| events := B; currentEvent := c |} line k)).
Proof.
  unfold step, parseLineWith. cbv zeta. cbn [events currentEvent].
  destruct (JS.trim line =? "BEGIN:VEVENT"); [reflexivity|].
  destruct c as [cur|]; [|reflexivity].
  destruct (JS.trim line =? "END:VEVENT").
  - destruct (JS.truthy (summary cur) && JS.truthy (dtstart cur));
      [|reflexivity].
    unfold bind, ret. destruct (make rt src cur k) as [e k'].
    cbn [fst snd events currentEvent]. now rewrite app_assoc.
  - destruct (JS.includes ":" (JS.trim line)); reflexivity.
Qed.

Lemma loop_frame (lines : list string) :
  forall (E B : list Event) (c : option RawEvent) (k : nat),
    for_of step lines {| events := E ++ B; currentEvent := c |} k
    = ({| events :=
            E ++ events (fst (for_of step lines
                                {| events := B; currentEvent := c |} k));
          currentEvent :=
            currentEvent (fst (for_of step lines
                                 {| events := B; currentEvent := c |} k)) |},
       snd (for_of step lines {| events := B; currentEvent := c |} k)).
Proof.
  induction lines as [|line lines IH]; intros E B c k; [reflexivity|].
  rewrite !for_of_cons, step_frame. cbn [fst snd].
  destruct (step {| events := B; currentEvent := c |} line k) as [[B' c'] k'].
  cbn [fst snd events currentEvent]. apply IH.
Qed.

Lemma step_inBlock (st : ParseState) (line : string) (k : nat) :
  inBlock (fst (step st line k))
  = if opens line then true else if closes line then false else inBlock st.
Proof.
  unfold step, parseLineWith, opens, closes, inBlock. cbv zeta.
  destruct (JS.trim line =? "BEGIN:VEVENT"); [reflexivity|].
  destruct (currentEvent st) as [cur|] eqn:Ec.
  - destruct (JS.trim line =? "END:VEVENT").
    + destruct (JS.truthy (summary cur) && JS.truthy (dtstart cur));
        [|reflexivity].
      unfold bind, ret. now destruct (make rt src cur k).
    + destruct (JS.includes ":" (JS.trim line)); cbn; [reflexivity|].
      now rewrite Ec.
  - cbn. rewrite Ec. now destruct (JS.trim line =? "END:VEVENT").
Qed.

Lemma loop_inBlock (lines : list string) :
  forall (st : ParseState) (k : nat),
    inBlock (fst (for_of step lines st k)) = openAfter (inBlock st) lines.
Proof.
  induction lines as [|line lines IH]; intros st k; [reflexivity|].
  rewrite for_of_cons, IH, step_inBlock. reflexivity.
Qed.

End Frame.

(** X23.  The events that a text has yielded stay when text is added after
    it: the events of a text in two parts start with the events of the
    first part; and when the first part does not end inside a block, the
    events of the whole are the events of the first part followed by those
    of the second, parsed from the clock reading at which the first
    ended. *)
Theorem parsing_composes_at_block_boundaries (v : Version) (rt : Runtime)
  (src : string) (first second : list string) (k : nat) :
  first <> [] -> second <> [] ->
  Forall (fun l => one_line l = true) first ->
  Forall (fun l => one_line l = true) second ->
  let whole := parseICSData_of v rt (unlines (first ++ second)) src k in
  let head := parseICSData_of v rt (unlines first) src k in
  let rest := parseICSData_of v rt (unlines second) src (snd head) in
  (exists more, fst whole = (fst head ++ more)%list)
  /\ (openAfter false first = false ->
      whole = ((fst head ++ fst rest)%list, snd rest)).
Proof.
  intros Hf Hs Lf Ls whole head rest. subst whole rest head.
  rewrite !parse_split, !split_unlines;
    try assumption;
    try (apply Forall_app; now split);
    try (destruct first; [congruence | discriminate]).
  rewrite for_of_app, parseLine_of_eq. cbn [fst snd].
  set (step := parseLineWith (makeEvent_of v) (setProperty_of v) rt src).
  destruct (for_of step first parseStart k) as [[Ea ca] ka] eqn:Ha.
  cbn [fst snd events].
  pose proof (loop_frame (makeEvent_of v) (setProperty_of v) rt src second
                Ea [] ca ka) as F.
  rewrite app_nil_r in F. fold step in F. rewrite F. cbn [fst snd events].
  split; [now eexists|].
  intros Ho.
  pose proof (loop_inBlock (makeEvent_of v) (setProperty_of v) rt src first
                parseStart k) as I.
  fold step in I. rewrite Ha in I. cbn in I. rewrite Ho in I.
  unfold inBlock in I. cbn in I. destruct ca; [discriminate I|].
  reflexivity.
Qed.

(** X23 at a feed of two blocks, cut between them. *)
Lemma parsing_composes_witness :
  let whole :=
    parseICSData_of Backup demoRuntime (unlines (firstLines ++ lastLines))
      "Apple Calendar" 0 in
  let head :=
    parseICSData_of Backup demoRuntime (unlines firstLines) "Apple Calendar"
      0 in
  let rest :=
    parseICSData_of Backup demoRuntime (unlines lastLines) "Apple Calendar"
      (snd head) in
  (exists more, fst whole = (fst head ++ more)%list)
  /\ whole = ((fst head ++ fst rest)%list, snd rest).
Proof.
  cbv zeta.
  assert (Lf : Forall (fun l => one_line l = true) firstLines)
    by (repeat constructor).
  assert (Ls : Forall (fun l => one_line l = true) lastLines)
    by (repeat constructor).
  assert (Nf : firstLines <> []) by discriminate.
  assert (Nl : lastLines <> []) by discriminate.
  destruct (parsing_composes_at_block_boundaries Backup demoRuntime
              "Apple Calendar" firstLines lastLines 0 Nf Nl Lf Ls)
    as [H1 H2].
  split; [exact H1 | exact (H2 eq_refl)].
Defined.

(* ================================================================== *)
(** ** Events that do not depend on the clock                          *)
(* ================================================================== *)

Lemma calculateDuration_sameDates (rt rt' : Runtime)
  (start end_ : option string) :
  sameDates rt rt' ->
  Server.calculateDuration rt' start end_
  = Server.calculateDuration rt start end_
  /\ forall flag,
       ServerBackup.calculateDuration rt' start end_ flag
       = ServerBackup.calculateDuration rt start end_ flag.
Proof.
  intros H. split.
  - unfold Server.calculateDuration. now rewrite !H.
  - intros flag. unfold ServerBackup.calculateDuration, ServerBackup.instant.
    destruct (JS.includes "T" (JS.or_empty start)),
      (JS.includes "T" (JS.or_empty end_)); now rewrite !H.
Qed.

Lemma formatICSDate_datedToken (rt rt' : Runtime) (s : option string)
  (k k' : nat) :
  datedToken s ->
  snd (formatICSDate rt s k) = k
  /\ fst (formatICSDate rt' s k') = fst (formatICSDate rt s k).
Proof.
  intros (tok & -> & Hne & Hs).
  pose proof (formatICSDate_unchecked rt tok k Hne Hs) as E.
  pose proof (formatICSDate_unchecked rt' tok k' Hne Hs) as E'.
  cbv zeta in E, E'. rewrite E, E'. now split.
Qed.

Lemma makeEvent_stable (v : Version) (rt rt' : Runtime) (src : string)
  (cur : RawEvent) (k k' : nat) :
  JS.truthy (uid cur) = true -> datedToken (dtstart cur) ->
  sameDates rt rt' ->
  snd (makeEvent_of v rt src cur k) = k
  /\ fst (makeEvent_of v rt' src cur k') = fst (makeEvent_of v rt src cur k).
Proof.
  intros Hu Hd Hs.
  destruct (formatICSDate_datedToken rt rt' (dtstart cur) k k' Hd) as [Dk De].
  destruct (calculateDuration_sameDates rt rt' (dtstart cur) (dtend cur) Hs)
    as [Dc Db].
  destruct v; unfold makeEvent_of, Server.makeEvent, ServerBackup.makeEvent,
    bind, ret; rewrite Hu;
    destruct (formatICSDate rt (dtstart cur) k) as [d t] eqn:E;
    destruct (formatICSDate rt' (dtstart cur) k') as [d' t'] eqn:E';
    cbn [fst snd] in *; subst; split; try reflexivity.
  - now rewrite Dc.
  - now rewrite Db.
Qed.

(** X24.  The event of a block that gives a UID and a start token of eight
    characters or with a ["T"] is made without reading the clock, and is
    the same whenever it is parsed: its id, date, time and all its other
    fields are the same under any clock, so that an action recorded on its
    id keeps applying to it. *)
Theorem events_with_a_uid_are_stable (v : Version) (rt rt' : Runtime)
  (src : string) (lines : list string) (k k' : nat) :
  inner lines -> Forall (fun l => one_line l = true) lines ->
  JS.truthy (supplied SUMMARY lines) = true ->
  JS.truthy (supplied UID lines) = true ->
  datedToken (supplied DTSTART lines) ->
  sameDates rt rt' ->
  exists e,
    parseICSData_of v rt (block lines) src k = ([e], k)
    /\ parseICSData_of v rt' (block lines) src k' = ([e], k')
    /\ id e = JS.or_empty (supplied UID lines).
Proof.
  intros Hi Hl Hs Hu Hd Hr.
  assert (Ht : JS.truthy (supplied DTSTART lines) = true).
  { destruct Hd as (tok & -> & Hne & _). now apply truthy_some. }
  assert (Hd' : datedToken (dtstart (collected v lines)))
    by (now rewrite collected_dtstart).
  assert (Hu' : JS.truthy (uid (collected v lines)) = true)
    by (now rewrite collected_uid).
  assert (Hr' : sameDates rt' rt) by (intros s; symmetry; apply Hr).
  destruct (makeEvent_stable v rt rt' src (collected v lines) k k' Hu' Hd' Hr)
    as [Ek Ee].
  destruct (makeEvent_stable v rt' rt src (collected v lines) k' k Hu' Hd' Hr')
    as [Ek' _].
  exists (fst (makeEvent_of v rt src (collected v lines) k)).
  rewrite !parse_block_text by assumption. rewrite Ek, Ek', Ee.
  repeat split.
  destruct (makeEvent_common v rt src (collected v lines) k) as (Hid & _).
  rewrite Hid, Hu', collected_uid. reflexivity.
Qed.

(** X24 at a block with a UID, parsed under two clocks. *)
Lemma stable_event_witness :
  exists e,
    parseICSData_of Current demoRuntime
      (block ["UID:dentist"; "SUMMARY:Dentist"; "DTSTART:20250615T140000"])
      "Apple Calendar" 0 = ([e], 0%nat)
    /\ parseICSData_of Current (Ref.runtime laterClock)
         (block ["UID:dentist"; "SUMMARY:Dentist"; "DTSTART:20250615T140000"])
         "Apple Calendar" 5 = ([e], 5%nat)
    /\ id e = JS.or_empty
                (supplied UID
                   ["UID:dentist"; "SUMMARY:Dentist";
                    "DTSTART:20250615T140000"]).
Proof.
  assert (Hi : inner ["UID:dentist"; "SUMMARY:Dentist";
                      "DTSTART:20250615T140000"]) by (repeat constructor).
  assert (Hl : Forall (fun l => one_line l = true)
                 ["UID:dentist"; "SUMMARY:Dentist";
                  "DTSTART:20250615T140000"]) by (repeat constructor).
  assert (Hd : datedToken
                 (supplied DTSTART
                    ["UID:dentist"; "SUMMARY:Dentist";
                     "DTSTART:20250615T140000"])).
  { exists "20250615T140000". repeat split; [discriminate | now right]. }
  exact (events_with_a_uid_are_stable Current demoRuntime
           (Ref.runtime laterClock) "Apple Calendar" _ 0 5 Hi Hl eq_refl
           eq_refl Hd (fun s => eq_refl)).
Defined.

(* ================================================================== *)
(** ** The URL that is requested                                       *)
(* ================================================================== *)

Lemma replace_unfold (pat rep s : string) :
  JS.replace pat rep s
  = if prefix pat s then rep ++ JS.drop (String.length pat) s
    else match s with
         | EmptyString => EmptyString
         | String c s' => String c (JS.replace pat rep s')
         end.
Proof. destruct s; reflexivity. Qed.

Lemma prefix_app (pat rest : string) : prefix pat (pat ++ rest) = true.
Proof.
  induction pat as [|c pat IH]; [apply prefix_empty|].
  cbn [append prefix]. destruct (ascii_dec c c); [exact IH | congruence].
Qed.

Lemma replace_prefix (pat rep rest : string) :
  JS.replace pat rep (pat ++ rest) = rep ++ rest.
Proof. now rewrite replace_unfold, prefix_app, drop_length_app. Qed.

Lemma replace_absent (pat rep s : string) :
  JS.includes pat s = false -> JS.replace pat rep s = s.
Proof.
  induction s as [|c s IH]; intros H; rewrite replace_unfold;
    cbn [JS.includes] in H; apply orb_false_iff in H as [Hp Hi]; rewrite Hp.
  - reflexivity.
  - now rewrite IH.
Qed.

(** X25.  A feed given as a [webcal://] URL is requested over [https://],
    the rest of the URL unchanged, and a URL without [webcal://] is
    requested as it is; the text that this one request is answered with is
    what the parser gets, under the name of the source, and its events are
    appended to those already accumulated. *)
Theorem webcal_feeds_are_requested_over_https (parse : Parser)
  (rt : Runtime) (net : Network) (fs : FetchState) (k : nat) :
  (forall nm rest,
      calendarUrl {| name := nm; url := "webcal://" ++ rest |}
      = "https://" ++ rest)
  /\ (forall src,
        JS.includes "webcal://" (url src) = false ->
        calendarUrl src = url src)
  /\ (forall src text,
        notConfigured (url src) = false ->
        net (requests fs) (calendarUrl src) = Response true (Some text) ->
        fetchSource parse rt net fs src k
        = ({| allEvents :=
                (allEvents fs ++ fst (parse rt text (name src) k))%list;
              requests := S (requests fs) |},
           snd (parse rt text (name src) k))).
Proof.
  split; [|split].
  - intros nm rest. unfold calendarUrl. cbn [url]. apply replace_prefix.
  - intros src H. unfold calendarUrl. now apply replace_absent.
  - intros src text Hc Hn. unfold fetchSource. fold (calendarUrl src).
    rewrite Hc, Hn. unfold bind, ret.
    now destruct (parse rt text (name src) k).
Qed.

(** X25 at the URL of the household's Apple calendar. *)
Lemma webcal_witness :
  fetchSource Server.parseICSData demoRuntime
    (serve (Response true (Some homeFeed)) NetworkError)
    {| allEvents := []; requests := 0 |}
    {| name := "Apple Calendar"; url := appleUrl |} 0
  = ({| allEvents :=
          ([] ++ fst (Server.parseICSData demoRuntime homeFeed
                        "Apple Calendar" 0))%list;
        requests := 1 |},
     snd (Server.parseICSData demoRuntime homeFeed "Apple Calendar" 0)).
Proof.
  exact (proj2 (proj2 (webcal_feeds_are_requested_over_https
                         Server.parseICSData demoRuntime
                         (serve (Response true (Some homeFeed)) NetworkError)
                         {| allEvents := []; requests := 0 |} 0))
           {| name := "Apple Calendar"; url := appleUrl |} homeFeed
           eq_refl eq_refl).
Defined.
